(** * creador_examenes: distribution calculator, cloze segmenter, exam sessions

    A shallow embedding of the pure logic of the exam generator
    (services/geminiService.ts, components/ExamTestMode.tsx,
    components/ExamOpenMode.tsx, components/ExamClozeMode.tsx, App.tsx)
    and the properties its specification states about it.

    Conventions of the embedding:
    - a JavaScript string is the list of its UTF-16 code units ([jsstring]);
    - a JavaScript number that the code only ever uses as an integer is a [Z]
      (exact below 2^53, the range in which doubles represent integers
      exactly); the one place where the code divides and rounds is computed
      on IEEE-754 binary64 values ([float]), as the engine does;
    - the results of [Math.round] are [jsnum]: an integer, NaN or an infinity;
    - the Unicode case tables of the engine ([toLowerCase], the [Canonicalize]
      operation of case-insensitive regular expressions) and the browser's
      [URL.createObjectURL] are the operations of a class, [Engine]; the
      theorems hold for every engine, and the examples run on [ascii_engine]. *)

From Stdlib Require Import ZArith NArith QArith Qround Qminmax List Lia Bool Floats.
From Stdlib Require Import Lqa.
From Stdlib Require Import Strings.String Strings.Ascii Numbers.DecimalString.
From Stdlib Require Numbers.DecimalNat.
From stdpp Require Import base list gmap.

Import ListNotations.

(* ===================================================================== *)
(** ** JavaScript values *)
(* ===================================================================== *)

Module JS.

Definition code_unit := N.
Definition jsstring := list N.

(** UTF-8 bytes of a literal of this file to UTF-16 code units, so that the
    constants below can be written as they are in the source. *)
Definition utf16_of_code_point (cp : N) : jsstring :=
  if (cp <? 65536)%N then [cp]
  else [(55296 + (cp - 65536) / 1024)%N; (56320 + (cp - 65536) mod 1024)%N].

Fixpoint utf8_decode (need : nat) (acc : N) (bs : list N) : jsstring :=
  match bs with
  | [] => []
  | b :: bs' =>
      match need with
      | O =>
          if (b <? 128)%N then b :: utf8_decode 0 0%N bs'
          else if (b <? 224)%N then utf8_decode 1 (N.land b 31) bs'
          else if (b <? 240)%N then utf8_decode 2 (N.land b 15) bs'
          else utf8_decode 3 (N.land b 7) bs'
      | S k =>
          let acc' := (acc * 64 + N.land b 63)%N in
          match k with
          | O => utf16_of_code_point acc' ++ utf8_decode 0 0%N bs'
          | S _ => utf8_decode k acc' bs'
          end
      end
  end.

Definition js (s : string) : jsstring :=
  utf8_decode 0 0%N (map N_of_ascii (list_ascii_of_string s)).

Definition LF : code_unit := 10%N.

Definition jsstring_eqb (a b : jsstring) : bool := bool_decide (a = b).

(** [LineTerminator] of the ECMAScript grammar: what [.] does not match. *)
Definition isLineTerminator (c : code_unit) : bool :=
  (c =? 10)%N || (c =? 13)%N || (c =? 8232)%N || (c =? 8233)%N.

(** [WhiteSpace] and [LineTerminator]: what [\s] matches and [trim] strips. *)
Definition isWhiteSpace (c : code_unit) : bool :=
  ((9 <=? c)%N && (c <=? 13)%N) || (c =? 32)%N || (c =? 160)%N
  || (c =? 5760)%N || ((8192 <=? c)%N && (c <=? 8202)%N)
  || (c =? 8232)%N || (c =? 8233)%N || (c =? 8239)%N || (c =? 8287)%N
  || (c =? 12288)%N || (c =? 65279)%N.

(** [\d] *)
Definition isDigit (c : code_unit) : bool := (48 <=? c)%N && (c <=? 57)%N.

Fixpoint dropWhile (p : code_unit -> bool) (s : jsstring) : jsstring :=
  match s with
  | [] => []
  | c :: s' => if p c then dropWhile p s' else s
  end.

(** [String.prototype.trim] *)
Definition trim (s : jsstring) : jsstring :=
  rev (dropWhile isWhiteSpace (rev (dropWhile isWhiteSpace s))).

(** [parseInt(digits, 10)] on a run of decimal digits *)
Definition parseInt (digits : jsstring) : Z :=
  fold_left (fun acc c => (10 * acc + (Z.of_N c - 48))%Z) digits 0%Z.

(** The number a decimal integer denotes, as a binary64 value (round to
    nearest, ties to even; infinite past the largest finite double). *)
Definition Z2F (z : Z) : float := SF2Prim (binary_normalize prec emax z 0 false).

(** The integer-valued results of the code. *)
Inductive jsnum :=
  | Num (z : Z)
  | NaN
  | Infinity (negative : bool).

(** [Math.round]: the integer closest to [x], ties towards +Infinity, that is
    floor (x + 1/2) computed exactly. A finite double is [m * 2^e]. *)
Definition Math_round (x : float) : jsnum :=
  match Prim2SF x with
  | S754_zero _ => Num 0
  | S754_finite s m e =>
      let n := if s then Z.neg m else Z.pos m in
      if (0 <=? e)%Z then Num (n * 2 ^ e)
      else Num ((2 * n + 2 ^ (- e)) / 2 ^ (1 - e))
  | S754_infinity s => Infinity s
  | S754_nan => NaN
  end.

(** The binary64 value nearest to an integer, as a number of the code: the
    integer itself up to 2^53 in absolute value, beyond that the nearest
    double (ties to even), and an infinity past the largest double. *)
Definition js_int (z : Z) : jsnum := Math_round (Z2F z).

Definition js_neg (a : jsnum) : jsnum :=
  match a with
  | Num z => Num (- z)
  | NaN => NaN
  | Infinity s => Infinity (negb s)
  end.

(** [a + b] on integer-valued doubles: binary64 addition gives the exact
    sum rounded to the nearest double. *)
Definition js_add (a b : jsnum) : jsnum :=
  match a, b with
  | Num x, Num y => js_int (x + y)
  | NaN, _ | _, NaN => NaN
  | Infinity s, Num _ | Num _, Infinity s => Infinity s
  | Infinity s, Infinity s' => if Bool.eqb s s' then Infinity s else NaN
  end.

(** [a - b]: binary64 subtraction is the addition of the opposite. *)
Definition js_sub (a b : jsnum) : jsnum := js_add a (js_neg b).

(** [x === 0] *)
Definition is_zero (a : jsnum) : bool :=
  match a with
  | Num z => (z =? 0)%Z
  | _ => false
  end.

(** [x >= k] for an integer [k] *)
Definition js_geb (a : jsnum) (k : Z) : bool :=
  match a with
  | Num z => (k <=? z)%Z
  | NaN => false
  | Infinity s => negb s
  end.

#[export] Instance jsnum_eq_dec : EqDecision jsnum.
Proof. solve_decision. Defined.

(** A browser [File]: its name and its bytes. *)
Record File := { file_name : jsstring; file_bytes : list N }.

(** The engine's Unicode tables and browser services. *)
Class Engine := {
  toLowerCase : jsstring -> jsstring;
  Canonicalize : code_unit -> code_unit;
  (* The URL one call of [URL.createObjectURL] mints for a file. The browser
     mints a new URL at every call: a statement reads this field for one
     call, and links of different calls are compared by the file and the
     page they are made for ([Target] below), not by their URLs. *)
  createObjectURL : File -> jsstring;
}.

Definition ascii_lower (c : code_unit) : code_unit :=
  if ((65 <=? c)%N && (c <=? 90)%N) then (c + 32)%N else c.

Definition ascii_upper (c : code_unit) : code_unit :=
  if ((97 <=? c)%N && (c <=? 122)%N) then (c - 32)%N else c.

(** The engine restricted to ASCII letters: on ASCII text it agrees with
    every conforming engine. *)
Definition ascii_engine : Engine :=
  {| toLowerCase := map ascii_lower;
     Canonicalize := ascii_upper;
     createObjectURL := fun f => js "blob:" ++ file_name f |}.

(** A [Map<string, V>]: its entries in insertion order, keys distinct. *)
Definition Map (V : Type) := list (jsstring * V).

Fixpoint Map_get {V : Type} (m : Map V) (key : jsstring) : option V :=
  match m with
  | [] => None
  | (k, v) :: m' => if jsstring_eqb k key then Some v else Map_get m' key
  end.

(** Numbers of the exam score: exact rationals, NaN and the infinities. *)
Inductive jsreal :=
  | Fin (q : Q)
  | RNaN
  | RInf (negative : bool).

(** [a / n] for a count [n] *)
Definition js_div (a : jsreal) (n : nat) : jsreal :=
  match a, n with
  | Fin q, O =>
      match (q ?= 0)%Q with
      | Eq => RNaN
      | Gt => RInf false
      | Lt => RInf true
      end
  | Fin q, S _ => Fin (q / inject_Z (Z.of_nat n))
  | RNaN, _ => RNaN
  | RInf s, _ => RInf s
  end.

(** [x * 10] *)
Definition js_times10 (x : jsreal) : jsreal :=
  match x with
  | Fin q => Fin (q * 10)
  | _ => x
  end.

(** [Math.max(0, x)] *)
Definition Math_max0 (x : jsreal) : jsreal :=
  match x with
  | Fin q => Fin (Qmax 0 q)
  | RNaN => RNaN
  | RInf s => if s then Fin 0 else RInf false
  end.

(** [Math.round] on these numbers: floor (x + 1/2). *)
Definition Math_round_real (x : jsreal) : jsnum :=
  match x with
  | Fin q => Num (Qfloor (q + (1 # 2)))
  | RNaN => NaN
  | RInf s => Infinity s
  end.

(** [Math.max(0, x)] on binary64 values *)
Definition Math_max0_float (x : float) : float :=
  if PrimFloat.is_nan x then x
  else if (x <? 0)%float then 0%float else x.

End JS.

Import JS.

(* ===================================================================== *)
(** ** Regular expressions of the code, as backtracking matchers *)
(* ===================================================================== *)

Module Regex.

(** A literal piece of a pattern: the rest of [s] after it. *)
Fixpoint literal (p s : jsstring) : option jsstring :=
  match p, s with
  | [], _ => Some s
  | a :: p', c :: s' => if (a =? c)%N then literal p' s' else None
  | _ :: _, [] => None
  end.

(** [[\s\S]] and [.] *)
Definition any (_ : code_unit) : bool := true.
Definition dot (c : code_unit) : bool := negb (isLineTerminator c).

Section Quantifiers.
Context {A : Type}.
Variable ok : code_unit -> bool.
Variable k : jsstring -> jsstring -> option A.

(** [(x*?)] followed by [k]: the shortest capture first. *)
Fixpoint lazy_star (acc s : jsstring) : option A :=
  match k acc s with
  | Some r => Some r
  | None =>
      match s with
      | c :: s' => if ok c then lazy_star (acc ++ [c]) s' else None
      | [] => None
      end
  end.

(** [(x* )] followed by [k]: the longest capture first. *)
Fixpoint greedy_star (acc s : jsstring) : option A :=
  match s with
  | c :: s' =>
      if ok c then
        match greedy_star (acc ++ [c]) s' with
        | Some r => Some r
        | None => k acc s
        end
      else k acc s
  | [] => k acc s
  end.

(** [(x+?)] and [(x+)] *)
Definition lazy_plus (s : jsstring) : option A :=
  match s with
  | c :: s' => if ok c then lazy_star [c] s' else None
  | [] => None
  end.

Definition greedy_plus (s : jsstring) : option A :=
  match s with
  | c :: s' => if ok c then greedy_star [c] s' else None
  | [] => None
  end.
End Quantifiers.

(** [while ((match = re.exec(text)) !== null)] for a global pattern [re]:
    the successive leftmost matches, each search starting where the previous
    match ended. [m s] matches the pattern at the start of [s] and returns the
    captures and the text after the match; [skip] counts the code units of
    the current match still to pass. *)
Fixpoint exec_loop {A : Type} (m : jsstring -> option (A * jsstring))
    (skip : nat) (s : jsstring) {struct s} : list A :=
  match skip with
  | S n =>
      match s with
      | [] => []
      | _ :: s' => exec_loop m n s'
      end
  | O =>
      match m s with
      | Some (a, rest) =>
          a :: match s with
               | [] => []
               | _ :: s' => exec_loop m (length s - length rest - 1) s'
               end
      | None =>
          match s with
          | [] => []
          | _ :: s' => exec_loop m 0 s'
          end
      end
  end.

End Regex.

(* ===================================================================== *)
(** ** services/geminiService.ts: getQuestionCountsPerDocument *)
(* ===================================================================== *)

Module Distribution.

Import Regex.

Record doc := { name : jsstring; pages : float }.
Record oldDoc := { old_name : jsstring; length_ : float }.
Record entry := { docName : jsstring; count : jsnum }.

(** [/--- Inicio del documento: (.*?) \| Páginas: (\d+) ---\n([\s\S]*?)\n--- Fin del documento ---/g] *)
Definition docRegex (s : jsstring)
  : option ((jsstring * jsstring * jsstring) * jsstring) :=
  s1 ← literal (js "--- Inicio del documento: ") s;
  lazy_star dot (fun m1 s2 =>
    s3 ← literal (js " | Páginas: ") s2;
    greedy_plus isDigit (fun m2 s4 =>
      s5 ← literal (js " ---" ++ [LF]) s4;
      lazy_star any (fun m3 s6 =>
        s7 ← literal (LF :: js "--- Fin del documento ---") s6;
        Some ((m1, m2, m3), s7)) [] s5) s3) [] s1.

(** [/--- Inicio del documento: (.*?) ---\n([\s\S]*?)\n--- Fin del documento ---/g] *)
Definition oldDocRegex (s : jsstring)
  : option ((jsstring * jsstring) * jsstring) :=
  s1 ← literal (js "--- Inicio del documento: ") s;
  lazy_star dot (fun m1 s2 =>
    s3 ← literal (js " ---" ++ [LF]) s2;
    lazy_star any (fun m2 s4 =>
      s5 ← literal (LF :: js "--- Fin del documento ---") s4;
      Some ((m1, m2), s5)) [] s3) [] s1.

(** The first [while] loop: [docs] ([totalPages] is summed below). *)
Definition scanDocs (text : jsstring) : list doc :=
  map (fun '(m1, m2, _) => {| name := m1; pages := Z2F (parseInt m2) |})
      (exec_loop docRegex 0 text).

(** The second [while] loop: [oldDocs]. *)
Definition scanOldDocs (text : jsstring) : list oldDoc :=
  map (fun '(m1, m2) =>
         {| old_name := m1; length_ := Z2F (Z.of_nat (length m2)) |})
      (exec_loop oldDocRegex 0 text).

(** [total += weight], from 0 *)
Definition total (ws : list float) : float :=
  fold_left (fun acc w => (acc + w)%float) ws 0%float.

(** [Math.round((doc.pages / totalPages) * totalQuestions)] *)
Definition share (weight totalWeight : float) (totalQuestions : Z) : jsnum :=
  Math_round ((weight / totalWeight) * Z2F totalQuestions)%float.

(** The body of the [forEach] callback: the count of the document at [index],
    given [distributedCount]. *)
Definition count_of (len : nat) (totalWeight : float) (totalQuestions : Z)
    (index : nat) (distributedCount : jsnum) (weight : float) : jsnum :=
  if (index =? len - 1)%nat then
    js_sub (Num totalQuestions) distributedCount
  else
    let count := share weight totalWeight totalQuestions in
    if is_zero count && (Z.of_nat len <=? totalQuestions)%Z then Num 1
    else count.

(** [docs.forEach((doc, index) => ...)], threading [distributedCount] and
    [result]. Both loops of the source (pages, legacy body length) are this
    one, on the documents' names and weights. *)
Fixpoint forEach (len : nat) (totalWeight : float) (totalQuestions : Z)
    (index : nat) (distributedCount : jsnum) (result : list entry)
    (docs : list (jsstring * float)) : list entry :=
  match docs with
  | [] => result
  | (nm, weight) :: docs' =>
      let count :=
        count_of len totalWeight totalQuestions index distributedCount weight in
      forEach len totalWeight totalQuestions (S index)
        (js_add distributedCount count)
        (result ++ [{| docName := nm; count := count |}]) docs'
  end.

Definition distribute (docs : list (jsstring * float)) (totalWeight : float)
    (totalQuestions : Z) : list entry :=
  forEach (length docs) totalWeight totalQuestions 0 (Num 0) [] docs.

Definition getQuestionCountsPerDocument (text : jsstring) (totalQuestions : Z)
  : list entry :=
  let docs := scanDocs text in
  let totalPages := total (map pages docs) in
  if (length docs =? 0)%nat then
    let oldDocs := scanOldDocs text in
    let totalLength := total (map length_ oldDocs) in
    if (length oldDocs <=? 1)%nat then []
    else distribute (map (fun d => (old_name d, length_ d)) oldDocs)
           totalLength totalQuestions
  else if (length docs <=? 1)%nat then []
  else distribute (map (fun d => (name d, pages d)) docs)
         totalPages totalQuestions.

(** The documents the parser finds in a corpus, with their weights: those of
    the page-count pattern, or those of the legacy pattern when it finds
    none. *)
Definition documents (text : jsstring) : list (jsstring * float) :=
  let docs := scanDocs text in
  if (length docs =? 0)%nat
  then map (fun d => (old_name d, length_ d)) (scanOldDocs text)
  else map (fun d => (name d, pages d)) docs.

(** [distributedCount] after a run of counts *)
Definition js_sum (counts : list jsnum) : jsnum :=
  fold_left js_add counts (Num 0).

(** The corpus [extractTextFromPDFs] writes for files of the given names and
    page texts (services/pdfService.ts). *)
Definition decimal (n : nat) : jsstring :=
  js (NilEmpty.string_of_uint (Nat.to_uint n)).

Fixpoint pagesText (i : nat) (pageTexts : list jsstring) : jsstring :=
  match pageTexts with
  | [] => []
  | pageText :: rest =>
      js "--- [Página " ++ decimal i ++ js "] ---" ++ [LF] ++ pageText ++ [LF]
      ++ pagesText (S i) rest
  end.

Definition extractTextFromPDFs (files : list (jsstring * list jsstring))
  : jsstring :=
  flat_map (fun '(fileName, pageTexts) =>
    js "--- Inicio del documento: " ++ fileName ++ js " | Páginas: "
    ++ decimal (length pageTexts) ++ js " ---" ++ [LF]
    ++ pagesText 1 pageTexts ++ [LF] ++ js "--- Fin del documento ---"
    ++ [LF; LF]) files.

End Distribution.

(* ===================================================================== *)
(** ** types.ts *)
(* ===================================================================== *)

Module Types.

Inductive ExamType := TEST | CLOZE_FLASHCARD | OPEN_FLASHCARD.
Inductive Difficulty := EASY | MEDIUM | HARD.
Inductive Benevolence := STRICT | NORMAL | BENEVOLENT.
Inductive Step := UPLOAD | SETTINGS | LOADING | EXAM | RESULTS.

Module TestQuestion.
Record t := {
  question : jsstring;
  options : list jsstring;
  correctIndices : list Z;
  explanation : jsstring;
  sourceQuote : jsstring;
  sourceFile : option jsstring;
}.
End TestQuestion.

Module ClozeCard.
Record t := {
  fullText : jsstring;
  hiddenWords : list jsstring;
  imagePrompt : jsstring;
  sourceFile : option jsstring;
}.
End ClozeCard.

Module OpenQuestion.
Record t := {
  question : jsstring;
  modelAnswer : jsstring;
  sourceFile : option jsstring;
}.
End OpenQuestion.

Record ExamSettings := {
  type : ExamType;
  questionCount : Z;
  difficulty : Difficulty;
  optionsCount : option Z;
  allowMultipleCorrect : option bool;
  negativeMarking : option bool;
  maxClozeBlanks : option Z;
  autoRead : option bool;
  timeLimit : option Z;
  showSummary : option bool;
  showSourceFile : option bool;
  benevolence : option Benevolence;
  voiceURI : option jsstring;
}.

Record AppState := {
  step : Step;
  pdfText : jsstring;
  settings : ExamSettings;
  testQuestions : list TestQuestion.t;
  clozeCards : list ClozeCard.t;
  openQuestions : list OpenQuestion.t;
  generatedImages : gmap Z jsstring;
  uploadedFiles : option (Map File);
}.

(** A value used as a condition: [undefined] and [false] are falsy. *)
Definition truthy (b : option bool) : bool := default false b.

End Types.

Import Types.

(* ===================================================================== *)
(** ** services/geminiService.ts: evaluateOpenAnswer *)
(* ===================================================================== *)

Module Evaluation.

(** The values the prompt of the evaluation request interpolates. *)
Record Request := {
  question : jsstring;
  modelAnswer : jsstring;
  userAnswer : jsstring;
  benevolenceInstruction : jsstring;
}.

Record Result := { score : Z; feedback : jsstring }.

Definition instruction (benevolence : Benevolence) : jsstring :=
  match benevolence with
  | STRICT =>
      js "CRITERIOS DE EVALUACIÓN: Sé ESTRICTO. La respuesta debe ser precisa y completa. Penaliza imprecisiones o falta de detalle clave. Si es vaga, marca 0."
  | BENEVOLENT =>
      js "CRITERIOS DE EVALUACIÓN: Sé MUY BENEVOLENTE. Si la respuesta tiene CUALQUIER relación con la correcta o demuestra una mínima comprensión, marca 1. Ignora errores de expresión."
  | NORMAL =>
      js "CRITERIOS DE EVALUACIÓN: Sé FLEXIBLE pero RAZONABLE. Si captura la idea principal, marca 1. Si es claramente incorrecta o irrelevante, marca 0."
  end.

(** The request [evaluateOpenAnswer] sends. Its last parameter is declared
    [benevolence = 'NORMAL']: an omitted argument is [None]. *)
Definition evaluateOpenAnswer (question modelAnswer userAnswer : jsstring)
    (benevolence : option Benevolence) : Request :=
  let benevolence := default NORMAL benevolence in
  {| question := question;
     modelAnswer := modelAnswer;
     userAnswer := userAnswer;
     benevolenceInstruction := instruction benevolence |}.

End Evaluation.

(* ===================================================================== *)
(** ** createPDFLink: the source attribution of an item as a link *)
(* ===================================================================== *)

Module Link.

Import Regex.

Record PDFLink := { url : option jsstring; display : jsstring }.

(** [/^(.+?)\\s*\\(Pág\\.\\s*(\\d+)\\)$/]: the file name and the page number *)
Definition sourceFileRegex (s : jsstring) : option (jsstring * jsstring) :=
  lazy_plus dot (fun filename s1 =>
    greedy_star isWhiteSpace (fun _ s2 =>
      s3 ← literal (js "(Pág.") s2;
      greedy_star isWhiteSpace (fun _ s4 =>
        greedy_plus isDigit (fun pageNum s5 =>
          s6 ← literal (js ")") s5;
          match s6 with
          | [] => Some (filename, pageNum)
          | _ :: _ => None
          end) s4) [] s3) [] s1) s.

Definition isDot (c : code_unit) : bool := (c =? 46)%N.

(** [name.replace(/\\.[^.]+$/, '')]: without its extension *)
Fixpoint stripExtension (name : jsstring) : jsstring :=
  match name with
  | [] => []
  | c :: rest =>
      if isDot c && negb (bool_decide (rest = []))
         && forallb (fun x => negb (isDot x)) rest
      then []
      else c :: stripExtension rest
  end.

(** [for (const [key, value] of uploadedFiles.entries())]: the first file
    whose extension-stripped, lower-cased name is [baseNameToFind]. *)
Fixpoint fuzzyFind `{Engine} (entries : Map File) (baseNameToFind : jsstring)
  : option File :=
  match entries with
  | [] => None
  | (key, value) :: rest =>
      let baseName := toLowerCase (stripExtension key) in
      if jsstring_eqb baseName baseNameToFind then Some value
      else fuzzyFind rest baseNameToFind
  end.

Definition linkTo `{Engine} (file : File) (pageNum sourceFile : jsstring)
  : PDFLink :=
  let blobUrl := createObjectURL file in
  {| url := Some (blobUrl ++ js "#page=" ++ pageNum); display := sourceFile |}.

End Link.

(* ===================================================================== *)
(** ** components/ExamTestMode.tsx *)
(* ===================================================================== *)

Module ExamTestMode.

Import Link.

Definition createPDFLink `{Engine} (uploadedFiles : option (Map File))
    (sourceFile : option jsstring) : PDFLink :=
  match sourceFile, uploadedFiles with
  | Some (c :: cs), Some uploadedFiles =>
      let sourceFile := c :: cs in
      match sourceFileRegex sourceFile with
      | None => {| url := None; display := sourceFile |}
      | Some (filename, pageNum) =>
          let trimmedFilename := trim filename in
          let file := Map_get uploadedFiles trimmedFilename in
          let file :=
            match file with
            | Some f => Some f
            | None =>
                let baseNameToFind :=
                  toLowerCase (stripExtension trimmedFilename) in
                fuzzyFind uploadedFiles baseNameToFind
            end in
          match file with
          | None => {| url := None; display := sourceFile |}
          | Some file => linkTo file pageNum sourceFile
          end
      end
  | _, _ => {| url := None; display := default [] sourceFile |}
  end.

Record SummaryItem := {
  question : jsstring;
  userSelected : list (option jsstring);
  correctSelected : list (option jsstring);
  isCorrect : bool;
  explanation : jsstring;
}.

Record Results := { correct : nat; wrong : nat }.

(** The [useState] cells of the component. *)
Record State := {
  currentIndex : nat;
  selectedOptions : list Z;
  isAnswered : bool;
  score : Q;
  results : Results;
  summary : list SummaryItem;
}.

(** [options[i]] *)
Definition at_index (options : list jsstring) (i : Z) : option jsstring :=
  if (i <? 0)%Z then None else options !! Z.to_nat i.

(** [correctSet.size === selectedSet.size &&
     [...correctSet].every(x => selectedSet.has(x))] *)
Definition sameSelection (correctIndices selectedOptions : list Z) : bool :=
  let correctSet : gset Z := list_to_set correctIndices in
  let selectedSet : gset Z := list_to_set selectedOptions in
  bool_decide (size correctSet = size selectedSet)
  && forallb (fun x => bool_decide (x ∈ selectedSet)) (elements correctSet).

(** [points] of [handleSubmit] *)
Definition points (settings : ExamSettings) (isCorrect : bool) : Q :=
  if isCorrect then 1
  else if truthy (negativeMarking settings) then - (1 # 2) else 0.

(** [handleSubmit]; [None] is the TypeError of reading a question past the
    end, which the finished screen (no submit button) excludes. *)
Definition handleSubmit (questions : list TestQuestion.t)
    (settings : ExamSettings) (st : State) : option State :=
  match selectedOptions st with
  | [] => Some st
  | _ :: _ =>
      currentQuestion ← questions !! currentIndex st;
      let isCorrect :=
        sameSelection (TestQuestion.correctIndices currentQuestion)
                      (selectedOptions st) in
      let points := points settings isCorrect in
      Some {|
        currentIndex := currentIndex st;
        selectedOptions := selectedOptions st;
        isAnswered := true;
        score := (score st + points)%Q;
        results :=
          if isCorrect
          then {| correct := S (correct (results st));
                  wrong := wrong (results st) |}
          else {| correct := correct (results st);
                  wrong := S (wrong (results st)) |};
        summary := summary st ++ [{|
          question := TestQuestion.question currentQuestion;
          userSelected :=
            map (at_index (TestQuestion.options currentQuestion))
                (selectedOptions st);
          correctSelected :=
            map (at_index (TestQuestion.options currentQuestion))
                (TestQuestion.correctIndices currentQuestion);
          isCorrect := isCorrect;
          explanation := TestQuestion.explanation currentQuestion |}]
      |}
  end.

(** [Math.round(Math.max(0, (score / maxScore) * 10))] of the finished
    screen, in exact arithmetic. *)
Definition grade (questions : list TestQuestion.t) (score : Q) : jsnum :=
  let maxScore := length questions in
  Math_round_real (Math_max0 (js_times10 (js_div (Fin score) maxScore))).

(** [grade >= 5] *)
Definition isPass (questions : list TestQuestion.t) (score : Q) : bool :=
  js_geb (grade questions score) 5.

(** The grade in the words of the specification:
    round(max(0, totalScore) / itemCount * 10). *)
Definition grade_as_specified (itemCount : nat) (totalScore : Q) : jsnum :=
  Math_round_real (js_times10 (js_div (Fin (Qmax 0 totalScore)) itemCount)).

(** The same expression on binary64 values, for a score of [halves] half
    points and [maxScore] questions. *)
Definition grade_binary64 (maxScore : nat) (halves : Z) : jsnum :=
  let score := (Z2F halves * 0.5)%float in
  Math_round
    (Math_max0_float ((score / Z2F (Z.of_nat maxScore)) * 10)%float).

End ExamTestMode.

(* ===================================================================== *)
(** ** components/ExamOpenMode.tsx *)
(* ===================================================================== *)

Module ExamOpenMode.

Import Link.

Definition createPDFLink `{Engine} (uploadedFiles : option (Map File))
    (sourceFile : option jsstring) : PDFLink :=
  match sourceFile, uploadedFiles with
  | Some (c :: cs), Some uploadedFiles =>
      let sourceFile := c :: cs in
      match sourceFileRegex sourceFile with
      | None => {| url := None; display := sourceFile |}
      | Some (filename, pageNum) =>
          let file := Map_get uploadedFiles (trim filename) in
          match file with
          | None => {| url := None; display := sourceFile |}
          | Some file => linkTo file pageNum sourceFile
          end
      end
  | _, _ => {| url := None; display := default [] sourceFile |}
  end.

Record SummaryRow := { q : jsstring; a : jsstring; m : jsstring; score : Z }.

(** The [useState] cells of the component. *)
Record State := {
  currentIndex : nat;
  userAnswer : jsstring;
  evaluation : option Evaluation.Result;
  showModelAnswer : bool;
  isEvaluating : bool;
  totalScore : Z;
  summary : list SummaryRow;
}.

(** [handleCheck], with the requests it has [evaluateOpenAnswer] send.
    [settings] is the component's prop; [evaluator] is the external model's
    answer to a request ([None]: the call fails); the outer [None] is the
    TypeError of reading a question past the end. *)
Definition handleCheck (questions : list OpenQuestion.t)
    (settings : option ExamSettings)
    (evaluator : Evaluation.Request -> option Evaluation.Result)
    (st : State) : option (State * list Evaluation.Request) :=
  currentQuestion ← questions !! currentIndex st;
  if bool_decide (trim (userAnswer st) = []) then
    Some ({|
      currentIndex := currentIndex st;
      userAnswer := userAnswer st;
      evaluation := evaluation st;
      showModelAnswer := true;
      isEvaluating := isEvaluating st;
      totalScore := totalScore st;
      summary := summary st ++ [{|
        q := OpenQuestion.question currentQuestion;
        a := js "(Sin respuesta)";
        m := OpenQuestion.modelAnswer currentQuestion;
        score := 0 |}] |}, [])
  else
    let request :=
      Evaluation.evaluateOpenAnswer
        (OpenQuestion.question currentQuestion)
        (OpenQuestion.modelAnswer currentQuestion)
        (userAnswer st) None in
    match evaluator request with
    | Some result =>
        Some ({|
          currentIndex := currentIndex st;
          userAnswer := userAnswer st;
          evaluation := Some result;
          showModelAnswer := showModelAnswer st;
          isEvaluating := false;
          totalScore :=
            if (Evaluation.score result =? 1)%Z
            then (totalScore st + 1)%Z else totalScore st;
          summary := summary st ++ [{|
            q := OpenQuestion.question currentQuestion;
            a := userAnswer st;
            m := OpenQuestion.modelAnswer currentQuestion;
            score := Evaluation.score result |}] |}, [request])
    | None =>
        Some ({|
          currentIndex := currentIndex st;
          userAnswer := userAnswer st;
          evaluation :=
            Some {| Evaluation.score := 0;
                    Evaluation.feedback := js "Error al evaluar con IA." |};
          showModelAnswer := showModelAnswer st;
          isEvaluating := false;
          totalScore := totalScore st;
          summary := summary st |}, [request])
    end.

End ExamOpenMode.

(* ===================================================================== *)
(** ** components/ExamClozeMode.tsx *)
(* ===================================================================== *)

Module ExamClozeMode.

Definition createPDFLink `{Engine} := @ExamTestMode.createPDFLink _.

Record Part := { text : jsstring; hidden : bool; word : option jsstring }.

(** What a list of parts spells: their texts, in order. *)
Definition texts (parts : list Part) : jsstring := concat (map text parts).

(** The characters of the class [[.*+?^${}()|[\]\\]] *)
Definition isSyntaxCharacter (c : code_unit) : bool :=
  existsb (N.eqb c) [46; 42; 43; 63; 94; 36; 123; 125; 40; 41; 124; 91; 93; 92]%N.

Definition backslash : code_unit := 92%N.

(** [string.replace(/[.*+?^${}()|[\]\\]/g, '\\$&')] *)
Definition escapeRegExp (string : jsstring) : jsstring :=
  flat_map (fun c => if isSyntaxCharacter c then [backslash; c] else [c]) string.

(** The pattern [new RegExp(`(${safeWord})`, 'gi')] of an escaped word: one
    capture group around the characters of [safeWord], an identity escape
    standing for the character it escapes. *)
Fixpoint patternCharacters (safeWord : jsstring) : jsstring :=
  match safeWord with
  | [] => []
  | c :: rest =>
      if (c =? backslash)%N then
        match rest with
        | [] => [c]
        | c' :: rest' => c' :: patternCharacters rest'
        end
      else c :: patternCharacters rest
  end.

Section Split.
Context `{Engine}.

(** Does the group match at the start of [s], ignoring case? *)
Fixpoint matchAt (pattern s : jsstring) : bool :=
  match pattern, s with
  | [], _ => true
  | p :: pattern', c :: s' =>
      (Canonicalize p =? Canonicalize c)%N && matchAt pattern' s'
  | _ :: _, [] => false
  end.

(** The loop of [RegExp.prototype[Symbol.split]] on a non-empty string: [s]
    is the text from position q on, [pending] the text between p and q, and
    [skip] the code units of the current match still to pass. A match pushes
    the text before it and the capture; the empty match at p only advances. *)
Fixpoint splitLoop (pattern : jsstring) (skip : nat) (pending s : jsstring)
  : list jsstring :=
  match s with
  | [] => [pending]
  | c :: s' =>
      match skip with
      | S n => splitLoop pattern n pending s'
      | O =>
          if matchAt pattern s then
            match pattern, pending with
            | [], [] => splitLoop pattern 0 [c] s'
            | [], _ :: _ => pending :: [] :: splitLoop pattern 0 [c] s'
            | _ :: _, _ =>
                pending :: firstn (length pattern) s
                :: splitLoop pattern (length pattern - 1) [] s'
            end
          else splitLoop pattern 0 (pending ++ [c]) s'
      end
  end.

(** [text.split(regex)] for the pattern [(pattern)] with flags [gi] *)
Definition split (pattern text : jsstring) : list jsstring :=
  match text with
  | [] => if matchAt pattern [] then [] else [[]]
  | _ :: _ => splitLoop pattern 0 [] text
  end.

(** The callback of [split.forEach] *)
Definition pieceParts (word s : jsstring) : list Part :=
  if jsstring_eqb (toLowerCase s) (toLowerCase (trim word)) then
    [{| text := s; hidden := true; word := Some s |}]
  else
    match s with
    | [] => []
    | _ :: _ => [{| text := s; hidden := false; word := None |}]
    end.

(** The callback of [parts.forEach] *)
Definition splitPart (word : jsstring) (part : Part) : list Part :=
  if hidden part then [part]
  else
    let safeWord := escapeRegExp (trim word) in
    let regex := patternCharacters safeWord in
    let split := split regex (text part) in
    flat_map (pieceParts word) split.

(** The callback of [hiddenWords.forEach]: the new value of [parts] *)
Definition hideWord (parts : list Part) (word : jsstring) : list Part :=
  match word with
  | [] => parts
  | _ :: _ => flat_map (splitPart word) parts
  end.

Definition getParsedContent (currentCard : option ClozeCard.t) : list Part :=
  match currentCard with
  | None => []
  | Some currentCard =>
      let parts :=
        [{| text := ClozeCard.fullText currentCard;
            hidden := false; word := None |}] in
      fold_left hideWord (ClozeCard.hiddenWords currentCard) parts
  end.

End Split.

End ExamClozeMode.

(* ===================================================================== *)
(** ** createPDFLink: the file and page a link is made for *)
(* ===================================================================== *)

Module Target.

Import Link.

(** The [file] and [pageNum] with which [createPDFLink] of test mode and of
    cloze mode reaches [URL.createObjectURL(file)]: the steps of the
    function up to that call. [None] where it returns without a link. *)
Definition testMode `{Engine} (uploadedFiles : option (Map File))
    (sourceFile : option jsstring) : option (File * jsstring) :=
  match sourceFile, uploadedFiles with
  | Some (c :: cs), Some uploadedFiles =>
      match sourceFileRegex (c :: cs) with
      | None => None
      | Some (filename, pageNum) =>
          let trimmedFilename := trim filename in
          let file := Map_get uploadedFiles trimmedFilename in
          let file :=
            match file with
            | Some f => Some f
            | None =>
                let baseNameToFind :=
                  toLowerCase (stripExtension trimmedFilename) in
                fuzzyFind uploadedFiles baseNameToFind
            end in
          match file with
          | None => None
          | Some file => Some (file, pageNum)
          end
      end
  | _, _ => None
  end.

(** The same for [createPDFLink] of open mode. *)
Definition openMode (uploadedFiles : option (Map File))
    (sourceFile : option jsstring) : option (File * jsstring) :=
  match sourceFile, uploadedFiles with
  | Some (c :: cs), Some uploadedFiles =>
      match sourceFileRegex (c :: cs) with
      | None => None
      | Some (filename, pageNum) =>
          match Map_get uploadedFiles (trim filename) with
          | None => None
          | Some file => Some (file, pageNum)
          end
      end
  | _, _ => None
  end.

End Target.

(* ===================================================================== *)
(** ** The pattern text of an escaped term *)
(* ===================================================================== *)

Module Pattern.

Import ExamClozeMode.


End Pattern.

(* ===================================================================== *)
(** ** App.tsx *)
(* ===================================================================== *)

Module App.

(** The [useState] cells of the component. *)
Record t := {
  state : AppState;
  loadingMessage : jsstring;
  isDarkMode : bool;
  isFullScreen : bool;
  zoomLevel : Q;
  backgroundImage : option jsstring;
}.

(** [setState(prev => ({ ...prev, step: 'SETTINGS', testQuestions: [],
     clozeCards: [], openQuestions: [] }))] *)
Definition restart (prev : AppState) : AppState :=
  {| step := SETTINGS;
     pdfText := pdfText prev;
     settings := settings prev;
     testQuestions := [];
     clozeCards := [];
     openQuestions := [];
     generatedImages := generatedImages prev;
     uploadedFiles := uploadedFiles prev |}.

Definition handleRestart (app : t) : t :=
  {| state := restart (state app);
     loadingMessage := loadingMessage app;
     isDarkMode := isDarkMode app;
     isFullScreen := isFullScreen app;
     zoomLevel := zoomLevel app;
     backgroundImage := backgroundImage app |}.

End App.

(* ===================================================================== *)
(** ** services/geminiService.ts: calculateQuestionDistribution *)
(* ===================================================================== *)

Module Prompt.

Import Distribution.

Section Instruction.

(** The text a template literal gives a number: decimal digits for the
    integers of the code, [NaN], [Infinity]. *)
Variable numberToString : jsnum -> jsstring.

(** The callback of [distribution.forEach] *)
Definition instructionLine (item : entry) : jsstring :=
  js "- Genera EXACTAMENTE " ++ numberToString (count item)
  ++ js " preguntas/items del documento " ++ [34%N] ++ docName item
  ++ [34%N] ++ js "." ++ [LF].

Definition calculateQuestionDistribution (text : jsstring)
    (totalQuestions : Z) : jsstring :=
  let distribution := getQuestionCountsPerDocument text totalQuestions in
  if (length distribution =? 0)%nat then []
  else
    fold_left (fun distributionPrompt item =>
                 distributionPrompt ++ instructionLine item)
      distribution
      (js "INSTRUCCIÓN DE DISTRIBUCIÓN OBLIGATORIA:" ++ [LF]).

End Instruction.

(** Decimal digits of an integer, with its sign. *)
Definition decimalZ (z : Z) : jsstring :=
  match z with
  | Z0 => js "0"
  | Zpos _ => decimal (Z.to_nat z)
  | Zneg _ => js "-" ++ decimal (Z.to_nat (- z))
  end.

Definition Number_toString (x : jsnum) : jsstring :=
  match x with
  | Num z => decimalZ z
  | NaN => js "NaN"
  | Infinity negative => if negative then js "-Infinity" else js "Infinity"
  end.

End Prompt.

(* ===================================================================== *)
(** ** components/ExamTestMode.tsx: the session *)
(* ===================================================================== *)

Module TestSession.

Import ExamTestMode.

(** [useState] initial values *)
Definition initial : State :=
  {| currentIndex := 0;
     selectedOptions := [];
     isAnswered := false;
     score := 0;
     results := {| correct := 0; wrong := 0 |};
     summary := [] |}.

(** [currentIndex >= questions.length] *)
Definition isFinished (questions : list TestQuestion.t) (st : State) : bool :=
  (length questions <=? currentIndex st)%nat.

(** [selectedOptions.includes(idx)] *)
Definition includes (selectedOptions : list Z) (idx : Z) : bool :=
  existsb (Z.eqb idx) selectedOptions.

Definition withSelection (st : State) (selectedOptions : list Z) : State :=
  {| currentIndex := currentIndex st;
     selectedOptions := selectedOptions;
     isAnswered := isAnswered st;
     score := score st;
     results := results st;
     summary := summary st |}.

Definition handleOptionSelect (settings : ExamSettings) (idx : Z)
    (st : State) : State :=
  if isAnswered st then st
  else if truthy (allowMultipleCorrect settings) then
    if includes (selectedOptions st) idx
    then withSelection st
           (filter (fun i => negb (i =? idx)%Z) (selectedOptions st))
    else withSelection st (selectedOptions st ++ [idx])
  else withSelection st [idx].

Definition handleNext (st : State) : State :=
  {| currentIndex := S (currentIndex st);
     selectedOptions := [];
     isAnswered := false;
     score := score st;
     results := results st;
     summary := summary st |}.

(** [handleTimeout]; [None] is the TypeError of reading a question past the
    end. *)
Definition handleTimeout (questions : list TestQuestion.t) (st : State)
  : option State :=
  currentQuestion ← questions !! currentIndex st;
  let newItem :=
    {| question := TestQuestion.question currentQuestion;
       userSelected := [Some (js "Tiempo agotado")];
       correctSelected :=
         map (at_index (TestQuestion.options currentQuestion))
             (TestQuestion.correctIndices currentQuestion);
       isCorrect := false;
       explanation := TestQuestion.explanation currentQuestion |} in
  let last := (length questions - 1 <=? currentIndex st)%nat in
  Some {|
    currentIndex := S (currentIndex st);
    selectedOptions := if last then selectedOptions st else [];
    isAnswered := if last then isAnswered st else false;
    score := score st;
    results := {| correct := correct (results st);
                  wrong := S (wrong (results st)) |};
    summary := summary st ++ [newItem] |}.

(** What the user and the timer can do. *)
Inductive Event :=
  | Select (idx : nat)
  | Submit
  | Next
  | Timeout.

(** [settings.timeLimit] as a condition: a number other than 0 *)
Definition hasTimeLimit (settings : ExamSettings) : bool :=
  match timeLimit settings with
  | Some z => negb (z =? 0)%Z
  | None => false
  end.

(** One event on the question screen. The screen is rendered while the
    session is not finished; an option of the current question can be
    clicked; the submit button is shown while the question is unanswered
    and disabled while nothing is selected; the next button is shown once
    it is answered; the timer runs with a time limit while the question is
    unanswered. An event the screen does not offer is [None]. *)
Definition step (questions : list TestQuestion.t) (settings : ExamSettings)
    (st : State) (ev : Event) : option State :=
  currentQuestion ← questions !! currentIndex st;
  match ev with
  | Select idx =>
      if (idx <? length (TestQuestion.options currentQuestion))%nat
      then Some (handleOptionSelect settings (Z.of_nat idx) st)
      else None
  | Submit =>
      if negb (isAnswered st)
         && negb (bool_decide (selectedOptions st = []))
      then handleSubmit questions settings st
      else None
  | Next => if isAnswered st then Some (handleNext st) else None
  | Timeout =>
      if hasTimeLimit settings && negb (isAnswered st)
      then handleTimeout questions st
      else None
  end.

Fixpoint run (questions : list TestQuestion.t) (settings : ExamSettings)
    (st : State) (events : list Event) : option State :=
  match events with
  | [] => Some st
  | ev :: events' =>
      st' ← step questions settings st ev;
      run questions settings st' events'
  end.

End TestSession.

(* ===================================================================== *)
(** ** components/ExamOpenMode.tsx: the session *)
(* ===================================================================== *)

Module OpenSession.

Import ExamOpenMode.

Definition initial : State :=
  {| currentIndex := 0;
     userAnswer := [];
     evaluation := None;
     showModelAnswer := false;
     isEvaluating := false;
     totalScore := 0;
     summary := [] |}.

(** [handleNextStep] *)
Definition handleNextStep (questions : list OpenQuestion.t) (st : State)
  : State :=
  if (S (currentIndex st) <? length questions)%nat then
    {| currentIndex := S (currentIndex st);
       userAnswer := [];
       evaluation := None;
       showModelAnswer := false;
       isEvaluating := isEvaluating st;
       totalScore := totalScore st;
       summary := summary st |}
  else
    {| currentIndex := S (currentIndex st);
       userAnswer := userAnswer st;
       evaluation := evaluation st;
       showModelAnswer := showModelAnswer st;
       isEvaluating := isEvaluating st;
       totalScore := totalScore st;
       summary := summary st |}.

Definition handleNext := handleNextStep.

(** [handleTimeout]; [None] is the TypeError of reading a question past the
    end. *)
Definition handleTimeout (questions : list OpenQuestion.t) (st : State)
  : option State :=
  currentQuestion ← questions !! currentIndex st;
  Some (handleNextStep questions
    {| currentIndex := currentIndex st;
       userAnswer := userAnswer st;
       evaluation := evaluation st;
       showModelAnswer := showModelAnswer st;
       isEvaluating := isEvaluating st;
       totalScore := totalScore st;
       summary := summary st ++ [{|
         q := OpenQuestion.question currentQuestion;
         a := js "(Tiempo agotado)";
         m := OpenQuestion.modelAnswer currentQuestion;
         score := 0 |}] |}).

(** [Math.round((totalScore / questions.length) * 10)] of the finished
    screen, in exact arithmetic. *)
Definition grade (questions : list OpenQuestion.t) (totalScore : Z) : jsnum :=
  Math_round_real
    (js_times10 (js_div (Fin (inject_Z totalScore)) (length questions))).

Inductive Event :=
  | Type_ (text : jsstring)
  | Check
  | Next
  | Timeout.

Definition hasTimeLimit (settings : option ExamSettings) : bool :=
  match settings with
  | Some settings =>
      match timeLimit settings with
      | Some z => negb (z =? 0)%Z
      | None => false
      end
  | None => false
  end.

(** [!evaluation && !showModelAnswer] *)
Definition unanswered (st : State) : bool :=
  match evaluation st with
  | None => negb (showModelAnswer st)
  | Some _ => false
  end.

Definition setUserAnswer (text : jsstring) (st : State) : State :=
  {| currentIndex := currentIndex st;
     userAnswer := text;
     evaluation := evaluation st;
     showModelAnswer := showModelAnswer st;
     isEvaluating := isEvaluating st;
     totalScore := totalScore st;
     summary := summary st |}.

(** One event on the question screen: the text area and the check button
    are usable while the question is unanswered and no evaluation is under
    way, the next button is shown once it is answered, and the timer runs
    with a time limit while it is unanswered. *)
Definition step (questions : list OpenQuestion.t)
    (settings : option ExamSettings)
    (evaluator : Evaluation.Request -> option Evaluation.Result)
    (st : State) (ev : Event) : option State :=
  if (length questions <=? currentIndex st)%nat then None
  else
    match ev with
    | Type_ text =>
        if unanswered st && negb (isEvaluating st)
        then Some (setUserAnswer text st) else None
    | Check =>
        if unanswered st && negb (isEvaluating st)
        then fst <$> handleCheck questions settings evaluator st
        else None
    | Next =>
        if unanswered st then None else Some (handleNext questions st)
    | Timeout =>
        if hasTimeLimit settings && unanswered st && negb (isEvaluating st)
        then handleTimeout questions st
        else None
    end.

Fixpoint run (questions : list OpenQuestion.t)
    (settings : option ExamSettings)
    (evaluator : Evaluation.Request -> option Evaluation.Result)
    (st : State) (events : list Event) : option State :=
  match events with
  | [] => Some st
  | ev :: events' =>
      st' ← step questions settings evaluator st ev;
      run questions settings evaluator st' events'
  end.

End OpenSession.

(* ===================================================================== *)
(** ** FileUpload and the PDF preview *)
(* ===================================================================== *)

Module FileUpload.

Section Files.

(** [file.type], which the browser gives each file. *)
Variable fileType : File -> jsstring.

(** The PDF reader's answer for a file: the texts of its pages, or [None]
    when it cannot read it. *)
Variable pageTexts : File -> option (list jsstring).

Definition isPDF (file : File) : bool :=
  jsstring_eqb (fileType file) (js "application/pdf").

(** [files.some(f => f.name === file.name)] *)
Definition hasName (files : list File) (file : File) : bool :=
  existsb (fun f => jsstring_eqb (file_name f) (file_name file)) files.

(** [handleNewFiles]: the new list of files and the names alerted as not
    being PDFs. *)
Definition handleNewFiles (files : list File) (newFiles : option (list File))
  : list File * list jsstring :=
  match newFiles with
  | None => (files, [])
  | Some newFiles =>
      let validFiles :=
        filter (fun file => isPDF file && negb (hasName files file)) newFiles in
      let alerts :=
        map file_name (filter (fun file => negb (isPDF file)) newFiles) in
      (files ++ validFiles, alerts)
  end.

(** [prev.filter((_, i) => i !== index)] *)
Fixpoint removeFile (index : nat) (prev : list File) : list File :=
  match prev, index with
  | [], _ => []
  | _ :: rest, O => rest
  | f :: rest, S i => f :: removeFile i rest
  end.

(** [extractTextFromPDFs(files)]; [None] when a file cannot be read. *)
Fixpoint readFiles (files : list File)
  : option (list (jsstring * list jsstring)) :=
  match files with
  | [] => Some []
  | file :: rest =>
      texts ← pageTexts file;
      others ← readFiles rest;
      Some ((file_name file, texts) :: others)
  end.

Inductive Outcome :=
  | Nothing
  | AlertNoText
  | AlertError
  | TextExtracted (text : jsstring) (files : list File).

Definition processFiles (files : list File) : Outcome :=
  match files with
  | [] => Nothing
  | _ :: _ =>
      match readFiles files with
      | None => AlertError
      | Some read =>
          let text := Distribution.extractTextFromPDFs read in
          if (length (trim text) =? 0)%nat then AlertNoText
          else TextExtracted text files
      end
  end.

End Files.

End FileUpload.

Module PDFPreview.

(** The page cells of PDFPreviewPanel and PDFPreviewModal. *)
Record State := { currentPage : Z; totalPages : Z }.

Definition handlePrevPage (st : State) : State :=
  if (1 <? currentPage st)%Z
  then {| currentPage := (currentPage st - 1)%Z; totalPages := totalPages st |}
  else st.

Definition handleNextPage (st : State) : State :=
  if (currentPage st <? totalPages st)%Z
  then {| currentPage := (currentPage st + 1)%Z; totalPages := totalPages st |}
  else st.

Inductive Event := Prev | NextPage.

Definition step (st : State) (ev : Event) : State :=
  match ev with
  | Prev => handlePrevPage st
  | NextPage => handleNextPage st
  end.

End PDFPreview.

(* ===================================================================== *)
(** ** App.tsx: handleTextExtracted *)
(* ===================================================================== *)

Module Upload.

(** [map.set(key, v)]: a present key keeps its place. *)
Fixpoint Map_set {V : Type} (m : Map V) (key : jsstring) (v : V) : Map V :=
  match m with
  | [] => [(key, v)]
  | (k, v') :: m' =>
      if jsstring_eqb k key then (k, v) :: m' else (k, v') :: Map_set m' key v
  end.

(** [data.files.forEach(file => filesMap.set(file.name, file))] *)
Definition filesMap (files : list File) : Map File :=
  fold_left (fun m file => Map_set m (file_name file) file) files [].

(** [setState(prev => ({ ...prev, pdfText: data.text,
     uploadedFiles: filesMap, step: 'SETTINGS' }))] *)
Definition handleTextExtracted (text : jsstring) (files : list File)
    (app : App.t) : App.t :=
  let prev := App.state app in
  {| App.state :=
       {| step := SETTINGS;
          pdfText := text;
          settings := settings prev;
          testQuestions := testQuestions prev;
          clozeCards := clozeCards prev;
          openQuestions := openQuestions prev;
          generatedImages := generatedImages prev;
          uploadedFiles := Some (filesMap files) |};
     App.loadingMessage := App.loadingMessage app;
     App.isDarkMode := App.isDarkMode app;
     App.isFullScreen := App.isFullScreen app;
     App.zoomLevel := App.zoomLevel app;
     App.backgroundImage := App.backgroundImage app |}.

End Upload.

(* ===================================================================== *)
(** ** What the parser asks of a corpus *)
(* ===================================================================== *)

Module Corpus.

Import Regex.

(** A page text the parser can tell from the end marker: one line that
    does not begin with the marker. *)
Definition plainPage (pageText : list N) : Prop :=
  Forall (fun c => c <> LF) pageText
  /\ literal (js "--- Fin del documento ---") pageText = None.

(** A file name the header line can carry: no line terminator. *)
Definition plainName (fileName : list N) : Prop :=
  Forall (fun c => dot c = true) fileName.

(** No end marker starts inside [x] when [z] follows it. *)
Definition Safe (x z : list N) : Prop :=
  forall b r, x = b ++ r -> r <> [] ->
    literal (LF :: js "--- Fin del documento ---") (r ++ z) = None.

End Corpus.

(* ===================================================================== *)
(** ** What the sessions keep true *)
(* ===================================================================== *)

Module Invariants.

(** The test session: one summary row per question passed or answered, the
    two counters split the rows, the score lies between the counters, no
    row shows an option that does not exist, and the selection holds
    distinct options of the current question. *)
Definition TestSession_ok (questions : list TestQuestion.t)
    (st : ExamTestMode.State) : Prop :=
  let rows := ExamTestMode.summary st in
  let r := ExamTestMode.results st in
  length rows
  = (ExamTestMode.currentIndex st
     + (if ExamTestMode.isAnswered st then 1 else 0))%nat
  /\ (length rows <= length questions)%nat
  /\ (ExamTestMode.correct r + ExamTestMode.wrong r)%nat = length rows
  /\ length (filter (fun row => ExamTestMode.isCorrect row = true) rows)
     = ExamTestMode.correct r
  /\ (- (inject_Z (Z.of_nat (ExamTestMode.wrong r)) * (1 # 2))
      <= ExamTestMode.score st)%Q
  /\ (ExamTestMode.score st
      <= inject_Z (Z.of_nat (ExamTestMode.correct r)))%Q
  /\ Forall (fun row =>
               Forall (fun o => o <> None) (ExamTestMode.userSelected row))
       rows
  /\ NoDup (ExamTestMode.selectedOptions st)
  /\ (forall currentQuestion,
        questions !! ExamTestMode.currentIndex st = Some currentQuestion ->
        Forall (fun i =>
                  (0 <= i < Z.of_nat
                             (length (TestQuestion.options currentQuestion)))%Z)
          (ExamTestMode.selectedOptions st)).

(** The open session: the total score counts the rows marked 1, and a
    question adds at most one row. *)
Definition OpenSession_ok (questions : list OpenQuestion.t)
    (st : ExamOpenMode.State) : Prop :=
  let rows := ExamOpenMode.summary st in
  ExamOpenMode.totalScore st
  = Z.of_nat (length (filter (fun row => ExamOpenMode.score row = 1%Z) rows))
  /\ (length rows
      <= ExamOpenMode.currentIndex st
         + (if OpenSession.unanswered st then 0 else 1))%nat
  /\ (length rows <= length questions)%nat.

End Invariants.

(* ===================================================================== *)
(** ** Occurrences of a hidden term *)
(* ===================================================================== *)

Module Occurrence.

Import ExamClozeMode.

Section Occurs.
Context `{Engine}.





End Occurs.

End Occurrence.

(* ===================================================================== *)
(** ** Example inputs *)
(* ===================================================================== *)

Module Examples.

Import Distribution.

Definition pdf (fileName : string) (pageCount : nat)
  : jsstring * list jsstring :=
  (js fileName, repeat (js "texto de la página") pageCount).

(** Two files, of 100 and of 50 pages. *)
Definition corpus_100_50 : jsstring :=
  extractTextFromPDFs [pdf "doc1.pdf" 100; pdf "doc2.pdf" 50].

(** Three files, of 100, 1 and 1 pages. *)
Definition corpus_100_1_1 : jsstring :=
  extractTextFromPDFs [pdf "a.pdf" 100; pdf "b.pdf" 1; pdf "c.pdf" 1].

(** Three files, of 1, 10 and 100 pages. *)
Definition corpus_1_10_100 : jsstring :=
  extractTextFromPDFs [pdf "a.pdf" 1; pdf "b.pdf" 10; pdf "c.pdf" 100].

(** Four files of one page each. *)
Definition corpus_1_1_1_1 : jsstring :=
  extractTextFromPDFs
    [pdf "a.pdf" 1; pdf "b.pdf" 1; pdf "c.pdf" 1; pdf "d.pdf" 1].

(** One file. *)
Definition corpus_single : jsstring :=
  extractTextFromPDFs [pdf "solo.pdf" 3].

(** A corpus of the format without page counts, two documents. *)
Definition corpus_legacy : jsstring :=
  js "--- Inicio del documento: viejo1.pdf ---" ++ [LF]
  ++ js "abcdef" ++ [LF] ++ js "--- Fin del documento ---" ++ [LF; LF]
  ++ js "--- Inicio del documento: viejo2.pdf ---" ++ [LF]
  ++ js "abc" ++ [LF] ++ js "--- Fin del documento ---" ++ [LF; LF].

Definition card (fullText : string) (hiddenWords : list string)
  : option ClozeCard.t :=
  Some {| ClozeCard.fullText := js fullText;
          ClozeCard.hiddenWords := map js hiddenWords;
          ClozeCard.imagePrompt := [];
          ClozeCard.sourceFile := None |}.

Definition visible (s : string) : ExamClozeMode.Part :=
  {| ExamClozeMode.text := js s;
     ExamClozeMode.hidden := false;
     ExamClozeMode.word := None |}.

Definition masked (s : string) : ExamClozeMode.Part :=
  {| ExamClozeMode.text := js s;
     ExamClozeMode.hidden := true;
     ExamClozeMode.word := Some (js s) |}.

Definition testQuestion (correctIndices : list Z) : TestQuestion.t :=
  {| TestQuestion.question := js "¿Cuál es correcta?";
     TestQuestion.options := [js "A"; js "B"; js "C"; js "D"];
     TestQuestion.correctIndices := correctIndices;
     TestQuestion.explanation := js "Porque sí.";
     TestQuestion.sourceQuote := js "cita";
     TestQuestion.sourceFile := None |}.

Definition testSettings (negativeMarking : option bool) : ExamSettings :=
  {| type := TEST; questionCount := 1; difficulty := MEDIUM;
     optionsCount := Some 4%Z; allowMultipleCorrect := Some true;
     negativeMarking := negativeMarking; maxClozeBlanks := None;
     autoRead := None; timeLimit := Some 0%Z; showSummary := Some true;
     showSourceFile := Some false; benevolence := Some NORMAL;
     voiceURI := None |}.

Definition selecting (selectedOptions : list Z) : ExamTestMode.State :=
  {| ExamTestMode.currentIndex := 0;
     ExamTestMode.selectedOptions := selectedOptions;
     ExamTestMode.isAnswered := false;
     ExamTestMode.score := 0;
     ExamTestMode.results :=
       {| ExamTestMode.correct := 0; ExamTestMode.wrong := 0 |};
     ExamTestMode.summary := [] |}.

(** Scores of [halves] half points, from -maxScore/2 to maxScore. *)
Definition reachableHalves (maxScore : nat) : list Z :=
  map (fun k => (Z.of_nat k - Z.of_nat maxScore)%Z) (seq 0 (3 * maxScore + 1)).

Definition openSettings (benevolence : Benevolence) : ExamSettings :=
  {| type := OPEN_FLASHCARD; questionCount := 1; difficulty := MEDIUM;
     optionsCount := None; allowMultipleCorrect := None;
     negativeMarking := None; maxClozeBlanks := None;
     autoRead := None; timeLimit := Some 0%Z; showSummary := Some true;
     showSourceFile := Some true; benevolence := Some benevolence;
     voiceURI := None |}.

Definition openQuestion : OpenQuestion.t :=
  {| OpenQuestion.question := js "¿Qué es el Sol?";
     OpenQuestion.modelAnswer := js "Una estrella.";
     OpenQuestion.sourceFile := Some (js "tema1 (Pág. 3)") |}.

Definition answering (userAnswer : string) : ExamOpenMode.State :=
  {| ExamOpenMode.currentIndex := 0;
     ExamOpenMode.userAnswer := js userAnswer;
     ExamOpenMode.evaluation := None;
     ExamOpenMode.showModelAnswer := false;
     ExamOpenMode.isEvaluating := false;
     ExamOpenMode.totalScore := 0;
     ExamOpenMode.summary := [] |}.

Definition tema1 : File :=
  {| file_name := js "tema1.pdf"; file_bytes := [37; 80; 68; 70]%N |}.

Definition uploaded : option (Map File) := Some [(js "tema1.pdf", tema1)].

(** A corpus of the format without page counts whose two documents have
    no text. *)
Definition corpus_legacy_empty : jsstring :=
  js "--- Inicio del documento: x.pdf ---" ++ [LF]
  ++ [LF] ++ js "--- Fin del documento ---" ++ [LF; LF]
  ++ js "--- Inicio del documento: y.pdf ---" ++ [LF]
  ++ [LF] ++ js "--- Fin del documento ---" ++ [LF; LF].

(** Two files given by name and page texts; the first name looks like part
    of a start marker, the second file's page begins like the end marker. *)
Definition pageTexts : list (jsstring * list jsstring) :=
  [(js "Tema 1 | Páginas: 7 ---.pdf", [js "uno"; []]);
   (js "b.pdf", [js "--- Fin"])].

(** A session of two questions with a time limit and negative marking:
    the first is answered wrongly after a change of mind, the second runs
    out of time. *)
Definition twoQuestions : list TestQuestion.t :=
  [testQuestion [0; 2]%Z; testQuestion [1]%Z].

Definition timedSettings : ExamSettings :=
  {| type := TEST; questionCount := 2; difficulty := MEDIUM;
     optionsCount := Some 4%Z; allowMultipleCorrect := Some true;
     negativeMarking := Some true; maxClozeBlanks := None;
     autoRead := None; timeLimit := Some 30%Z; showSummary := Some true;
     showSourceFile := Some false; benevolence := Some NORMAL;
     voiceURI := None |}.

Definition clicks : list TestSession.Event :=
  [TestSession.Select 0; TestSession.Select 1; TestSession.Select 0;
   TestSession.Submit; TestSession.Next; TestSession.Timeout].

(** An open-answer session of two questions with a time limit: the first
    is answered and marked right, the second runs out of time. *)
Definition twoOpenQuestions : list OpenQuestion.t :=
  [openQuestion; openQuestion].

Definition openTimed : ExamSettings :=
  {| type := OPEN_FLASHCARD; questionCount := 2; difficulty := MEDIUM;
     optionsCount := None; allowMultipleCorrect := None;
     negativeMarking := None; maxClozeBlanks := None;
     autoRead := None; timeLimit := Some 60%Z; showSummary := Some true;
     showSourceFile := Some true; benevolence := Some STRICT;
     voiceURI := None |}.

Definition accepting (request : Evaluation.Request)
  : option Evaluation.Result :=
  Some {| Evaluation.score := 1; Evaluation.feedback := js "Correcto." |}.

Definition failing (request : Evaluation.Request)
  : option Evaluation.Result := None.

Definition openEvents : list OpenSession.Event :=
  [OpenSession.Type_ (js "Una estrella"); OpenSession.Check;
   OpenSession.Next; OpenSession.Timeout].

Definition tema2 : File :=
  {| file_name := js "tema2.pdf"; file_bytes := [37; 80; 68; 70]%N |}.

(** The application as it starts. *)
Definition freshApp : App.t :=
  {| App.state :=
       {| step := UPLOAD;
          pdfText := [];
          settings :=
            {| type := TEST; questionCount := 5; difficulty := MEDIUM;
               optionsCount := None; allowMultipleCorrect := None;
               negativeMarking := None; maxClozeBlanks := None;
               autoRead := None; timeLimit := None; showSummary := None;
               showSourceFile := None; benevolence := None;
               voiceURI := None |};
          testQuestions := [];
          clozeCards := [];
          openQuestions := [];
          generatedImages := ∅;
          uploadedFiles := None |};
     App.loadingMessage := [];
     App.isDarkMode := false;
     App.isFullScreen := false;
     App.zoomLevel := 1;
     App.backgroundImage := None |}.

(** The two small sigmas: both have the capital sigma as upper case, which
    is what the pattern compares, and each is its own lower case. *)
Definition sigma_engine : Engine :=
  {| toLowerCase :=
       map (fun c => if (c =? 931)%N then 963%N else ascii_lower c);
     Canonicalize :=
       fun c => if (c =? 962)%N || (c =? 963)%N then 931%N else ascii_upper c;
     createObjectURL := fun f => js "blob:" ++ file_name f |}.

End Examples.

(* ===================================================================== *)
(** * Properties *)
(* ===================================================================== *)

(** ** Integers in binary64 *)

Section BinaryFacts.

Lemma digits2_pos_bounds m :
  (2 ^ (Z.pos (digits2_pos m) - 1) <= Z.pos m < 2 ^ Z.pos (digits2_pos m))%Z.
Proof.
  induction m as [m IH|m IH|]; cbn [digits2_pos].
  - rewrite Pos2Z.inj_succ.
    replace (Z.succ (Z.pos (digits2_pos m)) - 1)%Z
      with (Z.succ (Z.pos (digits2_pos m) - 1)) by lia.
    rewrite !Z.pow_succ_r by lia. lia.
  - rewrite Pos2Z.inj_succ.
    replace (Z.succ (Z.pos (digits2_pos m)) - 1)%Z
      with (Z.succ (Z.pos (digits2_pos m) - 1)) by lia.
    rewrite !Z.pow_succ_r by lia. lia.
  - cbn. lia.
Qed.

Lemma digits2_pos_iter m k :
  digits2_pos (Pos.iter xO m k) = (digits2_pos m + k)%positive.
Proof.
  induction k as [|k IH] using Pos.peano_ind.
  - cbn. lia.
  - rewrite Pos.iter_succ. cbn [digits2_pos]. rewrite IH. lia.
Qed.

Lemma iter_xO_value m k :
  Z.pos (Pos.iter xO m k) = (Z.pos m * 2 ^ Z.pos k)%Z.
Proof.
  change (Pos.iter xO m k) with (shift_pos k m).
  rewrite shift_pos_correct, Z.pow_pos_fold. lia.
Qed.

(** The binary64 value of an integer below 2^53 is the integer itself,
    its mantissa shifted to 53 digits. *)
Lemma binary_round_small sx m :
  (Z.pos m < 2 ^ 53)%Z ->
  exists m' e',
    binary_round prec emax sx m 0 = S754_finite sx m' e'
    /\ valid_binary (S754_finite sx m' e') = true
    /\ (- 52 <= e' <= 0)%Z
    /\ (Z.pos m' = Z.pos m * 2 ^ (- e'))%Z.
Proof.
  intros Hm. pose proof (digits2_pos_bounds m) as [Hlo Hhi].
  assert (Hd : (Z.pos (digits2_pos m) <= 53)%Z).
  { destruct (Z.le_gt_cases (Z.pos (digits2_pos m)) 53) as [|Hgt]; [done|].
    exfalso. assert (2 ^ 53 <= 2 ^ (Z.pos (digits2_pos m) - 1))%Z
      by (apply Z.pow_le_mono_r; lia). lia. }
  unfold binary_round.
  assert (Hfexp : fexp prec emax (Z.pos (digits2_pos m) + 0)
                  = (Z.pos (digits2_pos m) - 53)%Z).
  { unfold fexp, SpecFloat.emin, prec, emax. lia. }
  rewrite Hfexp. unfold shl_align.
  destruct (Z.pos (digits2_pos m) - 53 - 0)%Z as [|k|k] eqn:Hk; [|lia|].
  - exists m, 0%Z.
    assert (Hstep : shr_fexp prec emax (Z.pos m) 0 loc_Exact
                    = ({| shr_m := Z.pos m; shr_r := false; shr_s := false |},
                       0%Z)).
    { unfold shr_fexp. cbn [Zdigits2 shr_record_of_loc].
      replace (fexp prec emax (Z.pos (digits2_pos m) + 0) - 0)%Z with 0%Z
        by (rewrite Hfexp; lia).
      reflexivity. }
    split; [|split; [|split]].
    + unfold binary_round_aux. rewrite Hstep.
      cbn [shr_m loc_of_shr_record round_nearest_even]. rewrite Hstep.
      cbn [shr_m]. reflexivity.
    + unfold SpecFloat.valid_binary, bounded, canonical_mantissa.
      rewrite Hfexp. apply andb_true_iff. split; [apply Z.eqb_eq; lia|].
      reflexivity.
    + lia.
    + cbn. lia.
  - exists (Pos.iter xO m k), (Z.pos (digits2_pos m) - 53)%Z.
    assert (Hdig : (Z.pos (digits2_pos (Pos.iter xO m k)) = 53)%Z).
    { rewrite digits2_pos_iter, Pos2Z.inj_add. lia. }
    assert (Hfexp' : fexp prec emax (Z.pos (digits2_pos (Pos.iter xO m k))
                                     + (Z.pos (digits2_pos m) - 53))
                     = (Z.pos (digits2_pos m) - 53)%Z).
    { rewrite Hdig. unfold fexp, SpecFloat.emin, prec, emax. lia. }
    assert (Hstep : shr_fexp prec emax (Z.pos (Pos.iter xO m k))
                      (Z.pos (digits2_pos m) - 53) loc_Exact
                    = ({| shr_m := Z.pos (Pos.iter xO m k);
                          shr_r := false; shr_s := false |},
                       (Z.pos (digits2_pos m) - 53)%Z)).
    { unfold shr_fexp. cbn [Zdigits2 shr_record_of_loc].
      rewrite Hfexp', Z.sub_diag. reflexivity. }
    split; [|split; [|split]].
    + unfold binary_round_aux. rewrite Hstep.
      cbn [shr_m loc_of_shr_record round_nearest_even]. rewrite Hstep.
      cbn [shr_m].
      replace (Z.pos (digits2_pos m) - 53 <=? emax - prec)%Z with true;
        [done|].
      symmetry. apply Z.leb_le. unfold emax, prec. lia.
    + unfold SpecFloat.valid_binary, bounded, canonical_mantissa.
      rewrite Hfexp'. apply andb_true_iff. split; [apply Z.eqb_eq; lia|].
      apply Z.leb_le. unfold emax, prec. lia.
    + lia.
    + rewrite iter_xO_value. f_equal. f_equal. lia.
Qed.

Lemma Math_round_integer sx m' e' z :
  valid_binary (S754_finite sx m' e') = true ->
  (- 52 <= e' <= 0)%Z ->
  (Z.pos m' = z * 2 ^ (- e'))%Z ->
  Math_round (SF2Prim (S754_finite sx m' e'))
  = Num (if sx then - z else z).
Proof.
  intros Hvalid He Hm. unfold Math_round. rewrite Prim2SF_SF2Prim by done.
  destruct (Z.leb_spec 0 e') as [H0|Hneg].
  - assert (e' = 0%Z) as -> by lia. cbn in Hm. f_equal.
    destruct sx; lia.
  - f_equal.
    assert (Hpow : (0 < 2 ^ (- e'))%Z) by (apply Z.pow_pos_nonneg; lia).
    replace (1 - e')%Z with (Z.succ (- e')) by lia.
    rewrite Z.pow_succ_r by lia.
    destruct sx.
    + change (Z.neg m') with (- Z.pos m')%Z. rewrite Hm.
      replace (2 * - (z * 2 ^ (- e')) + 2 ^ (- e'))%Z
        with ((2 * (- z) + 1) * 2 ^ (- e'))%Z by lia.
      rewrite Z.div_mul_cancel_r by lia.
      symmetry. apply Z.div_unique with (r := 1%Z); lia.
    + rewrite Hm.
      replace (2 * (z * 2 ^ (- e')) + 2 ^ (- e'))%Z
        with ((2 * z + 1) * 2 ^ (- e'))%Z by lia.
      rewrite Z.div_mul_cancel_r by lia.
      symmetry. apply Z.div_unique with (r := 1%Z); lia.
Qed.

(** Binary64 holds every integer up to 2^53 in absolute value exactly. *)
Lemma js_int_safe z : (Z.abs z <= 2 ^ 53)%Z -> js_int z = Num z.
Proof.
  intros Hz. unfold js_int, Z2F.
  destruct (Z.eq_dec (Z.abs z) (2 ^ 53)%Z) as [Heq|Hne].
  - destruct (Z.abs_spec z) as [[_ Habs]|[_ Habs]]; rewrite Habs in Heq.
    + subst z. vm_compute. reflexivity.
    + assert (z = (- 2 ^ 53)%Z) as -> by lia. vm_compute. reflexivity.
  - destruct z as [|m|m]; cbn [binary_normalize].
    + vm_compute. reflexivity.
    + destruct (binary_round_small false m) as (m' & e' & -> & Hv & He & Hm);
        [lia|].
      by rewrite (Math_round_integer false m' e' (Z.pos m)).
    + destruct (binary_round_small true m) as (m' & e' & -> & Hv & He & Hm);
        [lia|].
      by rewrite (Math_round_integer true m' e' (Z.pos m)).
Qed.

Lemma js_add_safe x y :
  (Z.abs (x + y) <= 2 ^ 53)%Z -> js_add (Num x) (Num y) = Num (x + y).
Proof. apply js_int_safe. Qed.

Lemma js_sub_safe x y :
  (Z.abs (x - y) <= 2 ^ 53)%Z -> js_sub (Num x) (Num y) = Num (x - y).
Proof. intros H. unfold js_sub, js_neg. by apply js_add_safe. Qed.

(** A running sum of counts that stays within 2^53 is the exact sum. *)
Lemma fold_left_js_add_exact zs : forall d,
  (0 <= d)%Z -> Forall (fun z => (0 <= z)%Z) zs ->
  (d + foldr Z.add 0%Z zs <= 2 ^ 53)%Z ->
  fold_left js_add (map Num zs) (Num d) = Num (d + foldr Z.add 0%Z zs).
Proof.
  induction zs as [|z zs IH]; intros d Hd Hzs Hsum; cbn [map fold_left foldr].
  - f_equal. lia.
  - inversion Hzs as [|? ? Hz Hzs']; subst. cbn [foldr] in Hsum.
    assert (Hrest : (0 <= foldr Z.add 0%Z zs)%Z).
    { clear -Hzs'. induction Hzs'; cbn [foldr]; lia. }
    rewrite js_add_safe by lia. rewrite IH by (done || lia). f_equal. lia.
Qed.

(** Where binary64 rounds: the code's own arithmetic on doubles and the
    model's agree below and above 2^53. *)
Example js_add_as_binary64 :
  forallb (fun '(x, y) =>
             bool_decide (js_add (Num x) (Num y)
                          = Math_round (Z2F x + Z2F y)%float)
             && bool_decide (js_sub (Num x) (Num y)
                             = Math_round (Z2F x - Z2F y)%float))
    [(6, 3); (0, 0); (3, 4); (- 5, 5); (2 ^ 53, 1); (2 ^ 53, 2);
     (2 ^ 53 - 1, 1); (- 2 ^ 53, - 1); (10 ^ 16, 990990990990991);
     (90090090090090, 900900900900901); (2 ^ 60, 2 ^ 7); (2 ^ 60, 2 ^ 8);
     (2 ^ 1023, 2 ^ 1023); (10 ^ 22, - 1)]%Z
  = true.
Proof. vm_compute. reflexivity. Qed.

End BinaryFacts.

(** ** The distribution calculator *)

Section DistributionFacts.

Import Distribution.

Variables (len : nat) (totalWeight : float) (totalQuestions : Z).

Local Abbreviation loop := (forEach len totalWeight totalQuestions).
Local Abbreviation count_at := (count_of len totalWeight totalQuestions).

Lemma forEach_result index distributedCount result docs :
  loop index distributedCount result docs
  = result ++ loop index distributedCount [] docs.
Proof.
  revert index distributedCount result.
  induction docs as [|[nm w] docs IH]; intros index d result; simpl.
  - by rewrite app_nil_r.
  - rewrite IH. rewrite (IH _ _ [_]). by rewrite <- app_assoc.
Qed.

Lemma forEach_cons index d nm w docs :
  loop index d [] ((nm, w) :: docs)
  = {| docName := nm; count := count_at index d w |}
    :: loop (S index) (js_add d (count_at index d w)) [] docs.
Proof. simpl. by rewrite forEach_result. Qed.

Lemma forEach_length index d docs :
  length (loop index d [] docs) = length docs.
Proof.
  revert index d. induction docs as [|[nm w] docs IH]; intros index d.
  - done.
  - rewrite forEach_cons. simpl. by rewrite IH.
Qed.

(** A document that is not the last one gets its share, or 1 when the share
    is 0 and there are at least as many questions as documents. *)
Lemma forEach_lookup_inner docs index d j nm w :
  docs !! j = Some (nm, w) ->
  (index + j)%nat <> (len - 1)%nat ->
  loop index d [] docs !! j
  = Some {| docName := nm;
            count :=
              let c := share w totalWeight totalQuestions in
              if is_zero c && (Z.of_nat len <=? totalQuestions)%Z
              then Num 1 else c |}.
Proof.
  revert index d j. induction docs as [|[nm' w'] docs IH]; intros index d j Hj Hne.
  - done.
  - rewrite forEach_cons. destruct j as [|j]; simpl in *.
    + injection Hj as -> ->. unfold count_of.
      replace (index + 0)%nat with index in Hne by lia.
      apply Nat.eqb_neq in Hne. by rewrite Hne.
    + apply IH; [done | lia].
Qed.

(** The last document gets the total minus what the others got. *)
Lemma forEach_last front index d nm w :
  (index + length front)%nat = (len - 1)%nat ->
  exists rfront,
    length rfront = length front
    /\ loop index d [] (front ++ [(nm, w)])
       = rfront ++ [{| docName := nm;
                       count := js_sub (Num totalQuestions)
                                  (fold_left js_add (map count rfront) d) |}].
Proof.
  revert index d. induction front as [|[nm' w'] front IH]; intros index d Hlen.
  - exists []. split; [done|]. simpl app. rewrite forEach_cons.
    unfold count_of. simpl in *.
    replace (index + 0)%nat with index in Hlen by lia.
    apply Nat.eqb_eq in Hlen. by rewrite Hlen.
  - simpl app. rewrite forEach_cons.
    destruct (IH (S index) (js_add d (count_at index d w'))) as (rfront & Hl & ->).
    { simpl in Hlen. lia. }
    exists ({| docName := nm'; count := count_at index d w' |} :: rfront).
    split; [simpl; by rewrite Hl | reflexivity].
Qed.

End DistributionFacts.

Section DistributionTheorems.

Import Distribution.

Lemma total_weights {A} (f : A -> jsstring) (g : A -> float) (l : list A) :
  map snd (map (fun d => (f d, g d)) l) = map g l.
Proof. induction l; simpl; congruence. Qed.

(** The function, in terms of the documents the parser finds. *)
Lemma getQuestionCountsPerDocument_documents text totalQuestions :
  getQuestionCountsPerDocument text totalQuestions
  = let docs := documents text in
    if (length docs <=? 1)%nat then []
    else distribute docs (total (map snd docs)) totalQuestions.
Proof.
  unfold getQuestionCountsPerDocument, documents.
  destruct (length (scanDocs text) =? 0)%nat; cbv zeta;
    by rewrite total_weights, length_map.
Qed.

Lemma distribute_length docs totalWeight totalQuestions :
  length (distribute docs totalWeight totalQuestions) = length docs.
Proof. apply forEach_length. Qed.

(** One entry per document, in the order of the corpus. *)
Lemma distribution_length text totalQuestions :
  (2 <= length (documents text))%nat ->
  length (getQuestionCountsPerDocument text totalQuestions)
  = length (documents text).
Proof.
  intros Hlen. rewrite getQuestionCountsPerDocument_documents. cbv zeta.
  destruct (Nat.leb_spec (length (documents text)) 1); [lia|].
  apply distribute_length.
Qed.

(** X3: the counts add up to the total when the total and the sum of the
    counts before the last stay within the integers binary64 holds exactly
    (0 to 2^53), the counts before the last being non-negative integers:
    the last document takes the remainder. *)
Lemma distribution_sum text totalQuestions front last zs :
  getQuestionCountsPerDocument text totalQuestions = front ++ [last] ->
  map count front = map Num zs ->
  Forall (fun z => (0 <= z)%Z) zs ->
  (foldr Z.add 0%Z zs <= 2 ^ 53)%Z ->
  (0 <= totalQuestions <= 2 ^ 53)%Z ->
  js_sum (map count (getQuestionCountsPerDocument text totalQuestions))
  = Num totalQuestions.
Proof.
  intros Hres Hcounts Hzs Hsum Htotal. pose proof Hres as Hres'.
  rewrite getQuestionCountsPerDocument_documents in Hres'. cbv zeta in Hres'.
  destruct (length (documents text) <=? 1)%nat; [by destruct front|].
  destruct (documents text) as [|d0 ds] eqn:Hdocs using rev_ind;
    [by destruct front|].
  clear IHds. destruct d0 as [nm w].
  unfold distribute in Hres'.
  destruct (forEach_last (length (ds ++ [(nm, w)])) (total (map snd (ds ++ [(nm, w)])))
              totalQuestions ds 0 (Num 0) nm w) as (rfront & Hl & Heq).
  { rewrite length_app. simpl. lia. }
  rewrite Heq in Hres'. apply app_inj_tail in Hres' as [-> <-].
  assert (Hrest : (0 <= foldr Z.add 0%Z zs)%Z).
  { clear -Hzs. induction Hzs; cbn [foldr]; lia. }
  rewrite Hres. unfold js_sum. rewrite map_app, fold_left_app.
  cbn [map fold_left count]. rewrite Hcounts.
  rewrite fold_left_js_add_exact by (done || lia).
  rewrite js_sub_safe by lia. rewrite js_add_safe by lia. f_equal. lia.
Qed.

End DistributionTheorems.

Section DistributionClaims.

Import Distribution Examples.

Example scanDocs_corpus_100_50 :
  scanDocs corpus_100_50
  = [{| name := js "doc1.pdf"; pages := 100 |};
     {| name := js "doc2.pdf"; pages := 50 |}].
Proof. vm_compute. reflexivity. Qed.

Example documents_corpus_legacy :
  documents corpus_legacy
  = [(js "viejo1.pdf", 6%float); (js "viejo2.pdf", 3%float)].
Proof. vm_compute. reflexivity. Qed.

Example distribution_corpus_legacy :
  getQuestionCountsPerDocument corpus_legacy 10
  = [{| docName := js "viejo1.pdf"; count := Num 7 |};
     {| docName := js "viejo2.pdf"; count := Num 3 |}].
Proof. vm_compute. reflexivity. Qed.

(** C1, at the input where the code departs from it: on a corpus of three
    documents of 100, 1 and 1 pages and 3 questions the function returns one
    entry per document and counts that add up to 3, but the counts are
    3, 1 and -1: the first share rounds up to 3, the second is forced from
    0 to 1, and the last document is left with 3 - 4. *)
Theorem last_count_negative_at_100_1_1 :
  let result := getQuestionCountsPerDocument corpus_100_1_1 3 in
  (2 <= length (documents corpus_100_1_1))%nat
  /\ result = [{| docName := js "a.pdf"; count := Num 3 |};
               {| docName := js "b.pdf"; count := Num 1 |};
               {| docName := js "c.pdf"; count := Num (-1) |}]
  /\ length result = length (documents corpus_100_1_1)
  /\ js_sum (map count result) = Num 3
  /\ ~ Forall (fun e => js_geb (count e) 0 = true) result.
Proof.
  assert (Hres : getQuestionCountsPerDocument corpus_100_1_1 3
                 = [{| docName := js "a.pdf"; count := Num 3 |};
                    {| docName := js "b.pdf"; count := Num 1 |};
                    {| docName := js "c.pdf"; count := Num (-1) |}])
    by (vm_compute; reflexivity).
  cbv zeta. rewrite Hres. split; [|split; [|split; [|split]]].
  - vm_compute. lia.
  - reflexivity.
  - vm_compute. reflexivity.
  - vm_compute. reflexivity.
  - intros Hall. do 2 apply Forall_inv_tail in Hall.
    apply Forall_inv in Hall. discriminate Hall.
Qed.

(** Rounding alone does the same when there are fewer questions than
    documents: each share is 0.5 and rounds up to 1. *)
Example last_count_negative_at_1_1_1_1 :
  map count (getQuestionCountsPerDocument corpus_1_1_1_1 2)
  = [Num 1; Num 1; Num 1; Num (-1)].
Proof. vm_compute. reflexivity. Qed.

(** Why [distribution_sum] asks for integer counts: documents of total
    weight 0 divide 0 by 0. *)
Example zero_weight_gives_NaN :
  documents corpus_legacy_empty = [(js "x.pdf", 0%float); (js "y.pdf", 0%float)]
  /\ map count (getQuestionCountsPerDocument corpus_legacy_empty 5)
     = [NaN; NaN].
Proof. split; vm_compute; reflexivity. Qed.

(** C3: in a corpus of at least two documents and for totalItems a number
    of the code (an integer binary64 holds), a document before the last
    whose share [Math.round((weight / totalWeight) * totalItems)] is 0 gets
    the count 1 when totalItems >= the number of documents; the last
    document gets totalItems minus the counts given before it, as the code
    subtracts and adds on binary64 numbers, which is the exact difference
    while totalItems and the sum of the counts before stay within 0 and
    2^53; and two documents of 100 and 50 pages with totalItems = 9 get 6
    and 3. *)
Theorem forced_minimum_and_remainder text totalItems :
  (2 <= length (documents text))%nat ->
  js_int totalItems = Num totalItems ->
  let docs := documents text in
  let totalWeight := total (map snd docs) in
  let result := getQuestionCountsPerDocument text totalItems in
  (forall i nm w,
     (S i < length docs)%nat -> docs !! i = Some (nm, w) ->
     share w totalWeight totalItems = Num 0 ->
     (Z.of_nat (length docs) <= totalItems)%Z ->
     result !! i = Some {| docName := nm; count := Num 1 |})
  /\ (forall nm w,
        last docs = Some (nm, w) ->
        exists front,
          S (length front) = length docs
          /\ result
             = front ++ [{| docName := nm;
                            count := js_sub (Num totalItems)
                                       (js_sum (map count front)) |}]
          /\ (forall zs,
                map count front = map Num zs ->
                Forall (fun z => (0 <= z)%Z) zs ->
                (foldr Z.add 0%Z zs <= 2 ^ 53)%Z ->
                (0 <= totalItems <= 2 ^ 53)%Z ->
                js_sub (Num totalItems) (js_sum (map count front))
                = Num (totalItems - foldr Z.add 0%Z zs)))
  /\ (forall name1 name2,
        totalItems = 9%Z ->
        scanDocs text = [{| name := name1; pages := 100 |};
                         {| name := name2; pages := 50 |}] ->
        result = [{| docName := name1; count := Num 6 |};
                  {| docName := name2; count := Num 3 |}]).
Proof.
  intros Hlen Hnumber. cbv zeta.
  assert (Hres : getQuestionCountsPerDocument text totalItems
                 = distribute (documents text)
                     (total (map snd (documents text))) totalItems).
  { rewrite getQuestionCountsPerDocument_documents. cbv zeta.
    by destruct (Nat.leb_spec (length (documents text)) 1); [lia|]. }
  split; [|split].
  - intros i nm w Hi Hdoc Hshare Hmany. rewrite Hres. unfold distribute.
    rewrite (forEach_lookup_inner _ _ _ _ 0 (Num 0) i nm w Hdoc) by lia.
    rewrite Hshare. simpl. apply Z.leb_le in Hmany. by rewrite Hmany.
  - intros nm w Hlast. rewrite Hres. clear Hres.
    apply last_Some in Hlast as [front Hdocs]. rewrite Hdocs.
    destruct (forEach_last (length (front ++ [(nm, w)]))
                (total (map snd (front ++ [(nm, w)]))) totalItems front 0
                (Num 0) nm w) as (rfront & Hl & Heq).
    { rewrite length_app. simpl. lia. }
    exists rfront.
    split; [rewrite Hl, length_app; simpl; lia | split; [exact Heq|]].
    intros zs Hcounts Hzs Hsum Htotal.
    assert (Hrest : (0 <= foldr Z.add 0%Z zs)%Z).
    { clear -Hzs. induction Hzs; cbn [foldr]; lia. }
    unfold js_sum. rewrite Hcounts.
    rewrite fold_left_js_add_exact by (done || lia).
    rewrite js_sub_safe by lia; f_equal; lia.
  - intros name1 name2 -> Hscan.
    unfold getQuestionCountsPerDocument. rewrite Hscan.
    vm_compute. reflexivity.
Qed.

Lemma forced_minimum_and_remainder_witness :
  ((2 <= length (documents corpus_100_50))%nat
   /\ js_int 9 = Num 9
   /\ getQuestionCountsPerDocument corpus_100_50 9
      = [{| docName := js "doc1.pdf"; count := Num 6 |};
         {| docName := js "doc2.pdf"; count := Num 3 |}]
   /\ exists front,
        S (length front) = length (documents corpus_100_50)
        /\ getQuestionCountsPerDocument corpus_100_50 9
           = front ++ [{| docName := js "doc2.pdf";
                          count := js_sub (Num 9)
                                     (js_sum (map count front)) |}])
  /\ ((2 <= length (documents corpus_100_1_1))%nat
      /\ js_int 3 = Num 3
      /\ getQuestionCountsPerDocument corpus_100_1_1 3 !! 1%nat
         = Some {| docName := js "b.pdf"; count := Num 1 |}).
Proof.
  assert (H2 : (2 <= length (documents corpus_100_50))%nat)
    by (vm_compute; lia).
  assert (H3 : (2 <= length (documents corpus_100_1_1))%nat)
    by (vm_compute; lia).
  assert (H9 : js_int 9 = Num 9) by (vm_compute; reflexivity).
  assert (H3' : js_int 3 = Num 3) by (vm_compute; reflexivity).
  split; (split; [assumption | split; [assumption|]]).
  - destruct (forced_minimum_and_remainder corpus_100_50 9 H2 H9)
      as (_ & Hlast & Hscenario).
    split.
    + apply Hscenario; [reflexivity | vm_compute; reflexivity].
    + destruct (Hlast (js "doc2.pdf") 50%float) as (front & Hl & Heq & _).
      { vm_compute. reflexivity. }
      exists front. split; [exact Hl | exact Heq].
  - destruct (forced_minimum_and_remainder corpus_100_1_1 3 H3 H3')
      as (Hforced & _ & _).
    apply (Hforced 1%nat (js "b.pdf") 1%float).
    + apply Nat.ltb_lt. vm_compute. reflexivity.
    + vm_compute. reflexivity.
    + vm_compute. reflexivity.
    + apply Z.leb_le. vm_compute. reflexivity.
Defined.

(** Past 2^53 the code's subtraction rounds, and so does the model's: with
    1, 10 and 100 pages and totalItems = 10^16 the last count is not the
    exact difference 9009009009009009. *)
Example last_count_rounds_past_2_53 :
  map count (getQuestionCountsPerDocument corpus_1_10_100 (10 ^ 16))
  = [Num 90090090090090; Num 900900900900901; Num 9009009009009008]
  /\ js_int (10 ^ 16) = Num (10 ^ 16).
Proof. split; vm_compute; reflexivity. Qed.

(** The forced count at work: the share of b.pdf is 0 and its count is 1. *)
Example forced_count_at_100_1_1 :
  share 1 102 3 = Num 0
  /\ getQuestionCountsPerDocument corpus_100_1_1 3 !! 1%nat
     = Some {| docName := js "b.pdf"; count := Num 1 |}.
Proof. split; vm_compute; reflexivity. Qed.

(** C4: when the parser finds no document or one document (by the
    page-count pattern, or by the legacy pattern when the first finds none),
    the function returns the empty sequence, whatever totalItems is. *)
Theorem empty_below_two_documents text totalItems :
  (length (documents text) <= 1)%nat ->
  getQuestionCountsPerDocument text totalItems = [].
Proof.
  intros Hlen. rewrite getQuestionCountsPerDocument_documents. cbv zeta.
  by destruct (Nat.leb_spec (length (documents text)) 1); [|lia].
Qed.

Lemma empty_below_two_documents_witness :
  (length (documents corpus_single) <= 1)%nat
  /\ getQuestionCountsPerDocument corpus_single 7 = [].
Proof.
  assert (H : (length (documents corpus_single) <= 1)%nat)
    by (vm_compute; lia).
  split; [exact H|].
  exact (empty_below_two_documents corpus_single 7 H).
Defined.

Example one_document_found :
  map fst (documents corpus_single) = [js "solo.pdf"]
  /\ documents (js "sin marcadores") = [].
Proof. split; vm_compute; reflexivity. Qed.

End DistributionClaims.

(** ** The cloze segmenter *)

Section ClozeFacts.

Import ExamClozeMode.
Context `{Engine}.

Lemma matchAt_length pattern s :
  matchAt pattern s = true -> (length pattern <= length s)%nat.
Proof.
  revert s. induction pattern as [|p pattern IH]; intros [|c s] Hm; simpl in *;
    try lia; try discriminate.
  apply andb_true_iff in Hm as [_ Hm]. apply IH in Hm. lia.
Qed.

(** The pieces of the loop are the pending text and the text not yet
    passed. *)
Lemma splitLoop_concat pattern s :
  forall skip pending,
    (skip <= length s)%nat ->
    concat (splitLoop pattern skip pending s) = pending ++ drop skip s.
Proof.
  induction s as [|c s IH]; intros skip pending Hskip.
  - simpl in *. by rewrite drop_nil.
  - destruct skip as [|n].
    + cbn [splitLoop]. destruct (matchAt pattern (c :: s)) eqn:Hm.
      * destruct pattern as [|p pattern].
        { destruct pending as [|x pending]; simpl; by rewrite IH by lia. }
        apply matchAt_length in Hm. simpl in Hm.
        cbn [concat]. rewrite IH by (simpl; lia). simpl.
        replace (length pattern - 0)%nat with (length pattern) by lia.
        by rewrite take_drop.
      * rewrite IH by lia. simpl. by rewrite <- app_assoc.
    + cbn [splitLoop]. rewrite IH by (simpl in Hskip; lia). done.
Qed.

(** [split] loses nothing: its pieces, in order, are the text. *)
Lemma split_concat pattern text : concat (split pattern text) = text.
Proof.
  destruct text as [|c text]; unfold split.
  - by destruct (matchAt pattern []).
  - by rewrite splitLoop_concat by (simpl; lia).
Qed.

Lemma texts_app parts1 parts2 : texts (parts1 ++ parts2) = texts parts1 ++ texts parts2.
Proof. unfold texts. by rewrite map_app, concat_app. Qed.

Lemma texts_flat_map {A} (f : A -> list Part) (l : list A) :
  texts (flat_map f l) = concat (map (fun x => texts (f x)) l).
Proof.
  induction l as [|x l IH]; simpl; [done|]. by rewrite texts_app, IH.
Qed.

Lemma pieceParts_texts word s : texts (pieceParts word s) = s.
Proof.
  unfold pieceParts, texts.
  destruct (jsstring_eqb _ _); [|destruct s]; simpl; by rewrite ?app_nil_r.
Qed.

Lemma splitPart_texts word part : texts (splitPart word part) = text part.
Proof.
  unfold splitPart. destruct (hidden part).
  - unfold texts. simpl. by rewrite app_nil_r.
  - rewrite texts_flat_map.
    rewrite (map_ext _ (fun s => s)) by (intros; apply pieceParts_texts).
    rewrite map_id. apply split_concat.
Qed.

Lemma hideWord_texts parts word : texts (hideWord parts word) = texts parts.
Proof.
  destruct word as [|c word]; [done|]. unfold hideWord.
  rewrite texts_flat_map. unfold texts at 2. f_equal.
  apply map_ext. intros. apply splitPart_texts.
Qed.

Lemma fold_hideWord_texts words parts :
  texts (fold_left hideWord words parts) = texts parts.
Proof.
  revert parts. induction words as [|word words IH]; intros parts; simpl.
  - done.
  - by rewrite IH, hideWord_texts.
Qed.

(** A hidden part of the new list was hidden before, or matches the word. *)
Lemma hideWord_hidden parts word part :
  In part (hideWord parts word) ->
  hidden part = true ->
  (In part parts /\ hidden part = true)
  \/ (In word [word]
      /\ toLowerCase (text part) = toLowerCase (trim word)).
Proof.
  intros Hin Hh. destruct word as [|c word]; [left; done|].
  unfold hideWord in Hin. apply in_flat_map in Hin as (old & Hold & Hin).
  unfold splitPart in Hin. destruct (hidden old) eqn:Hoh.
  - destruct Hin as [<-|[]]. by left.
  - right. apply in_flat_map in Hin as (s & _ & Hin).
    unfold pieceParts, jsstring_eqb in Hin. case_bool_decide as Heq.
    + destruct Hin as [<-|[]]. split; [by left | exact Heq].
    + destruct s; [destruct Hin|]. destruct Hin as [<-|[]]. discriminate Hh.
Qed.

Lemma fold_hideWord_hidden words parts part :
  In part (fold_left hideWord words parts) ->
  hidden part = true ->
  (In part parts /\ hidden part = true)
  \/ (exists word, In word words
        /\ toLowerCase (text part) = toLowerCase (trim word)).
Proof.
  revert parts. induction words as [|word words IH]; intros parts Hin Hh.
  - left. done.
  - simpl in Hin. destruct (IH _ Hin Hh) as [[Hin' _]|(w & Hw & Heq)].
    + destruct (hideWord_hidden _ _ _ Hin' Hh) as [?|[_ Heq]]; [by left|].
      right. exists word. split; [by left | done].
    + right. exists w. split; [by right | done].
Qed.

(** An empty term leaves the parts as they are. *)
Lemma hideWord_empty parts : hideWord parts [] = parts.
Proof. reflexivity. Qed.

Lemma empty_term_ignored fullText imagePrompt sourceFile words1 words2 :
  getParsedContent
    (Some {| ClozeCard.fullText := fullText;
             ClozeCard.hiddenWords := words1 ++ [[]] ++ words2;
             ClozeCard.imagePrompt := imagePrompt;
             ClozeCard.sourceFile := sourceFile |})
  = getParsedContent
      (Some {| ClozeCard.fullText := fullText;
               ClozeCard.hiddenWords := words1 ++ words2;
               ClozeCard.imagePrompt := imagePrompt;
               ClozeCard.sourceFile := sourceFile |}).
Proof. unfold getParsedContent. simpl. by rewrite !fold_left_app. Qed.

End ClozeFacts.

Section ClozeClaims.

Import ExamClozeMode Examples.

(** C2: for every text and every list of hidden terms, whatever their case,
    the texts of the segments of [getParsedContent], in order, make up
    fullText exactly. *)
Theorem segments_reconstruct_fullText `{Engine} (currentCard : ClozeCard.t) :
  concat (map text (getParsedContent (Some currentCard)))
  = ClozeCard.fullText currentCard.
Proof.
  unfold getParsedContent. fold (texts (fold_left hideWord
    (ClozeCard.hiddenWords currentCard)
    [{| text := ClozeCard.fullText currentCard; hidden := false; word := None |}])).
  rewrite fold_hideWord_texts. unfold texts. simpl. by rewrite app_nil_r.
Qed.

(** The scenario of the specification. *)
Example segments_El_Sol :
  @getParsedContent ascii_engine
    (card "El Sol es una Estrella." ["sol"; "estrella"]%string)
  = [visible "El "; masked "Sol"; visible " es una "; masked "Estrella";
     visible "."].
Proof. vm_compute. reflexivity. Qed.

Example split_ignoring_case :
  @split ascii_engine (js "x") (js "Xabx") = [[]; js "X"; js "ab"; js "x"; []].
Proof. vm_compute. reflexivity. Qed.

Example split_empty_pattern :
  @split ascii_engine [] (js "abc") = [js "a"; []; js "b"; []; js "c"].
Proof. vm_compute. reflexivity. Qed.


(** C7, at the input where the code departs from it: the term of one space
    is not empty, so the guard [if (!word) return] lets it pass; trimmed, it
    gives the empty pattern, which matches between any two characters. The
    text "ab" comes out as "a", an empty hidden part and "b", where the list
    without the term gives the single visible part "ab". The empty term
    itself is ignored. *)
Theorem blank_term_splits_text :
  @getParsedContent ascii_engine (card "ab" [" "]%string)
  = [visible "a"; masked EmptyString; visible "b"]
  /\ @getParsedContent ascii_engine (card "ab" []) = [visible "ab"]
  /\ @getParsedContent ascii_engine (card "ab" [EmptyString]) = [visible "ab"]
  /\ @getParsedContent ascii_engine (card "ab" [" "]%string)
     <> @getParsedContent ascii_engine (card "ab" []).
Proof.
  split; [|split; [|split]]; try (vm_compute; reflexivity).
  vm_compute. discriminate.
Qed.

(** C10: every hidden segment of [getParsedContent] has a text that, lower
    cased, is the lower-cased trimmed form of a term of hiddenWords. *)
Theorem hidden_parts_come_from_terms `{Engine}
    (currentCard : ClozeCard.t) (part : Part) :
  In part (getParsedContent (Some currentCard)) ->
  hidden part = true ->
  exists word,
    In word (ClozeCard.hiddenWords currentCard)
    /\ toLowerCase (text part) = toLowerCase (trim word).
Proof.
  intros Hin Hh. unfold getParsedContent in Hin.
  destruct (fold_hideWord_hidden _ _ _ Hin Hh) as [[Hin' _]|Hw]; [|done].
  destruct Hin' as [<-|[]]. discriminate Hh.
Qed.

Lemma hidden_parts_come_from_terms_witness :
  exists word,
    In word (map js ["sol"; "estrella"]%string)
    /\ @toLowerCase ascii_engine (js "Sol")
       = @toLowerCase ascii_engine (trim word).
Proof.
  apply (@hidden_parts_come_from_terms ascii_engine
           {| ClozeCard.fullText := js "El Sol es una Estrella.";
              ClozeCard.hiddenWords := map js ["sol"; "estrella"]%string;
              ClozeCard.imagePrompt := [];
              ClozeCard.sourceFile := None |}
           (masked "Sol")).
  - vm_compute. right. left. reflexivity.
  - reflexivity.
Defined.

End ClozeClaims.

(** ** Test mode *)

Section TestModeClaims.

Import ExamTestMode Examples.

Lemma sameSelection_spec correctIndices selectedOptions :
  sameSelection correctIndices selectedOptions = true
  <-> (list_to_set selectedOptions : gset Z) = list_to_set correctIndices.
Proof.
  unfold sameSelection.
  rewrite andb_true_iff, bool_decide_eq_true, forallb_forall. split.
  - intros [Hsize Hall]. symmetry. apply set_subseteq_size_eq; [|lia].
    intros x Hx. specialize (Hall x). rewrite bool_decide_eq_true in Hall.
    apply Hall. by apply list_elem_of_In, elem_of_elements.
  - intros Heq. rewrite Heq. split; [done|]. intros x Hx.
    apply bool_decide_eq_true. by apply elem_of_elements, list_elem_of_In.
Qed.

(** With at least one question, clamping the score before or after scaling
    gives the same grade. *)
Lemma grade_eq_specified questions totalScore :
  questions <> [] ->
  grade questions totalScore
  = grade_as_specified (length questions) totalScore.
Proof.
  intros Hne. unfold grade, grade_as_specified.
  destruct questions as [|q0 questions]; [done|].
  set (n := length (q0 :: questions)).
  assert (Hn : (0 < inject_Z (Z.of_nat n))%Q).
  { unfold Qlt, inject_Z. cbn [Qnum Qden]. subst n. cbn [length]. lia. }
  unfold js_div. fold n. change n with (S (length questions)) at 1 3.
  cbn [js_times10 Math_max0 Math_round_real]. f_equal.
  apply Qfloor_comp. apply Qplus_comp; [|reflexivity].
  destruct (Q.max_spec 0 totalScore) as [[Hlt ->]|[Hle ->]].
  - apply Q.max_r. apply Qmult_le_0_compat; [|done].
    apply Qle_shift_div_l; [done|]. rewrite Qmult_0_l. by apply Qlt_le_weak.
  - assert (Hdiv : (totalScore / inject_Z (Z.of_nat n) <= 0)%Q).
    { apply Qle_shift_div_r; [done|]. by rewrite Qmult_0_l. }
    rewrite Q.max_l.
    + unfold Qdiv. by rewrite !Qmult_0_l.
    + apply Qle_trans with (0 * 10)%Q; [|discriminate].
      apply Qmult_le_compat_r; [done|discriminate].
Qed.

(** C5: a submitted response is marked correct exactly when the selected
    indices and the correct indices are the same set; a correct response
    adds 1 to the score, an incorrect one adds 0, or -1/2 with negative
    marking; the final grade is round(max(0, totalScore) / itemCount * 10),
    and the session is passed exactly when that grade is at least 5. *)
Theorem test_scoring questions settings st currentQuestion :
  questions !! currentIndex st = Some currentQuestion ->
  selectedOptions st <> [] ->
  exists st' item,
    handleSubmit questions settings st = Some st'
    /\ summary st' = summary st ++ [item]
    /\ (isCorrect item = true
        <-> (list_to_set (selectedOptions st) : gset Z)
            = list_to_set (TestQuestion.correctIndices currentQuestion))
    /\ score st'
       = (score st
          + (if isCorrect item then 1
             else if truthy (negativeMarking settings) then - (1 # 2)
             else 0))%Q
    /\ (forall totalScore,
          grade questions totalScore
          = grade_as_specified (length questions) totalScore
          /\ (isPass questions totalScore = true
              <-> js_geb (grade_as_specified (length questions) totalScore) 5
                  = true)).
Proof.
  intros Hq Hsel. unfold handleSubmit.
  destruct (selectedOptions st) as [|i sel] eqn:Hs; [done|].
  rewrite Hq. simpl. eexists _, _. split; [reflexivity|]. simpl.
  split; [reflexivity|]. split; [apply sameSelection_spec|].
  split; [reflexivity|]. intros totalScore.
  assert (Hne : questions <> []) by (intros ->; discriminate Hq).
  unfold isPass. by rewrite grade_eq_specified.
Qed.

Lemma test_scoring_witness :
  exists st' item,
    handleSubmit [testQuestion [0; 2]%Z] (testSettings (Some true))
      (selecting [2; 0]%Z) = Some st'
    /\ summary st' = [item]
    /\ isCorrect item = true
    /\ score st' = (0 + 1)%Q.
Proof.
  destruct (test_scoring [testQuestion [0; 2]%Z] (testSettings (Some true))
              (selecting [2; 0]%Z) (testQuestion [0; 2]%Z))
    as (st' & item & Hst & Hsum & Hcorrect & Hscore & _).
  - reflexivity.
  - discriminate.
  - exists st', item. split; [exact Hst|]. split; [exact Hsum|].
    assert (Hc : isCorrect item = true).
    { apply Hcorrect. vm_compute. reflexivity. }
    split; [exact Hc|]. rewrite Hscore, Hc. reflexivity.
Defined.

(** The scenarios of the specification. *)
Example single_choice_scenarios :
  (score <$> handleSubmit [testQuestion [2]%Z] (testSettings None) (selecting [2]%Z))
  = Some (0 + 1)%Q
  /\ (score <$> handleSubmit [testQuestion [2]%Z] (testSettings None) (selecting [1]%Z))
     = Some (0 + 0)%Q
  /\ (score <$> handleSubmit [testQuestion [2]%Z] (testSettings (Some true)) (selecting [1]%Z))
     = Some (0 + - (1 # 2))%Q.
Proof. repeat split. Qed.

Example multiple_choice_scenarios :
  sameSelection [0; 2]%Z [0; 2]%Z = true
  /\ sameSelection [0; 2]%Z [2; 0]%Z = true
  /\ sameSelection [0; 2]%Z [0]%Z = false
  /\ sameSelection [0; 2]%Z [0; 1; 2]%Z = false.
Proof. repeat split; vm_compute; reflexivity. Qed.

(** An empty selection is not a submission: nothing changes. *)
Lemma handleSubmit_nothing_selected questions settings st :
  selectedOptions st = [] -> handleSubmit questions settings st = Some st.
Proof. intros Hs. unfold handleSubmit. by rewrite Hs. Qed.

(** X23: the exact grade is the grade the engine computes on binary64
    numbers, for every exam of 1 to 100 questions and every score it can
    reach. *)
Lemma grade_binary64_exact :
  forallb (fun maxScore =>
    forallb (fun halves =>
      bool_decide (grade_binary64 maxScore halves
                   = grade (repeat (testQuestion []) maxScore) (halves # 2)))
      (reachableHalves maxScore))
    (seq 1 100) = true.
Proof. vm_compute. reflexivity. Qed.

End TestModeClaims.

(** ** Open mode *)

Section OpenModeClaims.

Import ExamOpenMode Examples.

(** Whatever the settings, a request built by [handleCheck] carries the
    question, the model answer, the answer typed, and the instruction of
    the NORMAL level. *)
Lemma handleCheck_requests questions settings evaluator st st' requests :
  handleCheck questions settings evaluator st = Some (st', requests) ->
  forall request, In request requests ->
    exists currentQuestion,
      questions !! currentIndex st = Some currentQuestion
      /\ Evaluation.question request = OpenQuestion.question currentQuestion
      /\ Evaluation.modelAnswer request
         = OpenQuestion.modelAnswer currentQuestion
      /\ Evaluation.userAnswer request = userAnswer st
      /\ Evaluation.benevolenceInstruction request
         = Evaluation.instruction NORMAL.
Proof.
  unfold handleCheck. intros Hc request Hin.
  destruct (questions !! currentIndex st) as [currentQuestion|]; [|done].
  exists currentQuestion. simpl in Hc.
  case_bool_decide; [injection Hc as <- <-; destruct Hin|].
  destruct (evaluator _); injection Hc as <- <-;
    destruct Hin as [<-|[]]; repeat split.
Qed.

(** C6, at the input where the code departs from it: with the benevolence
    level of the session set to STRICT, the request for a typed answer
    carries the question, the model answer and the answer, but the
    instruction of the NORMAL level: [handleCheck] calls
    [evaluateOpenAnswer] with three arguments and the fourth takes its
    default. *)
Theorem strict_session_sends_normal_request evaluator :
  exists st' request,
    handleCheck [openQuestion] (Some (openSettings STRICT)) evaluator
      (answering "Una estrella")
    = Some (st', [request])
    /\ Evaluation.question request = OpenQuestion.question openQuestion
    /\ Evaluation.modelAnswer request = OpenQuestion.modelAnswer openQuestion
    /\ Evaluation.userAnswer request = js "Una estrella"
    /\ Evaluation.benevolenceInstruction request
       = Evaluation.instruction NORMAL
    /\ Evaluation.benevolenceInstruction request
       <> Evaluation.instruction STRICT
    /\ request
       <> Evaluation.evaluateOpenAnswer
            (OpenQuestion.question openQuestion)
            (OpenQuestion.modelAnswer openQuestion)
            (js "Una estrella")
            (benevolence (openSettings STRICT)).
Proof.
  unfold handleCheck. cbn [lookup]. simpl.
  destruct (evaluator _); eexists _, _; (split; [reflexivity|]);
    repeat (split; [reflexivity|]); split; vm_compute; discriminate.
Qed.

(** An answer of blanks sends nothing. *)
Example blank_answer_sends_nothing evaluator :
  snd <$> handleCheck [openQuestion] (Some (openSettings STRICT)) evaluator
            (answering "  ")
  = Some [].
Proof. reflexivity. Qed.

End OpenModeClaims.

(** ** Links to the source files *)

Section LinkClaims.

Import Link Examples.

Example sourceFileRegex_tema1 :
  sourceFileRegex (js "tema1 (Pág. 3)") = Some (js "tema1", js "3").
Proof. vm_compute. reflexivity. Qed.

Example sourceFileRegex_spaces :
  sourceFileRegex (js " Tema 1.pdf   (Pág.12)") = Some (js " Tema 1.pdf", js "12")
  /\ sourceFileRegex (js "tema1.pdf (Pag. 3)") = None
  /\ sourceFileRegex (js "tema1.pdf (Pág. 3) ") = None.
Proof. repeat split; vm_compute; reflexivity. Qed.

Lemma jsstring_eqb_refl s : jsstring_eqb s s = true.
Proof. unfold jsstring_eqb. by apply bool_decide_eq_true. Qed.

(** The three steps of the test-mode and cloze-mode function. *)
Lemma createPDFLink_exact `{Engine} uploadedFiles c cs filename pageNum file :
  sourceFileRegex (c :: cs) = Some (filename, pageNum) ->
  Map_get uploadedFiles (trim filename) = Some file ->
  ExamTestMode.createPDFLink (Some uploadedFiles) (Some (c :: cs))
  = linkTo file pageNum (c :: cs).
Proof.
  intros Hm Hget. unfold ExamTestMode.createPDFLink. by rewrite Hm, Hget.
Qed.

Lemma createPDFLink_fuzzy `{Engine} uploadedFiles c cs filename pageNum file :
  sourceFileRegex (c :: cs) = Some (filename, pageNum) ->
  Map_get uploadedFiles (trim filename) = None ->
  fuzzyFind uploadedFiles (toLowerCase (stripExtension (trim filename)))
  = Some file ->
  ExamTestMode.createPDFLink (Some uploadedFiles) (Some (c :: cs))
  = linkTo file pageNum (c :: cs).
Proof.
  intros Hm Hget Hfind. unfold ExamTestMode.createPDFLink.
  by rewrite Hm, Hget, Hfind.
Qed.

Lemma createPDFLink_plain `{Engine} uploadedFiles c cs filename pageNum :
  sourceFileRegex (c :: cs) = Some (filename, pageNum) ->
  Map_get uploadedFiles (trim filename) = None ->
  fuzzyFind uploadedFiles (toLowerCase (stripExtension (trim filename)))
  = None ->
  ExamTestMode.createPDFLink (Some uploadedFiles) (Some (c :: cs))
  = {| url := None; display := c :: cs |}.
Proof.
  intros Hm Hget Hfind. unfold ExamTestMode.createPDFLink.
  by rewrite Hm, Hget, Hfind.
Qed.

(** The open-mode function stops after the exact match. *)
Lemma open_createPDFLink_no_exact `{Engine} uploadedFiles c cs filename pageNum :
  sourceFileRegex (c :: cs) = Some (filename, pageNum) ->
  Map_get uploadedFiles (trim filename) = None ->
  ExamOpenMode.createPDFLink (Some uploadedFiles) (Some (c :: cs))
  = {| url := None; display := c :: cs |}.
Proof.
  intros Hm Hget. unfold ExamOpenMode.createPDFLink. by rewrite Hm, Hget.
Qed.

(** C8, at the input where the code departs from it: with the file
    "tema1.pdf" uploaded, the attribution "tema1 (Pág. 3)" has no exact
    match and matches once extensions are stripped. Test mode and cloze mode
    resolve it to a link to page 3 of the file; open mode, whose
    [createPDFLink] has no second step, shows it as plain text. *)
Theorem open_mode_skips_extension_match `{Engine} :
  let sourceFile := Some (js "tema1 (Pág. 3)") in
  ExamTestMode.createPDFLink uploaded sourceFile
  = {| url := Some (createObjectURL tema1 ++ js "#page=3");
       display := js "tema1 (Pág. 3)" |}
  /\ ExamClozeMode.createPDFLink uploaded sourceFile
     = {| url := Some (createObjectURL tema1 ++ js "#page=3");
          display := js "tema1 (Pág. 3)" |}
  /\ ExamOpenMode.createPDFLink uploaded sourceFile
     = {| url := None; display := js "tema1 (Pág. 3)" |}.
Proof.
  assert (Hjs : exists c cs, js "tema1 (Pág. 3)" = c :: cs)
    by (eexists _, _; vm_compute; reflexivity).
  destruct Hjs as (c & cs & Hjs).
  assert (Hm : sourceFileRegex (c :: cs) = Some (js "tema1", js "3"))
    by (rewrite <- Hjs; vm_compute; reflexivity).
  assert (Hget : Map_get [(js "tema1.pdf", tema1)] (trim (js "tema1")) = None)
    by (vm_compute; reflexivity).
  assert (Hfind : fuzzyFind [(js "tema1.pdf", tema1)]
                    (toLowerCase (stripExtension (trim (js "tema1"))))
                  = Some tema1).
  { cbn [fuzzyFind].
    replace (stripExtension (js "tema1.pdf"))
      with (stripExtension (trim (js "tema1"))) by (vm_compute; reflexivity).
    by rewrite jsstring_eqb_refl. }
  cbv zeta. unfold uploaded, ExamClozeMode.createPDFLink. rewrite Hjs.
  pose proof (createPDFLink_fuzzy _ _ _ _ _ _ Hm Hget Hfind) as Htest.
  pose proof (open_createPDFLink_no_exact _ _ _ _ _ Hm Hget) as Hopen.
  split; [exact Htest | split; [exact Htest | exact Hopen]].
Qed.

(** With a case difference as well, on the ASCII engine. *)
Example open_mode_skips_case_match :
  Link.url (@ExamTestMode.createPDFLink ascii_engine uploaded
              (Some (js "Tema1.PDF (Pág. 12)")))
  = Some (js "blob:tema1.pdf#page=12")
  /\ Link.url (@ExamOpenMode.createPDFLink ascii_engine uploaded
                 (Some (js "Tema1.PDF (Pág. 12)")))
     = None.
Proof. split; vm_compute; reflexivity. Qed.

(** Where all three agree: the exact name, and a name that is not there. *)
Example exact_name_resolves_everywhere :
  Link.url (@ExamTestMode.createPDFLink ascii_engine uploaded
              (Some (js "tema1.pdf (Pág. 2)")))
  = Some (js "blob:tema1.pdf#page=2")
  /\ Link.url (@ExamOpenMode.createPDFLink ascii_engine uploaded
                 (Some (js "tema1.pdf (Pág. 2)")))
     = Some (js "blob:tema1.pdf#page=2")
  /\ @ExamTestMode.createPDFLink ascii_engine uploaded
       (Some (js "otro.pdf (Pág. 2)"))
     = {| url := None; display := js "otro.pdf (Pág. 2)" |}
  /\ @ExamOpenMode.createPDFLink ascii_engine uploaded
       (Some (js "otro.pdf (Pág. 2)"))
     = {| url := None; display := js "otro.pdf (Pág. 2)" |}.
Proof. repeat split; vm_compute; reflexivity. Qed.

End LinkClaims.

(** ** Restart *)

Section AppClaims.

(** C9: restart puts the application at the settings step and empties the
    test questions, the cloze cards and the open questions; the corpus
    text, the uploaded files, the settings, the generated images, the
    background image and every other cell of the component stay as they
    were. *)
Theorem handleRestart_frame (app : App.t) :
  let app' := App.handleRestart app in
  step (App.state app') = SETTINGS
  /\ testQuestions (App.state app') = []
  /\ clozeCards (App.state app') = []
  /\ openQuestions (App.state app') = []
  /\ pdfText (App.state app') = pdfText (App.state app)
  /\ uploadedFiles (App.state app') = uploadedFiles (App.state app)
  /\ settings (App.state app') = settings (App.state app)
  /\ generatedImages (App.state app') = generatedImages (App.state app)
  /\ App.backgroundImage app' = App.backgroundImage app
  /\ App.loadingMessage app' = App.loadingMessage app
  /\ App.isDarkMode app' = App.isDarkMode app
  /\ App.isFullScreen app' = App.isFullScreen app
  /\ App.zoomLevel app' = App.zoomLevel app.
Proof. repeat split. Qed.

(** Restart is idempotent. *)
Lemma handleRestart_idempotent (app : App.t) :
  App.handleRestart (App.handleRestart app) = App.handleRestart app.
Proof. reflexivity. Qed.

End AppClaims.

(* ===================================================================== *)
(** * Further properties of the code *)
(* ===================================================================== *)

(** ** The matchers *)

Section RegexFacts.

Import Regex.

Lemma literal_app p s : literal p (p ++ s) = Some s.
Proof.
  induction p as [|a p IH]; simpl; [done|]. by rewrite N.eqb_refl.
Qed.

Lemma literal_Some p s r : literal p s = Some r -> s = p ++ r.
Proof.
  revert s. induction p as [|a p IH]; intros [|c s] Hl; simpl in *;
    try congruence.
  destruct (N.eqb_spec a c) as [->|]; [|done]. f_equal. by apply IH.
Qed.

(** A literal that fails on [p] and has none of its characters equal to
    [c] fails on [p] followed by [c]. *)
Lemma literal_None_app e p c z :
  Forall (fun a => a <> c) e ->
  literal e p = None -> literal e (p ++ c :: z) = None.
Proof.
  intros He. revert p. induction He as [|a e Ha He IH]; intros p Hl.
  - done.
  - destruct p as [|x p]; simpl in *.
    + by destruct (N.eqb_spec a c).
    + destruct (a =? x)%N; [by apply IH | done].
Qed.

Context {A : Type}.
Variable ok : N -> bool.
Variable k : list N -> list N -> option A.

(** The lazy star stops at the first split where the continuation
    succeeds. *)
Lemma lazy_star_first x : forall acc rest r,
  Forall (fun c => ok c = true) x ->
  (forall a b, x = a ++ b -> b <> [] -> k (acc ++ a) (b ++ rest) = None) ->
  k (acc ++ x) rest = Some r ->
  lazy_star ok k acc (x ++ rest) = Some r.
Proof.
  induction x as [|c x IH]; intros acc rest r Hok Hnone Hk.
  - rewrite app_nil_r in Hk. simpl. destruct rest; simpl; by rewrite Hk.
  - simpl. pose proof (Hnone [] (c :: x) eq_refl ltac:(done)) as H0.
    rewrite app_nil_r in H0. simpl in H0. rewrite H0.
    inversion Hok as [|? ? Hc Hx]; subst. rewrite Hc.
    apply IH; [done| |].
    + intros a b -> Hb. rewrite <- app_assoc. simpl.
      apply (Hnone (c :: a) b); done.
    + by rewrite <- app_assoc.
Qed.

Lemma lazy_star_Some s : forall acc r,
  lazy_star ok k acc s = Some r ->
  exists a b, s = a ++ b /\ Forall (fun c => ok c = true) a
              /\ k (acc ++ a) b = Some r.
Proof.
  induction s as [|c s IH]; intros acc r Hl; simpl in Hl.
  - exists [], []. rewrite (app_nil_r acc).
    destruct (k acc []) eqn:Hk; [|done]. injection Hl as ->.
    split; [done | split; [constructor | done]].
  - destruct (k acc (c :: s)) eqn:Hk.
    + injection Hl as ->. exists [], (c :: s). rewrite (app_nil_r acc).
      split; [done | split; [constructor | done]].
    + destruct (ok c) eqn:Hc; [|done].
      destruct (IH _ _ Hl) as (a & b & -> & Ha & Hk').
      exists (c :: a), b. rewrite <- app_assoc in Hk'.
      split; [done | split; [by constructor | done]].
Qed.

Lemma greedy_star_cons acc c s :
  greedy_star ok k acc (c :: s)
  = if ok c then
      match greedy_star ok k (acc ++ [c]) s with
      | Some r => Some r
      | None => k acc (c :: s)
      end
    else k acc (c :: s).
Proof. reflexivity. Qed.

(** The greedy star takes a whole run when what follows cannot extend it. *)
Lemma greedy_star_all ws : forall acc rest r,
  Forall (fun c => ok c = true) ws ->
  (forall c rest', rest = c :: rest' -> ok c = false) ->
  k (acc ++ ws) rest = Some r ->
  greedy_star ok k acc (ws ++ rest) = Some r.
Proof.
  induction ws as [|c ws IH]; intros acc rest r Hok Hrest Hk.
  - rewrite app_nil_r in Hk. simpl app. destruct rest as [|c rest]; [done|].
    by rewrite greedy_star_cons, (Hrest c rest eq_refl).
  - inversion Hok as [|? ? Hc Hws]; subst.
    change ((c :: ws) ++ rest) with (c :: (ws ++ rest)).
    rewrite greedy_star_cons, Hc.
    rewrite (IH (acc ++ [c]) rest r); [done|done|done|].
    by rewrite <- app_assoc.
Qed.

Lemma greedy_star_Some s : forall acc r,
  greedy_star ok k acc s = Some r ->
  exists ws rest, s = ws ++ rest /\ Forall (fun c => ok c = true) ws
                  /\ k (acc ++ ws) rest = Some r.
Proof.
  assert (Hhere : forall acc s r, k acc s = Some r ->
            exists ws rest, s = ws ++ rest
              /\ Forall (fun c => ok c = true) ws
              /\ k (acc ++ ws) rest = Some r).
  { intros acc s' r Hk. exists [], s'. rewrite (app_nil_r acc).
    split; [done | split; [constructor | done]]. }
  induction s as [|c s IH]; intros acc r Hg.
  - by apply Hhere.
  - rewrite greedy_star_cons in Hg.
    destruct (ok c) eqn:Hc; [|by apply Hhere].
    destruct (greedy_star ok k (acc ++ [c]) s) eqn:Hrec; [|by apply Hhere].
    injection Hg as ->. destruct (IH _ _ Hrec) as (ws & rest & -> & Hws & Hk).
    exists (c :: ws), rest. rewrite <- app_assoc in Hk.
    split; [done | split; [by constructor | done]].
Qed.

Lemma greedy_plus_all ws rest r :
  ws <> [] ->
  Forall (fun c => ok c = true) ws ->
  (forall c rest', rest = c :: rest' -> ok c = false) ->
  k ws rest = Some r ->
  greedy_plus ok k (ws ++ rest) = Some r.
Proof.
  intros Hne Hok Hrest Hk. destruct ws as [|c ws]; [done|].
  inversion Hok as [|? ? Hc Hws]; subst.
  change ((c :: ws) ++ rest) with (c :: (ws ++ rest)).
  unfold greedy_plus. rewrite Hc. by apply (greedy_star_all ws [c]).
Qed.

Lemma greedy_plus_Some s r :
  greedy_plus ok k s = Some r ->
  exists ws rest, s = ws ++ rest /\ ws <> []
                  /\ Forall (fun c => ok c = true) ws /\ k ws rest = Some r.
Proof.
  destruct s as [|c s]; simpl; [done|]. destruct (ok c) eqn:Hc; [|done].
  intros Hg. destruct (greedy_star_Some _ _ _ Hg) as (ws & rest & -> & Hws & Hk).
  exists (c :: ws), rest. split; [done | split; [done | split; [by constructor | done]]].
Qed.

Lemma lazy_plus_Some s r :
  lazy_plus ok k s = Some r ->
  exists a b, s = a ++ b /\ a <> []
              /\ Forall (fun c => ok c = true) a /\ k a b = Some r.
Proof.
  destruct s as [|c s]; simpl; [done|]. destruct (ok c) eqn:Hc; [|done].
  intros Hl. destruct (lazy_star_Some _ _ _ Hl) as (a & b & -> & Ha & Hk).
  exists (c :: a), b. split; [done | split; [done | split; [by constructor | done]]].
Qed.

End RegexFacts.

Section Splits.

(** A text is cut in one way at its first character of a kind. *)
Lemma first_split_unique (p : N -> bool) X : forall Y c c' s t,
  Forall (fun x => p x = false) X ->
  Forall (fun x => p x = false) Y ->
  p c = true -> p c' = true ->
  X ++ c :: s = Y ++ c' :: t ->
  X = Y /\ c = c' /\ s = t.
Proof.
  induction X as [|x X IH]; intros [|y Y] c c' s t HX HY Hc Hc' Heq;
    simpl in Heq; injection Heq as -> Heq.
  - done.
  - inversion HY; congruence.
  - inversion HX; congruence.
  - inversion HX; inversion HY; subst.
    destruct (IH Y c c' s t) as (-> & -> & ->); done.
Qed.

(** A run of characters of a kind at the start of a text is cut in one way
    when what follows each run cannot extend it. *)
Lemma run_unique (p : N -> bool) X : forall Y A B,
  Forall (fun x => p x = true) X ->
  Forall (fun x => p x = true) Y ->
  (forall c A', A = c :: A' -> p c = false) ->
  (forall c B', B = c :: B' -> p c = false) ->
  X ++ A = Y ++ B ->
  X = Y /\ A = B.
Proof.
  induction X as [|x X IH]; intros [|y Y] A B HX HY HA HB Heq; simpl in Heq.
  - done.
  - subst A. inversion HY; subst. specialize (HA y (Y ++ B) eq_refl). congruence.
  - subst B. inversion HX; subst. specialize (HB x (X ++ A) eq_refl). congruence.
  - injection Heq as -> Heq. inversion HX; inversion HY; subst.
    destruct (IH Y A B) as [-> ->]; done.
Qed.

(** The same at the end of a text. *)
Lemma run_unique_end (p : N -> bool) (A B X Y : list N) :
  Forall (fun x => p x = true) X ->
  Forall (fun x => p x = true) Y ->
  (forall c A', A = A' ++ [c] -> p c = false) ->
  (forall c B', B = B' ++ [c] -> p c = false) ->
  A ++ X = B ++ Y ->
  A = B /\ X = Y.
Proof.
  intros HX HY HA HB Heq.
  assert (Hrev : rev X ++ rev A = rev Y ++ rev B)
    by (rewrite <- !rev_app_distr; by f_equal).
  destruct (run_unique p (rev X) (rev Y) (rev A) (rev B)) as [HXY HAB].
  - by apply Forall_rev.
  - by apply Forall_rev.
  - intros c A' HA'. apply (HA c (rev A')).
    rewrite <- (rev_involutive A), HA'. simpl. done.
  - intros c B' HB'. apply (HB c (rev B')).
    rewrite <- (rev_involutive B), HB'. simpl. done.
  - done.
  - split; apply rev_inj; done.
Qed.

End Splits.

(** ** The corpus and its parser *)

Section DecimalFacts.

Import Regex Distribution.

Lemma js_ascii c s :
  (N_of_ascii c <? 128)%N = true -> js (String c s) = N_of_ascii c :: js s.
Proof. intros Hc. unfold js. simpl. by rewrite Hc. Qed.

Lemma js_string_of_uint d :
  js (NilEmpty.string_of_uint d)
  = map (fun n => (48 + N.of_nat n)%N)
        (Decimal.uint_rect (fun _ => list nat) []
           (fun _ r => 0 :: r) (fun _ r => 1 :: r) (fun _ r => 2 :: r)
           (fun _ r => 3 :: r) (fun _ r => 4 :: r) (fun _ r => 5 :: r)
           (fun _ r => 6 :: r) (fun _ r => 7 :: r) (fun _ r => 8 :: r)
           (fun _ r => 9 :: r) d)%nat.
Proof.
  induction d; cbn [NilEmpty.string_of_uint Decimal.uint_rect map];
    [reflexivity|..]; rewrite js_ascii by reflexivity; by rewrite IHd.
Qed.

Lemma string_of_uint_digits d :
  Forall (fun c => isDigit c = true) (js (NilEmpty.string_of_uint d)).
Proof.
  rewrite js_string_of_uint.
  induction d; cbn [Decimal.uint_rect map]; constructor; done.
Qed.

Lemma parseInt_string_of_uint d : forall acc,
  fold_left (fun acc c => (10 * acc + (Z.of_N c - 48))%Z)
    (js (NilEmpty.string_of_uint d)) (Z.of_nat acc)
  = Z.of_nat (Nat.of_uint_acc d acc).
Proof.
  rewrite js_string_of_uint.
  induction d; intros acc; cbn [Decimal.uint_rect map fold_left Nat.of_uint_acc];
    [done|..]; rewrite <- IHd, Nat.tail_mul_spec; f_equal; lia.
Qed.

Lemma parseInt_decimal n : parseInt (decimal n) = Z.of_nat n.
Proof.
  unfold parseInt, decimal.
  etransitivity; [exact (parseInt_string_of_uint (Nat.to_uint n) 0)|].
  change (Nat.of_uint_acc (Nat.to_uint n) 0) with (Nat.of_uint (Nat.to_uint n)).
  by rewrite Stdlib.Numbers.DecimalNat.Unsigned.of_to.
Qed.

Lemma decimal_digits n : Forall (fun c => isDigit c = true) (decimal n).
Proof. apply string_of_uint_digits. Qed.

Lemma decimal_nonempty n : decimal n <> [].
Proof.
  intros Hnil. unfold decimal in *.
  assert (Hu : Nat.to_uint n <> Decimal.Nil).
  { rewrite <- (Stdlib.Numbers.DecimalNat.Unsigned.of_to n) at 1.
    rewrite Stdlib.Numbers.DecimalNat.Unsigned.to_of. unfold Decimal.unorm.
    by destruct (Decimal.nzhead (Nat.to_uint n)). }
  destruct (Nat.to_uint n); done.
Qed.

Lemma digit_not_line_terminator c : isDigit c = true -> dot c = true.
Proof.
  unfold isDigit, dot, isLineTerminator. intros Hd.
  apply andb_true_iff in Hd as [H1 H2].
  apply N.leb_le in H1, H2.
  repeat match goal with |- context [(c =? ?n)%N] =>
    destruct (N.eqb_spec c n); [lia|] end. done.
Qed.

End DecimalFacts.

Section CorpusFacts.

Import Regex Distribution Corpus.

Local Abbreviation START := (js "--- Inicio del documento: ").
Local Abbreviation PAGES := (js " | Páginas: ").
Local Abbreviation DASHES := (js " ---").
Local Abbreviation END_ := (js "--- Fin del documento ---").

Lemma literal_cons a p c s :
  literal (a :: p) (c :: s) = if (a =? c)%N then literal p s else None.
Proof. reflexivity. Qed.

Lemma Safe_nil z : Safe [] z.
Proof.
  intros b r Heq Hr. symmetry in Heq.
  apply app_eq_nil in Heq as [_ ->]. exfalso. by apply Hr.
Qed.

Lemma Safe_app x y z : Safe x (y ++ z) -> Safe y z -> Safe (x ++ y) z.
Proof.
  intros Hx Hy b r Heq Hr.
  apply app_eq_app in Heq as [l [[Hxb Hrl]|[Hbx Hyl]]].
  - subst x r. destruct l as [|c l].
    + cbn [app]. apply (Hy [] y); [reflexivity | exact Hr].
    + rewrite <- app_assoc. apply (Hx b (c :: l)); [reflexivity | discriminate].
  - subst b y. apply (Hy l r); [reflexivity | exact Hr].
Qed.

Lemma Safe_noLF x z : Forall (fun c => c <> LF) x -> Safe x z.
Proof.
  intros Hx b r -> Hr. destruct r as [|c r]; [done|].
  apply Forall_app in Hx as [_ Hr']. inversion Hr'; subst.
  cbn [app]. rewrite literal_cons.
  destruct (N.eqb_spec LF c) as [e|]; [|reflexivity].
  exfalso. match goal with H : c <> LF |- _ => apply H end. by symmetry.
Qed.

Lemma Safe_LF z : literal END_ z = None -> Safe [LF] z.
Proof.
  intros Hz b r Heq Hr. destruct b as [|c b].
  - simpl in Heq. subst r.
    cbn [app]. rewrite literal_cons, N.eqb_refl. exact Hz.
  - injection Heq as -> Heq. symmetry in Heq.
    apply app_eq_nil in Heq as [_ ->]. exfalso. by apply Hr.
Qed.

Lemma END_noLF : Forall (fun a => a <> LF) END_.
Proof. apply (bool_decide_unpack _). vm_compute. exact I. Qed.

Lemma digits_noLF ds :
  Forall (fun c => isDigit c = true) ds -> Forall (fun c => c <> LF) ds.
Proof.
  intros Hds. eapply Forall_impl; [exact Hds|].
  intros c Hc ->. discriminate Hc.
Qed.

Lemma pagesText_next i ps z :
  literal END_ (pagesText i ps ++ LF :: END_ ++ z) = None.
Proof. destruct ps; vm_compute; reflexivity. Qed.

(** The text of the pages holds no end marker before its own. *)
Lemma pagesText_Safe ps : forall i z,
  Forall plainPage ps -> Safe (pagesText i ps) (LF :: END_ ++ z).
Proof.
  induction ps as [|pageText ps IH]; intros i z Hps.
  - apply Safe_nil.
  - inversion Hps as [|? ? [HnoLF Hend] Hps']; subst.
    cbn [pagesText].
    apply Safe_app;
      [apply Safe_noLF, (bool_decide_unpack _); vm_compute; exact I|].
    apply Safe_app;
      [apply Safe_noLF, digits_noLF, decimal_digits|].
    apply Safe_app;
      [apply Safe_noLF, (bool_decide_unpack _); vm_compute; exact I|].
    apply Safe_app.
    { apply Safe_LF. rewrite <- !app_assoc.
      apply literal_None_app; [exact END_noLF | exact Hend]. }
    apply Safe_app; [by apply Safe_noLF|].
    apply Safe_app; [|by apply IH].
    apply Safe_LF. apply pagesText_next.
Qed.

End CorpusFacts.

Section ParserFacts.

Import Regex Distribution Corpus.

Local Abbreviation START := (js "--- Inicio del documento: ").
Local Abbreviation PAGES := (js " | Páginas: ").
Local Abbreviation DASHES := (js " ---").
Local Abbreviation END_ := (js "--- Fin del documento ---").

Lemma bind_Some_eq {A B} (x : A) (f : A -> option B) : (Some x ≫= f) = f x.
Proof. reflexivity. Qed.

Lemma bind_None_eq {A B} (f : A -> option B) : (None ≫= f) = None.
Proof. reflexivity. Qed.

Lemma exec_loop_skip {A} (m : list N -> option (A * list N)) y rest :
  exec_loop m (length y) (y ++ rest) = exec_loop m 0 rest.
Proof. induction y as [|c y IH]; [done|]. simpl. exact IH. Qed.

Lemma exec_loop_match {A} (m : list N -> option (A * list N)) x rest a :
  x <> [] ->
  m (x ++ rest) = Some (a, rest) ->
  exec_loop m 0 (x ++ rest) = a :: exec_loop m 0 rest.
Proof.
  intros Hx Hm. destruct x as [|c x]; [done|].
  change ((c :: x) ++ rest) with (c :: (x ++ rest)) in *.
  cbn [exec_loop]. rewrite Hm. f_equal.
  replace (length (c :: x ++ rest) - length rest - 1)%nat with (length x)
    by (simpl; rewrite length_app; lia).
  apply exec_loop_skip.
Qed.

Lemma exec_loop_miss {A} (m : list N -> option (A * list N)) c s :
  m (c :: s) = None -> exec_loop m 0 (c :: s) = exec_loop m 0 s.
Proof. intros Hm. cbn [exec_loop]. by rewrite Hm. Qed.

Lemma docRegex_LF s : docRegex (LF :: s) = None.
Proof. vm_compute. reflexivity. Qed.

Lemma PAGES_last : PAGES = js " | Páginas:" ++ [32%N].
Proof. vm_compute. reflexivity. Qed.

Lemma DASHES_first : DASHES = 32%N :: js "---".
Proof. vm_compute. reflexivity. Qed.

Lemma dot_noLF c : dot c = true -> (c =? LF)%N = false.
Proof.
  unfold dot, isLineTerminator, LF. destruct (c =? 10)%N; [discriminate|done].
Qed.

Lemma digit_noLF c : isDigit c = true -> (c =? LF)%N = false.
Proof. intros Hc. apply dot_noLF. by apply digit_not_line_terminator. Qed.

(** The header line [name | Páginas: digits ---] is read in one way. *)
Lemma header_unique b name' ds ds' T T' :
  Forall (fun c => dot c = true) b ->
  Forall (fun c => isDigit c = true) ds ->
  Forall (fun c => isDigit c = true) ds' ->
  b ++ PAGES ++ ds ++ DASHES ++ LF :: T
  = name' ++ PAGES ++ ds' ++ DASHES ++ LF :: T' ->
  Forall (fun c => dot c = true) name' ->
  b = name' /\ ds = ds' /\ T = T'.
Proof.
  intros Hb Hds Hds' Heq Hn.
  assert (HnoLF : forall (u : list N) vs,
            Forall (fun c => dot c = true) u ->
            Forall (fun c => isDigit c = true) vs ->
            Forall (fun x => (x =? LF)%N = false) (u ++ PAGES ++ vs ++ DASHES)).
  { intros u vs Hu Hvs. repeat apply Forall_app_2.
    - eapply Forall_impl; [exact Hu|]. apply dot_noLF.
    - apply (bool_decide_unpack _). vm_compute. exact I.
    - eapply Forall_impl; [exact Hvs|]. apply digit_noLF.
    - apply (bool_decide_unpack _). vm_compute. exact I. }
  destruct (first_split_unique (fun c => (c =? LF)%N)
              (b ++ PAGES ++ ds ++ DASHES) (name' ++ PAGES ++ ds' ++ DASHES)
              LF LF T T') as (HX & _ & HT).
  - by apply HnoLF.
  - by apply HnoLF.
  - reflexivity.
  - reflexivity.
  - by rewrite <- !app_assoc.
  - rewrite !(app_assoc _ PAGES), !(app_assoc _ _ DASHES) in HX.
    apply app_inv_tail in HX.
    destruct (run_unique_end isDigit (b ++ PAGES) (name' ++ PAGES) ds ds')
      as [HA HD]; [done|done| | |done|].
    + intros c A' HA'. rewrite PAGES_last, app_assoc in HA'.
      apply app_inj_tail in HA' as [_ <-]. reflexivity.
    + intros c B' HB'. rewrite PAGES_last, app_assoc in HB'.
      apply app_inj_tail in HB' as [_ <-]. reflexivity.
    + apply app_inv_tail in HA. done.
Qed.

(** The page-count pattern on the text of one document. *)
Lemma docRegex_match name ds body tail :
  plainName name ->
  ds <> [] -> Forall (fun c => isDigit c = true) ds ->
  Safe body (LF :: END_ ++ tail) ->
  docRegex (START ++ name ++ PAGES ++ ds ++ DASHES ++ LF :: body
            ++ LF :: END_ ++ tail)
  = Some ((name, ds, body), tail).
Proof.
  intros Hname Hne Hds Hsafe. unfold docRegex.
  rewrite literal_app, bind_Some_eq.
  apply lazy_star_first; [exact Hname| |].
  - (* a shorter name does not fit *)
    intros a b Hab Hb. cbn [app].
    match goal with |- ?lhs = None => destruct lhs as [res|] eqn:E end;
      [exfalso|reflexivity].
    apply bind_Some in E as (s3 & Hl & E). apply literal_Some in Hl.
    apply greedy_plus_Some in E as (ds' & s4 & -> & Hne' & Hds' & E).
    apply bind_Some in E as (s5 & Hl5 & _). apply literal_Some in Hl5.
    subst s4. rewrite <- app_assoc in Hl. cbn [app] in Hl.
    assert (Ha : Forall (fun c => dot c = true) a).
    { unfold plainName in Hname. rewrite Hab in Hname.
      by apply Forall_app in Hname as [? _]. }
    assert (Hb' : Forall (fun c => dot c = true) b).
    { unfold plainName in Hname. rewrite Hab in Hname.
      by apply Forall_app in Hname as [_ ?]. }
    destruct (header_unique b [] ds ds' _ _ Hb' Hds Hds' Hl) as (-> & _);
      [constructor | by apply Hb].
  - (* the whole name does *)
    cbn [app]. rewrite literal_app, bind_Some_eq.
    apply greedy_plus_all; [exact Hne | exact Hds | |].
    { intros c rest' Hrest. rewrite DASHES_first in Hrest.
      injection Hrest as <- _. reflexivity. }
    change (DASHES ++ LF :: body ++ LF :: END_ ++ tail)
      with (DASHES ++ [LF] ++ body ++ LF :: END_ ++ tail).
    rewrite (app_assoc DASHES [LF]), literal_app, bind_Some_eq.
    apply lazy_star_first.
    + by apply Forall_forall.
    + intros b r Hbr Hr. cbn [app]. pose proof (Hsafe b r Hbr Hr) as Hs.
      by rewrite Hs.
    + cbn [app].
      change (LF :: END_ ++ tail) with ((LF :: END_) ++ tail).
      by rewrite literal_app.
Qed.

End ParserFacts.

Section CorpusRoundTrip.

Import Regex Distribution Corpus.

Local Abbreviation START := (js "--- Inicio del documento: ").
Local Abbreviation PAGES := (js " | Páginas: ").
Local Abbreviation DASHES := (js " ---").
Local Abbreviation END_ := (js "--- Fin del documento ---").

Lemma extractTextFromPDFs_unfold fileName pageTexts files :
  extractTextFromPDFs ((fileName, pageTexts) :: files)
  = (START ++ fileName ++ PAGES ++ decimal (length pageTexts) ++ DASHES
     ++ [LF] ++ pagesText 1 pageTexts ++ [LF] ++ END_ ++ [LF; LF])
    ++ extractTextFromPDFs files.
Proof. reflexivity. Qed.

Lemma extractTextFromPDFs_cons fileName pageTexts files :
  extractTextFromPDFs ((fileName, pageTexts) :: files)
  = (START ++ fileName ++ PAGES ++ decimal (length pageTexts) ++ DASHES
     ++ LF :: pagesText 1 pageTexts ++ LF :: END_)
    ++ LF :: LF :: extractTextFromPDFs files.
Proof.
  rewrite extractTextFromPDFs_unfold.
  repeat (rewrite <- app_assoc || rewrite <- app_comm_cons
          || rewrite app_nil_l).
  reflexivity.
Qed.

Lemma exec_loop_corpus files :
  Forall (fun f => plainName (fst f) /\ Forall plainPage (snd f)) files ->
  exec_loop docRegex 0 (extractTextFromPDFs files)
  = map (fun f => (fst f, decimal (length (snd f)), pagesText 1 (snd f)))
        files.
Proof.
  induction 1 as [|[fileName pageTexts] files [Hname Hpages] _ IH].
  - reflexivity.
  - rewrite extractTextFromPDFs_cons. cbn [map fst snd].
    rewrite (exec_loop_match docRegex _ _
               (fileName, decimal (length pageTexts), pagesText 1 pageTexts)).
    + f_equal. rewrite !exec_loop_miss by apply docRegex_LF. exact IH.
    + intros Hnil. apply (f_equal (@length N)) in Hnil.
      rewrite length_app in Hnil. vm_compute (length START) in Hnil.
      discriminate Hnil.
    + repeat (rewrite <- app_assoc || rewrite <- app_comm_cons).
      apply docRegex_match;
        [exact Hname | apply decimal_nonempty | apply decimal_digits
        | by apply pagesText_Safe].
Qed.

End CorpusRoundTrip.

Section CorpusTheorems.

Import Regex Distribution Corpus Examples.

Lemma scanDocs_extractTextFromPDFs_aux files :
  Forall (fun f => plainName (fst f) /\ Forall plainPage (snd f)) files ->
  scanDocs (extractTextFromPDFs files)
  = map (fun f => {| name := fst f;
                     pages := Z2F (Z.of_nat (length (snd f))) |}) files.
Proof.
  intros Hfiles. unfold scanDocs. rewrite exec_loop_corpus by exact Hfiles.
  rewrite map_map. apply map_ext. intros [fileName pageTexts].
  cbn [fst snd]. by rewrite parseInt_decimal.
Qed.

(** X1: the parser reads back what the extractor writes. For files whose
    names hold no line terminator and whose page texts are single lines
    that do not begin with the end marker, [scanDocs] finds in the corpus
    of [extractTextFromPDFs] one document per file, in order, with the
    file's name and its number of pages. *)
Theorem scanDocs_extractTextFromPDFs files :
  Forall (fun f => plainName (fst f) /\ Forall plainPage (snd f)) files ->
  scanDocs (extractTextFromPDFs files)
  = map (fun f => {| name := fst f;
                     pages := Z2F (Z.of_nat (length (snd f))) |}) files.
Proof. apply scanDocs_extractTextFromPDFs_aux. Qed.

Lemma scanDocs_extractTextFromPDFs_witness :
  scanDocs (extractTextFromPDFs pageTexts)
  = map (fun f => {| name := fst f;
                     pages := Z2F (Z.of_nat (length (snd f))) |}) pageTexts.
Proof.
  apply (scanDocs_extractTextFromPDFs pageTexts).
  unfold plainName, plainPage. apply (bool_decide_unpack _).
  vm_compute. exact I.
Defined.

(** A page text that begins with the end marker does end the document
    early: the hypothesis on page texts is needed. *)
Example end_marker_in_page_text :
  map name (scanDocs (extractTextFromPDFs
                        [(js "a.pdf", [js "--- Fin del documento ---"]);
                         (js "b.pdf", [js "x"])]))
  = [js "a.pdf"; js "b.pdf"]
  /\ exec_loop docRegex 0
       (extractTextFromPDFs [(js "a.pdf", [js "--- Fin del documento ---"])])
     = [(js "a.pdf", js "1", js "--- [Página 1] ---")].
Proof. split; vm_compute; reflexivity. Qed.

Lemma forEach_names len totalWeight totalQuestions docs :
  forall index distributedCount,
    map docName (forEach len totalWeight totalQuestions index
                   distributedCount [] docs)
    = map fst docs.
Proof.
  induction docs as [|[nm w] docs IH]; intros index d; [done|].
  rewrite forEach_cons. cbn [map fst docName]. by rewrite IH.
Qed.

(** X2: with at least two documents, the entries carry the documents'
    names in the order of the corpus. *)
Theorem distribution_names text totalQuestions :
  (2 <= length (documents text))%nat ->
  map docName (getQuestionCountsPerDocument text totalQuestions)
  = map fst (documents text).
Proof.
  intros Hlen. rewrite getQuestionCountsPerDocument_documents. cbv zeta.
  destruct (Nat.leb_spec (length (documents text)) 1); [lia|].
  apply forEach_names.
Qed.

Lemma distribution_names_witness :
  map docName (getQuestionCountsPerDocument corpus_100_1_1 3)
  = map fst (documents corpus_100_1_1).
Proof.
  apply (distribution_names corpus_100_1_1 3).
  apply Nat.leb_le. vm_compute. reflexivity.
Defined.

Lemma distribution_sum_witness :
  js_sum (map count (getQuestionCountsPerDocument corpus_100_50 9)) = Num 9.
Proof.
  apply (distribution_sum corpus_100_50 9
           [{| docName := js "doc1.pdf"; count := Num 6 |}]
           {| docName := js "doc2.pdf"; count := Num 3 |} [6%Z]).
  - vm_compute. reflexivity.
  - reflexivity.
  - constructor; [lia | constructor].
  - vm_compute. discriminate.
  - split; [lia|]. vm_compute. discriminate.
Defined.

(** X4: for at least two files fit for the parser, the distribution over
    the extracted corpus has one entry per uploaded file, under the file's
    name and in upload order. *)
Theorem distribution_of_uploaded_files files totalQuestions :
  (2 <= length files)%nat ->
  Forall (fun f => plainName (fst f) /\ Forall plainPage (snd f)) files ->
  map docName
    (getQuestionCountsPerDocument (extractTextFromPDFs files) totalQuestions)
  = map fst files.
Proof.
  intros Hlen Hfiles.
  assert (Hdocs : documents (extractTextFromPDFs files)
                  = map (fun f => (fst f, Z2F (Z.of_nat (length (snd f)))))
                        files).
  { unfold documents. rewrite scanDocs_extractTextFromPDFs_aux by exact Hfiles.
    rewrite length_map. destruct files; [simpl in Hlen; lia|].
    cbn [length Nat.eqb]. by rewrite map_map. }
  rewrite getQuestionCountsPerDocument_documents. cbv zeta.
  rewrite Hdocs, length_map.
  destruct (Nat.leb_spec (length files) 1); [lia|].
  unfold distribute. rewrite forEach_names, map_map. by apply map_ext.
Qed.

Lemma distribution_of_uploaded_files_witness :
  map docName (getQuestionCountsPerDocument (extractTextFromPDFs pageTexts) 5)
  = map fst pageTexts.
Proof.
  apply (distribution_of_uploaded_files pageTexts 5).
  - apply Nat.leb_le. vm_compute. reflexivity.
  - unfold plainName, plainPage. apply (bool_decide_unpack _).
    vm_compute. exact I.
Defined.

End CorpusTheorems.

(** ** The test session *)

Section TestSessionFacts.

Import ExamTestMode TestSession Invariants.

Lemma includes_elem_of selectedOptions idx :
  includes selectedOptions idx = true <-> idx ∈ selectedOptions.
Proof.
  unfold includes. rewrite existsb_exists. split.
  - intros (x & Hx & Heq). apply Z.eqb_eq in Heq as ->.
    by apply list_elem_of_In.
  - intros Hin. exists idx. split; [by apply list_elem_of_In | apply Z.eqb_refl].
Qed.

Lemma initial_ok questions : TestSession_ok questions initial.
Proof.
  unfold TestSession_ok, initial. cbn.
  split; [done|]. split; [lia|]. split; [done|]. split; [done|].
  split; [done|]. split; [done|]. split; [constructor|].
  split; [constructor|]. intros q Hq. constructor.
Qed.

Lemma handleOptionSelect_ok questions settings currentQuestion idx st :
  questions !! currentIndex st = Some currentQuestion ->
  (idx < length (TestQuestion.options currentQuestion))%nat ->
  TestSession_ok questions st ->
  TestSession_ok questions (handleOptionSelect settings (Z.of_nat idx) st).
Proof.
  intros Hq Hidx Hok. unfold handleOptionSelect.
  destruct (isAnswered st) eqn:Hans; [done|].
  destruct Hok as (H1 & H2 & H3 & H4 & H5 & H6 & H7 & H8 & H9).
  specialize (H9 _ Hq).
  assert (Hsel : forall sel, NoDup sel ->
            Forall (fun i => (0 <= i < Z.of_nat
                       (length (TestQuestion.options currentQuestion)))%Z) sel ->
            TestSession_ok questions (withSelection st sel)).
  { intros sel Hnd Hrange. unfold TestSession_ok, withSelection. cbn.
    rewrite Hans. rewrite Hans in H1. repeat (split; [done|]).
    intros q' Hq'. rewrite Hq in Hq'. by injection Hq' as <-. }
  destruct (truthy (allowMultipleCorrect settings)).
  - destruct (includes (selectedOptions st) (Z.of_nat idx)) eqn:Hinc.
    + apply Hsel; [by apply NoDup_filter|].
      apply Forall_forall. intros i Hi. apply list_elem_of_filter in Hi as [_ Hi].
      revert i Hi. by apply Forall_forall.
    + apply Hsel.
      * apply NoDup_app. split; [done|]. split; [|apply NoDup_singleton].
        intros i Hi Hi'. apply list_elem_of_singleton in Hi' as ->.
        apply includes_elem_of in Hi. congruence.
      * apply Forall_app. split; [done|]. constructor; [lia|constructor].
  - apply Hsel; [apply NoDup_singleton|]. constructor; [lia|constructor].
Qed.

Lemma inject_Z_S n :
  (inject_Z (Z.of_nat (S n)) == inject_Z (Z.of_nat n) + 1)%Q.
Proof.
  rewrite Nat2Z.inj_succ. unfold Z.succ. rewrite inject_Z_plus. reflexivity.
Qed.

Lemma at_index_in_range options i :
  (0 <= i < Z.of_nat (length options))%Z -> at_index options i <> None.
Proof.
  intros Hi. unfold at_index. destruct (Z.ltb_spec i 0); [lia|].
  intros Hnone. apply lookup_ge_None in Hnone. lia.
Qed.

Lemma handleSubmit_ok questions settings st st' :
  isAnswered st = false ->
  TestSession_ok questions st ->
  handleSubmit questions settings st = Some st' ->
  TestSession_ok questions st'.
Proof.
  intros Hans Hok. unfold handleSubmit.
  destruct (selectedOptions st) as [|i sel] eqn:Hsel; [by intros [= <-]|].
  destruct (questions !! currentIndex st) as [currentQuestion|] eqn:Hq;
    [|done].
  cbn [mbind option_bind]. intros [= <-].
  destruct Hok as (H1 & H2 & H3 & H4 & H5 & H6 & H7 & H8 & H9).
  specialize (H9 _ Hq). rewrite Hans in H1. rewrite Hsel in H8, H9.
  apply lookup_lt_Some in Hq as Hlt.
  pose proof (inject_Z_S (correct (results st))) as Hc.
  pose proof (inject_Z_S (wrong (results st))) as Hw.
  assert (Hsome : Forall (fun o => o <> None)
            (map (at_index (TestQuestion.options currentQuestion)) (i :: sel))).
  { apply Forall_map. eapply Forall_impl; [exact H9|]. intros x Hx.
    by apply at_index_in_range. }
  unfold TestSession_ok. cbn [summary results currentIndex isAnswered score
    selectedOptions]. rewrite length_app, filter_app, length_app.
  cbn [length].
  destruct (sameSelection (TestQuestion.correctIndices currentQuestion)
              (i :: sel)) eqn:Hsame.
  - rewrite filter_cons_True, filter_nil by done.
    cbn [length correct wrong points].
    split; [lia|]. split; [lia|]. split; [lia|]. split; [lia|].
    split; [lra|]. split; [lra|].
    split; [|split; [done|]].
    + apply Forall_app. split; [done|]. constructor; [|constructor].
      cbn [userSelected]. exact Hsome.
    + intros q' Hq'. rewrite Hq in Hq'. by injection Hq' as <-.
  - rewrite filter_cons_False, filter_nil by done.
    cbn [length correct wrong points].
    split; [lia|]. split; [lia|]. split; [lia|]. split; [lia|].
    split; [destruct (truthy (negativeMarking settings)); lra|].
    split; [destruct (truthy (negativeMarking settings)); lra|].
    split; [|split; [done|]].
    + apply Forall_app. split; [done|]. constructor; [|constructor].
      cbn [userSelected]. exact Hsome.
    + intros q' Hq'. rewrite Hq in Hq'. by injection Hq' as <-.
Qed.

Lemma handleNext_ok questions st :
  isAnswered st = true ->
  TestSession_ok questions st ->
  TestSession_ok questions (handleNext st).
Proof.
  intros Hans (H1 & H2 & H3 & H4 & H5 & H6 & H7 & H8 & H9).
  rewrite Hans in H1. unfold TestSession_ok, handleNext.
  cbn [summary results currentIndex isAnswered score selectedOptions].
  split; [lia|]. repeat (split; [done|]). split; [constructor|].
  intros q' _. constructor.
Qed.

Lemma handleTimeout_ok questions st st' :
  isAnswered st = false ->
  TestSession_ok questions st ->
  handleTimeout questions st = Some st' ->
  TestSession_ok questions st'.
Proof.
  intros Hans Hok. unfold handleTimeout.
  destruct (questions !! currentIndex st) as [currentQuestion|] eqn:Hq;
    [|done].
  cbn [mbind option_bind]. intros [= <-].
  destruct Hok as (H1 & H2 & H3 & H4 & H5 & H6 & H7 & H8 & H9).
  rewrite Hans in H1. apply lookup_lt_Some in Hq as Hlt.
  pose proof (inject_Z_S (wrong (results st))) as Hw.
  unfold TestSession_ok.
  cbn [summary results currentIndex isAnswered score selectedOptions
       correct wrong].
  rewrite length_app, filter_app, length_app, filter_cons_False, filter_nil
    by done.
  cbn [length isCorrect]. rewrite Hans.
  assert (Hans' : (if (length questions - 1 <=? currentIndex st)%nat
                   then false else false) = false) by by destruct (_ <=? _)%nat.
  rewrite Hans'.
  split; [lia|]. split; [lia|]. split; [lia|]. split; [lia|].
  split; [lra|]. split; [lra|].
  split; [|split].
  - apply Forall_app. split; [done|]. constructor; [|constructor].
    cbn [userSelected]. by constructor.
  - destruct (_ <=? _)%nat; [done | constructor].
  - intros q' Hq'. destruct (Nat.leb_spec (length questions - 1) (currentIndex st)).
    + apply lookup_lt_Some in Hq'. lia.
    + constructor.
Qed.

Lemma step_ok questions settings st ev st' :
  TestSession_ok questions st ->
  step questions settings st ev = Some st' ->
  TestSession_ok questions st'.
Proof.
  intros Hok. unfold step.
  destruct (questions !! currentIndex st) as [currentQuestion|] eqn:Hq;
    [|done].
  cbn [mbind option_bind]. destruct ev as [idx| | |].
  - destruct (Nat.ltb_spec idx (length (TestQuestion.options currentQuestion)));
      [|done].
    intros [= <-]. by eapply handleOptionSelect_ok.
  - destruct (isAnswered st) eqn:Hans; [done|].
    destruct (negb _ && negb _); [|done]. by apply handleSubmit_ok.
  - destruct (isAnswered st) eqn:Hans; [|done].
    intros [= <-]. by apply handleNext_ok.
  - destruct (isAnswered st) eqn:Hans;
      [by rewrite andb_false_r|].
    destruct (hasTimeLimit settings && negb false); [|done].
    by apply handleTimeout_ok.
Qed.

Lemma run_ok questions settings events : forall st st',
  TestSession_ok questions st ->
  run questions settings st events = Some st' ->
  TestSession_ok questions st'.
Proof.
  induction events as [|ev events IH]; intros st st' Hok; cbn [run].
  - by intros [= <-].
  - destruct (step questions settings st ev) as [st1|] eqn:Hstep; [|done].
    cbn [mbind option_bind]. apply IH. by eapply step_ok.
Qed.


Lemma Qfloor_ge z x : (z <= Qfloor x)%Z <-> (inject_Z z <= x)%Q.
Proof.
  split.
  - intros Hz. apply Qle_trans with (inject_Z (Qfloor x)); [|apply Qfloor_le].
    by rewrite <- Zle_Qle.
  - intros Hz. destruct (Z.le_gt_cases z (Qfloor x)) as [|Hlt]; [done|].
    exfalso. apply (Qlt_irrefl x).
    apply Qlt_le_trans with (inject_Z (Qfloor x + 1)); [apply Qlt_floor|].
    apply Qle_trans with (inject_Z z); [|done]. rewrite <- Zle_Qle. lia.
Qed.

Lemma Qdiv_le_iff a b c :
  (0 < c)%Q -> (a <= b / c)%Q <-> (a * c <= b)%Q.
Proof.
  intros Hc. split; intros H.
  - apply Qle_trans with (b / c * c)%Q.
    + apply Qmult_le_compat_r; [done | by apply Qlt_le_weak].
    + rewrite Qmult_comm, Qmult_div_r; [apply Qle_refl|].
      intros H0. apply (Qlt_not_eq _ _ Hc). by symmetry.
  - by apply Qle_shift_div_l.
Qed.

Lemma count_pos (n : nat) : (0 < inject_Z (Z.of_nat (S n)))%Q.
Proof. unfold Qlt, inject_Z. cbn [Qnum Qden]. lia. Qed.

Lemma grade_S q0 questions score :
  grade (q0 :: questions) score
  = Num (Qfloor (Qmax 0 (score / inject_Z (Z.of_nat (S (length questions)))
                         * 10) + (1 # 2))).
Proof. reflexivity. Qed.

Lemma grade_range questions score :
  questions <> [] ->
  (score <= inject_Z (Z.of_nat (length questions)))%Q ->
  exists g, grade questions score = Num g /\ (0 <= g <= 10)%Z.
Proof.
  intros Hne Hle. destruct questions as [|q0 questions]; [done|].
  rewrite grade_S. cbn [length] in Hle. eexists. split; [reflexivity|].
  pose proof (count_pos (length questions)) as Hn.
  set (N := inject_Z (Z.of_nat (S (length questions)))) in *.
  assert (Hy : (score / N * 10 <= 10)%Q).
  { apply Qle_trans with (1 * 10)%Q; [|discriminate].
    apply Qmult_le_compat_r; [|discriminate].
    apply Qle_shift_div_r; [done|]. by rewrite Qmult_1_l. }
  split.
  - apply Qfloor_ge. change (inject_Z 0) with 0%Q.
    pose proof (Q.le_max_l 0 (score / N * 10)) as Hmax.
    revert Hmax. generalize (Qmax 0 (score / N * 10)). intros t Ht. clear -Ht. lra.
  - apply (Z.le_trans _ (Qfloor (10 + (1 # 2)))); [|done].
    apply Qfloor_resp_le.
    assert (Hmax : (Qmax 0 (score / N * 10) <= 10)%Q)
      by (apply Q.max_lub; [discriminate | done]).
    revert Hmax. generalize (Qmax 0 (score / N * 10)). intros t Ht. clear -Ht. lra.
Qed.



(** X6: a finished test session has a summary row for every question, and
    its grade (in exact arithmetic) is a whole number from 0 to 10. *)
Theorem finished_test_session questions settings events st :
  run questions settings initial events = Some st ->
  isFinished questions st = true ->
  questions <> [] ->
  length (summary st) = length questions
  /\ exists g, grade questions (score st) = Num g /\ (0 <= g <= 10)%Z.
Proof.
  intros Hrun Hfin Hne. apply run_ok in Hrun; [|apply initial_ok].
  destruct Hrun as (H1 & H2 & H3 & H4 & H5 & H6 & _).
  unfold isFinished in Hfin. apply Nat.leb_le in Hfin.
  assert (Hrows : length (summary st) = length questions).
  { destruct (isAnswered st); lia. }
  split; [done|]. apply grade_range; [done|].
  apply Qle_trans with (inject_Z (Z.of_nat (correct (results st)))); [done|].
  rewrite <- Zle_Qle. lia.
Qed.

Lemma finished_test_session_witness :
  exists st,
    run Examples.twoQuestions Examples.timedSettings initial Examples.clicks
    = Some st
    /\ length (summary st) = length Examples.twoQuestions
    /\ exists g, grade Examples.twoQuestions (score st) = Num g
                 /\ (0 <= g <= 10)%Z.
Proof.
  eexists. split; [vm_compute; reflexivity|].
  apply (finished_test_session Examples.twoQuestions Examples.timedSettings
           Examples.clicks).
  - vm_compute. reflexivity.
  - vm_compute. reflexivity.
  - discriminate.
Defined.

(** X7: a test is passed exactly when the score is at least 45% of the
    number of questions (the grade is rounded before it is compared
    with 5). *)
Theorem pass_threshold questions score :
  questions <> [] ->
  isPass questions score = true
  <-> (9 * inject_Z (Z.of_nat (length questions)) <= 20 * score)%Q.
Proof.
  intros Hne. destruct questions as [|q0 questions]; [done|].
  unfold isPass. rewrite grade_S. cbn [js_geb length].
  pose proof (count_pos (length questions)) as Hn.
  set (N := inject_Z (Z.of_nat (S (length questions)))) in *.
  rewrite Z.leb_le, Qfloor_ge. change (inject_Z 5) with 5%Q.
  pose proof (Qdiv_le_iff (9 # 20) score N Hn) as Hdiv. clearbody N.
  assert (Hlin : (9 * N <= 20 * score)%Q <-> ((9 # 20) * N <= score)%Q)
    by (clear; split; lra).
  rewrite Hlin, <- Hdiv. generalize (score / N)%Q. clear. intros y.
  destruct (Q.max_spec 0 (y * 10)) as [[Hlt ->]|[Hle ->]]; split; lra.
Qed.



Lemma pass_threshold_witness :
  isPass Examples.twoQuestions 1 = true
  <-> (9 * inject_Z (Z.of_nat (length Examples.twoQuestions)) <= 20 * 1)%Q.
Proof. apply (pass_threshold Examples.twoQuestions 1). discriminate. Defined.

(** X8: with several correct answers allowed, a click on an option of an
    unanswered question toggles that option and leaves the others as they
    are. *)
Theorem handleOptionSelect_toggles settings idx st :
  isAnswered st = false ->
  truthy (allowMultipleCorrect settings) = true ->
  forall i,
    i ∈ selectedOptions (handleOptionSelect settings idx st)
    <-> (i = idx /\ i ∉ selectedOptions st)
        \/ (i <> idx /\ i ∈ selectedOptions st).
Proof.
  intros Hans Hmulti i. unfold handleOptionSelect. rewrite Hans, Hmulti.
  destruct (includes (selectedOptions st) idx) eqn:Hinc;
    cbn [withSelection selectedOptions].
  - apply includes_elem_of in Hinc. rewrite list_elem_of_filter.
    destruct (Z.eqb_spec i idx) as [->|Hne]; cbn [negb]; split.
    + by intros [[] _].
    + by intros [[_ Hn]|[Hn _]].
    + intros [_ Hi]. by right.
    + intros [[-> _]|[_ Hi]]; done.
  - assert (Hnot : idx ∉ selectedOptions st).
    { intros Hin. apply includes_elem_of in Hin. congruence. }
    rewrite elem_of_app, list_elem_of_singleton. split.
    + intros [Hi| ->]; [right | by left]. split; [|done]. by intros ->.
    + intros [[-> _]|[_ Hi]]; [by right | by left].
Qed.

Lemma handleOptionSelect_toggles_witness :
  2%Z ∈ selectedOptions
         (handleOptionSelect Examples.timedSettings 2 (Examples.selecting [0]%Z))
  <-> (2%Z = 2%Z /\ 2%Z ∉ selectedOptions (Examples.selecting [0]%Z))
      \/ (2%Z <> 2%Z /\ 2%Z ∈ selectedOptions (Examples.selecting [0]%Z)).
Proof.
  apply (handleOptionSelect_toggles Examples.timedSettings 2
           (Examples.selecting [0]%Z)); reflexivity.
Defined.

End TestSessionFacts.

(** ** The open-answer session *)

Section OpenSessionFacts.

Import ExamOpenMode OpenSession Invariants.

Lemma open_initial_ok questions : OpenSession_ok questions initial.
Proof.
  unfold OpenSession_ok, initial, unanswered. cbn.
  split; [done|]. split; lia.
Qed.

Lemma handleNextStep_ok questions st :
  (currentIndex st < length questions)%nat ->
  (length (summary st) <= S (currentIndex st))%nat ->
  OpenSession_ok questions st ->
  OpenSession_ok questions (handleNextStep questions st).
Proof.
  intros Hlt Hrows (H1 & H2 & H3). unfold handleNextStep.
  destruct (Nat.ltb_spec (S (currentIndex st)) (length questions)).
  - unfold OpenSession_ok, unanswered.
    cbn [summary totalScore currentIndex evaluation showModelAnswer negb].
    split; [done|]. split; [lia|done].
  - unfold OpenSession_ok, unanswered in *.
    cbn [summary totalScore currentIndex evaluation showModelAnswer].
    split; [done|]. split; [|done].
    destruct (evaluation st); [lia|]. destruct (negb (showModelAnswer st)); lia.
Qed.

Lemma handleCheck_ok questions settings evaluator st st' requests :
  unanswered st = true ->
  OpenSession_ok questions st ->
  handleCheck questions settings evaluator st = Some (st', requests) ->
  OpenSession_ok questions st'.
Proof.
  intros Hun (H1 & H2 & H3). unfold handleCheck.
  destruct (questions !! currentIndex st) as [currentQuestion|] eqn:Hq;
    [|done].
  cbn [mbind option_bind]. apply lookup_lt_Some in Hq as Hlt.
  rewrite Hun in H2.
  destruct (bool_decide (trim (userAnswer st) = [])).
  - intros [= <- _]. unfold OpenSession_ok, unanswered.
    cbn [summary totalScore currentIndex evaluation showModelAnswer negb].
    rewrite filter_app, !length_app, filter_cons_False, filter_nil by done.
    cbn [length]. split; [lia|]. split; [|lia].
    destruct (evaluation st); lia.
  - destruct (evaluator _) as [result|].
    + intros [= <- _]. unfold OpenSession_ok, unanswered.
      cbn [summary totalScore currentIndex evaluation showModelAnswer].
      rewrite filter_app, !length_app. cbn [length].
      split; [|split; lia].
      destruct (Z.eqb_spec (Evaluation.score result) 1) as [Hone|Hone].
      * rewrite filter_cons_True, filter_nil by done. cbn [length]. lia.
      * rewrite filter_cons_False, filter_nil by done. cbn [length]. lia.
    + intros [= <- _]. unfold OpenSession_ok, unanswered.
      cbn [summary totalScore currentIndex evaluation showModelAnswer].
      split; [done|]. split; lia.
Qed.

Lemma open_handleTimeout_ok questions st st' :
  unanswered st = true ->
  OpenSession_ok questions st ->
  handleTimeout questions st = Some st' ->
  OpenSession_ok questions st'.
Proof.
  intros Hun (H1 & H2 & H3). unfold handleTimeout.
  destruct (questions !! currentIndex st) as [currentQuestion|] eqn:Hq;
    [|done].
  cbn [mbind option_bind]. apply lookup_lt_Some in Hq as Hlt.
  rewrite Hun in H2. intros [= <-].
  unfold handleNextStep.
  cbn [summary totalScore currentIndex evaluation showModelAnswer userAnswer
       isEvaluating].
  destruct (Nat.ltb_spec (S (currentIndex st)) (length questions));
    unfold OpenSession_ok;
    cbn [summary totalScore currentIndex evaluation showModelAnswer];
    rewrite filter_app, !length_app, filter_cons_False, filter_nil by done;
    cbn [length]; (split; [lia|]); (split; [|lia]).
  - unfold unanswered. cbn. lia.
  - destruct (unanswered _); lia.
Qed.

Lemma open_step_ok questions settings evaluator st ev st' :
  OpenSession_ok questions st ->
  step questions settings evaluator st ev = Some st' ->
  OpenSession_ok questions st'.
Proof.
  intros Hok. unfold step.
  destruct (Nat.leb_spec (length questions) (currentIndex st)); [done|].
  destruct ev as [text| | |].
  - destruct (unanswered st && negb (isEvaluating st)); [|done].
    intros [= <-]. exact Hok.
  - destruct (unanswered st) eqn:Hun; [|done].
    destruct (true && negb (isEvaluating st)); [|done].
    destruct (handleCheck questions settings evaluator st)
      as [[st1 requests]|] eqn:Hcheck; [|done].
    intros [= <-]. by eapply handleCheck_ok.
  - destruct (unanswered st) eqn:Hun; [done|].
    intros [= <-]. apply handleNextStep_ok; [done| |done].
    destruct Hok as (_ & H2 & _). rewrite Hun in H2. lia.
  - destruct (unanswered st) eqn:Hun;
      [|by rewrite andb_false_r].
    destruct (hasTimeLimit settings && true && negb (isEvaluating st));
      [|done].
    by apply open_handleTimeout_ok.
Qed.

Lemma open_run_ok questions settings evaluator events : forall st st',
  OpenSession_ok questions st ->
  run questions settings evaluator st events = Some st' ->
  OpenSession_ok questions st'.
Proof.
  induction events as [|ev events IH]; intros st st' Hok; cbn [run].
  - by intros [= <-].
  - destruct (step questions settings evaluator st ev) as [st1|] eqn:Hstep;
      [|done].
    cbn [mbind option_bind]. apply IH. by eapply open_step_ok.
Qed.


Lemma open_grade_S q0 questions totalScore :
  grade (q0 :: questions) totalScore
  = Num (Qfloor (inject_Z totalScore
                 / inject_Z (Z.of_nat (S (length questions))) * 10
                 + (1 # 2))).
Proof. reflexivity. Qed.

(** X9: whatever the user, the timer and the evaluator do from the start
    of an open-answer session, the total score is the number of summary
    rows marked 1, and there is at most one row per question passed or
    answered. *)
Theorem open_session_invariant questions settings evaluator events st :
  run questions settings evaluator initial events = Some st ->
  OpenSession_ok questions st.
Proof. apply open_run_ok, open_initial_ok. Qed.

Lemma open_session_invariant_witness :
  exists st,
    run Examples.twoOpenQuestions (Some Examples.openTimed) Examples.accepting
      initial Examples.openEvents = Some st
    /\ OpenSession_ok Examples.twoOpenQuestions st.
Proof.
  eexists. split; [vm_compute; reflexivity|].
  apply (open_session_invariant Examples.twoOpenQuestions
           (Some Examples.openTimed) Examples.accepting Examples.openEvents).
  vm_compute. reflexivity.
Defined.

(** X10: the grade of an open-answer session (in exact arithmetic) is a
    whole number from 0 to 10 at every moment. *)
Theorem open_session_grade questions settings evaluator events st :
  run questions settings evaluator initial events = Some st ->
  questions <> [] ->
  exists g, grade questions (totalScore st) = Num g /\ (0 <= g <= 10)%Z.
Proof.
  intros Hrun Hne. apply open_run_ok in Hrun; [|apply open_initial_ok].
  destruct Hrun as (H1 & _ & H3).
  pose proof (length_filter (fun row => score row = 1%Z) (summary st))
    as Hfilter.
  destruct questions as [|q0 questions]; [done|].
  rewrite open_grade_S. eexists. split; [reflexivity|].
  cbn [length] in H3.
  assert (Hn : (0 < inject_Z (Z.of_nat (S (length questions))))%Q).
  { unfold Qlt, inject_Z. cbn [Qnum Qden]. lia. }
  assert (Hlo : (0 <= inject_Z (totalScore st)
                      / inject_Z (Z.of_nat (S (length questions))))%Q).
  { apply Qle_shift_div_l; [done|]. rewrite Qmult_0_l.
    change 0%Q with (inject_Z 0). rewrite <- Zle_Qle. lia. }
  assert (Hhi : (inject_Z (totalScore st)
                 / inject_Z (Z.of_nat (S (length questions))) <= 1)%Q).
  { apply Qle_shift_div_r; [done|]. rewrite Qmult_1_l, <- Zle_Qle. lia. }
  revert Hlo Hhi. generalize (inject_Z (totalScore st)
    / inject_Z (Z.of_nat (S (length questions))))%Q. clear. intros y Hlo Hhi.
  split.
  - apply Qfloor_ge. change (inject_Z 0) with 0%Q. lra.
  - apply (Z.le_trans _ (Qfloor (10 + (1 # 2)))); [|done].
    apply Qfloor_resp_le. lra.
Qed.

Lemma open_session_grade_witness :
  exists st,
    run Examples.twoOpenQuestions (Some Examples.openTimed) Examples.accepting
      initial Examples.openEvents = Some st
    /\ exists g, grade Examples.twoOpenQuestions (totalScore st) = Num g
                 /\ (0 <= g <= 10)%Z.
Proof.
  eexists. split; [vm_compute; reflexivity|].
  apply (open_session_grade Examples.twoOpenQuestions
           (Some Examples.openTimed) Examples.accepting Examples.openEvents).
  - vm_compute. reflexivity.
  - discriminate.
Defined.

(** An evaluation that fails leaves its question without a summary row:
    the session can finish with fewer rows than questions. *)
Example failed_evaluation_leaves_no_row :
  (fun st => (currentIndex st, length (summary st)))
    <$> run [Examples.openQuestion] (Some Examples.openTimed)
          Examples.failing initial
          [Type_ (js "Una estrella"); Check; Next]
  = Some (1%nat, 0%nat).
Proof. vm_compute. reflexivity. Qed.

End OpenSessionFacts.

(** ** Attributions and links *)

Section LinkFacts.

Import Regex Link Corpus.

Local Abbreviation PAG := (js "(Pág.").
Local Abbreviation CLOSE := (js ")").

Lemma dropWhile_head p s c t : dropWhile p s = c :: t -> p c = false.
Proof.
  induction s as [|x s IH]; [done|]. cbn [dropWhile].
  destruct (p x) eqn:Hx; [exact IH|]. by intros [= <- _].
Qed.

(** A trimmed text that is not empty ends in a character that is not
    white space. *)
Lemma trim_last s :
  trim s = s -> s <> [] ->
  exists front c, s = front ++ [c] /\ isWhiteSpace c = false.
Proof.
  intros Htrim Hne. unfold trim in Htrim.
  destruct (dropWhile isWhiteSpace (rev (dropWhile isWhiteSpace s)))
    as [|c t] eqn:Hd.
  - by rewrite <- Htrim in Hne.
  - exists (rev t), c. split; [by rewrite <- Htrim|].
    by eapply dropWhile_head.
Qed.

Lemma digit_not_space c : isDigit c = true -> isWhiteSpace c = false.
Proof.
  unfold isDigit, isWhiteSpace. intros H.
  apply andb_true_iff in H as [H1 H2].
  apply N.leb_le in H1. apply N.leb_le in H2.
  rewrite (proj2 (N.leb_gt c 13)) by lia.
  rewrite (proj2 (N.leb_gt 8192 c)) by lia.
  rewrite !(proj2 (N.eqb_neq c _)) by lia.
  by rewrite andb_false_r.
Qed.

Lemma space_not_digit c : isWhiteSpace c = true -> isDigit c = false.
Proof.
  intros Hw. destruct (isDigit c) eqn:Hd; [|done].
  apply digit_not_space in Hd. congruence.
Qed.


Lemma greedy_star_one {A} ok (k : list N -> list N -> option A) acc c rest r :
  ok c = true ->
  (forall x rest', rest = x :: rest' -> ok x = false) ->
  k (acc ++ [c]) rest = Some r ->
  greedy_star ok k acc (c :: rest) = Some r.
Proof.
  intros Hc Hrest Hk.
  apply (greedy_star_all ok k [c] acc rest r); [by constructor|done|done].
Qed.

Lemma PAG_first : PAG = 40%N :: js "Pág.".
Proof. vm_compute. reflexivity. Qed.

Lemma PAG_last : PAG = js "(Pág" ++ [46%N].
Proof. vm_compute. reflexivity. Qed.

Lemma CLOSE_eq : CLOSE = [41%N].
Proof. vm_compute. reflexivity. Qed.

Lemma ends_in_PAG (x : list N) front c :
  x ++ PAG = front ++ [c] -> c = 46%N.
Proof.
  rewrite PAG_last, app_assoc. intros Heq.
  by apply app_inj_tail in Heq as [_ <-].
Qed.

(** What the pattern's tail can match: white space, the page marker, white
    space, digits and the closing parenthesis, up to the end. *)
Lemma tail_Some {A} (f : list N -> option A) s r :
  greedy_star isWhiteSpace (fun _ s2 =>
    s3 ← literal PAG s2;
    greedy_star isWhiteSpace (fun _ s4 =>
      greedy_plus isDigit (fun pageNum s5 =>
        s6 ← literal CLOSE s5;
        match s6 with
        | [] => f pageNum
        | _ :: _ => None
        end) s4) [] s3) [] s = Some r ->
  exists ws1 ws2 d,
    s = ws1 ++ PAG ++ ws2 ++ d ++ CLOSE
    /\ Forall (fun c => isWhiteSpace c = true) ws1
    /\ Forall (fun c => isWhiteSpace c = true) ws2
    /\ d <> [] /\ Forall (fun c => isDigit c = true) d
    /\ f d = Some r.
Proof.
  intros H. apply greedy_star_Some in H as (ws1 & rest1 & -> & Hws1 & H).
  destruct (literal PAG rest1) as [s3|] eqn:Hl; [|discriminate].
  apply literal_Some in Hl as ->. rewrite bind_Some_eq in H.
  apply greedy_star_Some in H as (ws2 & rest2 & -> & Hws2 & H).
  apply greedy_plus_Some in H as (d & rest3 & -> & Hd & Hds & H).
  destruct (literal CLOSE rest3) as [s6|] eqn:Hl; [|discriminate].
  apply literal_Some in Hl as ->. rewrite bind_Some_eq in H.
  destruct s6; [|discriminate]. rewrite app_nil_r.
  exists ws1, ws2, d. done.
Qed.

Lemma tail_match {A} (f : list N -> option A) ds r :
  ds <> [] -> Forall (fun c => isDigit c = true) ds ->
  f ds = Some r ->
  greedy_star isWhiteSpace (fun _ s2 =>
    s3 ← literal PAG s2;
    greedy_star isWhiteSpace (fun _ s4 =>
      greedy_plus isDigit (fun pageNum s5 =>
        s6 ← literal CLOSE s5;
        match s6 with
        | [] => f pageNum
        | _ :: _ => None
        end) s4) [] s3) [] (32%N :: PAG ++ 32%N :: ds ++ CLOSE) = Some r.
Proof.
  intros Hne Hds Hf.
  apply greedy_star_one; [done| |].
  { rewrite PAG_first. intros x rest' [= <- _]. done. }
  rewrite literal_app, bind_Some_eq.
  apply greedy_star_one; [done| |].
  { destruct ds as [|d0 ds']; [done|]. intros x rest'.
    rewrite <- app_comm_cons. intros [= <- _].
    inversion Hds; subst. by apply digit_not_space. }
  apply greedy_plus_all; [done|done| |].
  { rewrite CLOSE_eq. by intros x rest' [= <- _]. }
  rewrite <- (app_nil_r CLOSE) at 2. by rewrite literal_app, bind_Some_eq.
Qed.

Lemma attribution_assoc (b P ds C : list N) :
  b ++ 32%N :: P ++ 32%N :: ds ++ C
  = ((((b ++ [32%N]) ++ P) ++ [32%N]) ++ ds) ++ C.
Proof. by rewrite <- !app_assoc. Qed.

(** The tail of an attribution is read in one way. *)
Lemma tail_unique b ds ws1 ws2 d :
  b ++ 32%N :: PAG ++ 32%N :: ds ++ CLOSE = ws1 ++ PAG ++ ws2 ++ d ++ CLOSE ->
  Forall (fun c => isWhiteSpace c = true) ws1 ->
  Forall (fun c => isWhiteSpace c = true) ws2 ->
  Forall (fun c => isDigit c = true) ds ->
  Forall (fun c => isDigit c = true) d ->
  ws1 = b ++ [32%N] /\ d = ds.
Proof.
  intros Heq Hws1 Hws2 Hds Hd.
  rewrite attribution_assoc in Heq.
  rewrite (app_assoc ws1), (app_assoc _ ws2), (app_assoc _ d) in Heq.
  apply app_inv_tail in Heq.
  apply (run_unique_end isDigit) in Heq as [Heq ->]; [|done|done| |].
  - apply (run_unique_end isWhiteSpace) in Heq as [Heq _];
      [|by constructor|done| |].
    + apply app_inv_tail in Heq. done.
    + intros c A' HA. by rewrite (ends_in_PAG _ _ _ HA).
    + intros c B' HB. by rewrite (ends_in_PAG _ _ _ HB).
  - intros c A' HA. by apply app_inj_tail in HA as [_ <-].
  - intros c B' HB. destruct ws2 as [|x ws2 _] using rev_ind.
    + rewrite app_nil_r in HB. by rewrite (ends_in_PAG _ _ _ HB).
    + rewrite app_assoc in HB. apply app_inj_tail in HB as [_ <-].
      apply space_not_digit. apply Forall_app in Hws2 as [_ Hx].
      by inversion Hx.
Qed.


Lemma sourceFileRegex_name name ds :
  name <> [] -> plainName name ->
  (forall front c, name = front ++ [c] -> isWhiteSpace c = false) ->
  ds <> [] -> Forall (fun c => isDigit c = true) ds ->
  sourceFileRegex (name ++ 32%N :: PAG ++ 32%N :: ds ++ CLOSE)
  = Some (name, ds).
Proof.
  intros Hne Hname Hlast Hds Hdigits.
  destruct name as [|c0 name']; [done|].
  inversion Hname as [|? ? Hc0 Hname']; subst.
  unfold sourceFileRegex. rewrite <- app_comm_cons. unfold lazy_plus.
  rewrite Hc0. apply lazy_star_first; [done| |].
  - intros a b -> Hb.
    match goal with |- ?lhs = None => destruct lhs as [r|] eqn:H end; [|done].
    exfalso.
    apply tail_Some in H as (ws1 & ws2 & d & Heq & Hws1 & Hws2 & _ & Hd & _).
    apply tail_unique in Heq as [-> _]; [|done..].
    apply Forall_app in Hws1 as [Hb' _].
    destruct b as [|x b _] using rev_ind; [done|].
    apply Forall_app in Hb' as [_ Hx]. inversion Hx as [|? ? Hx' _]; subst.
    rewrite (Hlast ((c0 :: a) ++ b) x) in Hx'; [done|].
    by rewrite <- app_assoc.
  - by apply tail_match.
Qed.

Lemma attribution_eq (name ds : list N) :
  name ++ js " (Pág. " ++ ds ++ CLOSE
  = name ++ 32%N :: PAG ++ 32%N :: ds ++ CLOSE.
Proof.
  assert (Hjs : js " (Pág. " = 32%N :: PAG ++ [32%N])
    by (vm_compute; reflexivity).
  rewrite Hjs. generalize PAG. intros P.
  by rewrite <- app_comm_cons, <- app_assoc.
Qed.

Lemma sourceFileRegex_trimmed name ds :
  name <> [] -> plainName name -> trim name = name ->
  ds <> [] -> Forall (fun c => isDigit c = true) ds ->
  sourceFileRegex (name ++ js " (Pág. " ++ ds ++ CLOSE) = Some (name, ds).
Proof.
  intros Hne Hname Htrim Hds Hdigits. rewrite attribution_eq.
  apply sourceFileRegex_name; [done|done| |done|done].
  intros front c Heq.
  destruct (trim_last name Htrim Hne) as (front' & c' & Heq' & Hc').
  rewrite Heq' in Heq. by apply app_inj_tail in Heq as [_ <-].
Qed.

(** What a match of the attribution pattern gives: a file name of at least
    one character and a page number of at least one digit. *)
Lemma sourceFileRegex_Some s filename pageNum :
  sourceFileRegex s = Some (filename, pageNum) ->
  filename <> [] /\ pageNum <> []
  /\ Forall (fun c => isDigit c = true) pageNum.
Proof.
  unfold sourceFileRegex. intros H.
  apply lazy_plus_Some in H as (a & b & -> & Ha & _ & H).
  apply tail_Some in H as (ws1 & ws2 & d & _ & _ & _ & Hd & Hds & [= <- <-]).
  done.
Qed.


Lemma jsstring_eqb_eq a b : jsstring_eqb a b = true <-> a = b.
Proof. unfold jsstring_eqb. apply bool_decide_eq_true. Qed.

Lemma Map_get_set {V} (m : Map V) key v key' :
  Map_get (Upload.Map_set m key v) key'
  = if jsstring_eqb key key' then Some v else Map_get m key'.
Proof.
  induction m as [|[k0 v0] m IH]; [done|]. cbn [Upload.Map_set].
  destruct (jsstring_eqb k0 key) eqn:Hk; cbn [Map_get].
  - apply jsstring_eqb_eq in Hk as ->. by destruct (jsstring_eqb key key').
  - rewrite IH. destruct (jsstring_eqb k0 key') eqn:Hk'; [|done].
    apply jsstring_eqb_eq in Hk' as <-.
    destruct (jsstring_eqb key k0) eqn:Hk'; [|done].
    apply jsstring_eqb_eq in Hk' as ->. by rewrite jsstring_eqb_refl in Hk.
Qed.

Lemma fold_Map_set_other files : forall (m : Map File) key,
  key ∉ map file_name files ->
  Map_get (fold_left (fun m file => Upload.Map_set m (file_name file) file)
             files m) key
  = Map_get m key.
Proof.
  induction files as [|f0 files IH]; intros m key Hkey; [done|].
  cbn [fold_left]. rewrite IH.
  - rewrite Map_get_set. destruct (jsstring_eqb (file_name f0) key) eqn:Hk;
      [|done].
    apply jsstring_eqb_eq in Hk. exfalso. apply Hkey. rewrite <- Hk. by left.
  - intros Hin. apply Hkey. by right.
Qed.

(** A file uploaded under a name no other file has is found by its name. *)
Lemma filesMap_get files f :
  NoDup (map file_name files) -> f ∈ files ->
  Map_get (Upload.filesMap files) (file_name f) = Some f.
Proof.
  unfold Upload.filesMap. generalize (@nil (jsstring * File)).
  induction files as [|f0 files IH]; intros m Hnd Hin.
  - by apply elem_of_nil in Hin.
  - cbn [map] in Hnd. apply NoDup_cons in Hnd as [Hf0 Hnd].
    cbn [fold_left]. apply elem_of_cons in Hin as [->|Hin].
    + rewrite fold_Map_set_other by done.
      by rewrite Map_get_set, jsstring_eqb_refl.
    + by apply IH.
Qed.

Lemma Map_get_elem {V} (m : Map V) key v :
  Map_get m key = Some v -> (key, v) ∈ m.
Proof.
  induction m as [|[k0 v0] m IH]; [done|]. cbn [Map_get].
  destruct (jsstring_eqb k0 key) eqn:Hk.
  - apply jsstring_eqb_eq in Hk as ->. intros [= ->]. by left.
  - intros H. right. by apply IH.
Qed.

Lemma fuzzyFind_elem `{Engine} (m : Map File) baseName v :
  fuzzyFind m baseName = Some v -> exists key, (key, v) ∈ m.
Proof.
  induction m as [|[k0 v0] m IH]; [done|]. cbn [fuzzyFind].
  destruct (jsstring_eqb _ _).
  - intros [= ->]. exists k0. by left.
  - intros Hf. destruct (IH Hf) as [key Hkey]. exists key. by right.
Qed.

Lemma open_createPDFLink_exact `{Engine} uploadedFiles c cs filename pageNum
    file :
  sourceFileRegex (c :: cs) = Some (filename, pageNum) ->
  Map_get uploadedFiles (trim filename) = Some file ->
  ExamOpenMode.createPDFLink (Some uploadedFiles) (Some (c :: cs))
  = linkTo file pageNum (c :: cs).
Proof.
  intros Hm Hget. unfold ExamOpenMode.createPDFLink. by rewrite Hm, Hget.
Qed.

(** X11: the attribution pattern reads a file name followed by
    " (Pág. n)" back as that name and that page number, when the name has
    no line terminator and no white space at its ends. *)
Theorem attribution_parses name ds :
  name <> [] -> plainName name -> trim name = name ->
  ds <> [] -> Forall (fun c => isDigit c = true) ds ->
  sourceFileRegex (name ++ js " (Pág. " ++ ds ++ js ")") = Some (name, ds).
Proof. apply sourceFileRegex_trimmed. Qed.

Lemma attribution_parses_witness :
  sourceFileRegex (js "Tema (1) .pdf" ++ js " (Pág. " ++ js "12" ++ js ")")
  = Some (js "Tema (1) .pdf", js "12").
Proof.
  apply (attribution_parses (js "Tema (1) .pdf") (js "12")).
  - vm_compute. discriminate.
  - unfold plainName. apply (bool_decide_unpack _). vm_compute. exact I.
  - vm_compute. reflexivity.
  - vm_compute. discriminate.
  - apply (bool_decide_unpack _). vm_compute. exact I.
Defined.

(** [createPDFLink] is the link made for its target, or the plain text. *)
Lemma testMode_link `{Engine} uploadedFiles sourceFile :
  ExamTestMode.createPDFLink uploadedFiles sourceFile
  = match Target.testMode uploadedFiles sourceFile with
    | Some (file, pageNum) => linkTo file pageNum (default [] sourceFile)
    | None => {| url := None; display := default [] sourceFile |}
    end.
Proof.
  unfold ExamTestMode.createPDFLink, Target.testMode.
  destruct sourceFile as [[|c cs]|], uploadedFiles as [m|]; try reflexivity.
  destruct (sourceFileRegex (c :: cs)) as [[filename pageNum]|];
    [|reflexivity].
  cbv zeta. destruct (Map_get m (trim filename)); [reflexivity|].
  by destruct (fuzzyFind m _).
Qed.

Lemma openMode_link `{Engine} uploadedFiles sourceFile :
  ExamOpenMode.createPDFLink uploadedFiles sourceFile
  = match Target.openMode uploadedFiles sourceFile with
    | Some (file, pageNum) => linkTo file pageNum (default [] sourceFile)
    | None => {| url := None; display := default [] sourceFile |}
    end.
Proof.
  unfold ExamOpenMode.createPDFLink, Target.openMode.
  destruct sourceFile as [[|c cs]|], uploadedFiles as [m|]; try reflexivity.
  destruct (sourceFileRegex (c :: cs)) as [[filename pageNum]|];
    [|reflexivity].
  cbv zeta. by destruct (Map_get m (trim filename)).
Qed.

Lemma openMode_testMode `{Engine} uploadedFiles sourceFile target :
  Target.openMode uploadedFiles sourceFile = Some target ->
  Target.testMode uploadedFiles sourceFile = Some target.
Proof.
  unfold Target.openMode, Target.testMode.
  destruct sourceFile as [[|c cs]|], uploadedFiles as [m|]; try done.
  destruct (sourceFileRegex (c :: cs)) as [[filename pageNum]|]; [|done].
  cbv zeta. by destruct (Map_get m (trim filename)).
Qed.

(** X12: after an upload of files with distinct names, take the name of
    one of them, not empty, without line terminator and without white
    space at its ends: for the attribution made of that name and
    " (Pág. n)", [createPDFLink] reaches [URL.createObjectURL] with that
    file and page n in test, cloze and open mode alike, and each mode shows
    a link. *)
Theorem uploaded_file_is_linked `{Engine} text files app f ds :
  NoDup (map file_name files) -> f ∈ files ->
  file_name f <> [] -> plainName (file_name f) ->
  trim (file_name f) = file_name f ->
  ds <> [] -> Forall (fun c => isDigit c = true) ds ->
  let sourceFile := Some (file_name f ++ js " (Pág. " ++ ds ++ js ")") in
  let uploadedFiles :=
    uploadedFiles (App.state (Upload.handleTextExtracted text files app)) in
  Target.testMode uploadedFiles sourceFile = Some (f, ds)
  /\ Target.openMode uploadedFiles sourceFile = Some (f, ds)
  /\ url (ExamTestMode.createPDFLink uploadedFiles sourceFile) <> None
  /\ url (ExamClozeMode.createPDFLink uploadedFiles sourceFile) <> None
  /\ url (ExamOpenMode.createPDFLink uploadedFiles sourceFile) <> None.
Proof.
  intros Hnd Hin Hne Hname Htrim Hds Hdigits. cbv zeta.
  pose proof (filesMap_get files f Hnd Hin) as Hget.
  pose proof (sourceFileRegex_trimmed _ ds Hne Hname Htrim Hds Hdigits) as Hm.
  rewrite <- Htrim in Hget.
  cbn [Upload.handleTextExtracted App.state uploadedFiles].
  assert (Hopen : Target.openMode (Some (Upload.filesMap files))
                    (Some (file_name f ++ js " (Pág. " ++ ds ++ js ")"))
                  = Some (f, ds)).
  { revert Hget Hm. generalize (Upload.filesMap files).
    destruct (file_name f) as [|c cs]; [done|]. intros m Hget Hm.
    rewrite <- app_comm_cons in *. unfold Target.openMode.
    by rewrite Hm, Hget. }
  pose proof (openMode_testMode _ _ _ Hopen) as Htest.
  unfold ExamClozeMode.createPDFLink.
  rewrite testMode_link, openMode_link, Htest, Hopen.
  split; [done | split; [done | split; [done | split; done]]].
Qed.

Lemma uploaded_file_is_linked_witness :
  let sourceFile :=
    Some (file_name Examples.tema1 ++ js " (Pág. " ++ js "3" ++ js ")") in
  let uploadedFiles :=
    uploadedFiles
      (App.state (Upload.handleTextExtracted []
                    [Examples.tema1; Examples.tema2] Examples.freshApp)) in
  @Target.testMode ascii_engine uploadedFiles sourceFile
  = Some (Examples.tema1, js "3")
  /\ Target.openMode uploadedFiles sourceFile = Some (Examples.tema1, js "3")
  /\ url (@ExamTestMode.createPDFLink ascii_engine uploadedFiles sourceFile)
     <> None
  /\ url (@ExamClozeMode.createPDFLink ascii_engine uploadedFiles sourceFile)
     <> None
  /\ url (@ExamOpenMode.createPDFLink ascii_engine uploadedFiles sourceFile)
     <> None.
Proof.
  apply (@uploaded_file_is_linked ascii_engine []
           [Examples.tema1; Examples.tema2] Examples.freshApp Examples.tema1
           (js "3")).
  - apply (bool_decide_unpack _). vm_compute. exact I.
  - constructor.
  - vm_compute. discriminate.
  - unfold plainName. apply (bool_decide_unpack _). vm_compute. exact I.
  - vm_compute. reflexivity.
  - vm_compute. discriminate.
  - apply (bool_decide_unpack _). vm_compute. exact I.
Defined.

(** The condition on the ends of the name is needed: a file uploaded under
    a name that begins with a space gets no link from its own name, in
    either function. *)
Example name_with_leading_space_is_not_linked :
  let files := [(js " tema1.pdf",
                 {| file_name := js " tema1.pdf"; file_bytes := [] |})] in
  let sourceFile := Some (js " tema1.pdf (Pág. 3)") in
  @Target.testMode ascii_engine (Some files) sourceFile = None
  /\ Target.openMode (Some files) sourceFile = None
  /\ url (@ExamTestMode.createPDFLink ascii_engine (Some files) sourceFile)
     = None
  /\ url (@ExamOpenMode.createPDFLink ascii_engine (Some files) sourceFile)
     = None.
Proof. cbv zeta. repeat split; vm_compute; reflexivity. Qed.

(** X13: in test (and cloze) mode and in open mode, the text shown is
    always the attribution itself, and a link, when there is one, leads to
    one of the uploaded files at a page given by one or more digits. *)
Theorem links_lead_to_uploaded_files `{Engine} uploadedFiles sourceFile link :
  link = ExamTestMode.createPDFLink uploadedFiles sourceFile
  \/ link = ExamOpenMode.createPDFLink uploadedFiles sourceFile ->
  display link = default [] sourceFile
  /\ forall u, url link = Some u ->
       exists key file pageNum,
         (key, file) ∈ default [] uploadedFiles
         /\ pageNum <> []
         /\ Forall (fun c => isDigit c = true) pageNum
         /\ u = createObjectURL file ++ js "#page=" ++ pageNum.
Proof.
  intros Hlink.
  destruct sourceFile as [[|c cs]|], uploadedFiles as [m|];
    try (destruct Hlink as [-> | ->];
         (split; [reflexivity | intros u Hu; discriminate Hu])).
  unfold ExamTestMode.createPDFLink, ExamOpenMode.createPDFLink in Hlink.
  destruct (sourceFileRegex (c :: cs)) as [[filename pageNum]|] eqn:Hm;
    [|destruct Hlink as [-> | ->];
      (split; [reflexivity | intros u Hu; discriminate Hu])].
  apply sourceFileRegex_Some in Hm as (_ & Hp & Hdigits).
  cbv zeta in Hlink.
  destruct (Map_get m (trim filename)) as [file|] eqn:Hget.
  - assert (Heq : link = linkTo file pageNum (c :: cs)) by by destruct Hlink.
    rewrite Heq. split; [reflexivity|]. intros u [= <-].
    exists (trim filename), file, pageNum.
    split; [by apply Map_get_elem | done].
  - destruct Hlink as [-> | ->];
      [|split; [reflexivity | intros u Hu; discriminate Hu]].
    destruct (fuzzyFind m _) as [file|] eqn:Hfind;
      [|split; [reflexivity | intros u Hu; discriminate Hu]].
    split; [reflexivity|]. intros u [= <-].
    apply fuzzyFind_elem in Hfind as [key Hkey].
    exists key, file, pageNum. done.
Qed.

Lemma links_lead_to_uploaded_files_witness :
  let link :=
    @ExamTestMode.createPDFLink ascii_engine Examples.uploaded
      (Some (js "Tema1.PDF (Pág. 12)")) in
  display link = default [] (Some (js "Tema1.PDF (Pág. 12)"))
  /\ forall u, url link = Some u ->
       exists key file pageNum,
         (key, file) ∈ default [] Examples.uploaded
         /\ pageNum <> []
         /\ Forall (fun c => isDigit c = true) pageNum
         /\ u = @createObjectURL ascii_engine file ++ js "#page=" ++ pageNum.
Proof.
  apply (@links_lead_to_uploaded_files ascii_engine Examples.uploaded
           (Some (js "Tema1.PDF (Pág. 12)"))).
  left. reflexivity.
Defined.

(** X14: whenever open mode shows a link, the file and the page it is made
    for are those for which test mode and cloze mode make their link for
    the same files and attribution; the URLs, which the browser mints at
    each call, are not compared. *)
Theorem open_link_is_test_link `{Engine} uploadedFiles sourceFile u :
  url (ExamOpenMode.createPDFLink uploadedFiles sourceFile) = Some u ->
  exists file pageNum,
    Target.openMode uploadedFiles sourceFile = Some (file, pageNum)
    /\ Target.testMode uploadedFiles sourceFile = Some (file, pageNum)
    /\ url (ExamTestMode.createPDFLink uploadedFiles sourceFile) <> None
    /\ url (ExamClozeMode.createPDFLink uploadedFiles sourceFile) <> None.
Proof.
  rewrite openMode_link. unfold ExamClozeMode.createPDFLink.
  destruct (Target.openMode uploadedFiles sourceFile)
    as [[file pageNum]|] eqn:Hopen; [|discriminate].
  intros _. exists file, pageNum.
  pose proof (openMode_testMode _ _ _ Hopen) as Htest.
  rewrite testMode_link, Htest. done.
Qed.

Lemma open_link_is_test_link_witness :
  exists file pageNum,
    Target.openMode Examples.uploaded (Some (js "tema1.pdf (Pág. 2)"))
    = Some (file, pageNum)
    /\ @Target.testMode ascii_engine Examples.uploaded
         (Some (js "tema1.pdf (Pág. 2)"))
       = Some (file, pageNum)
    /\ url (@ExamTestMode.createPDFLink ascii_engine Examples.uploaded
              (Some (js "tema1.pdf (Pág. 2)")))
       <> None
    /\ url (@ExamClozeMode.createPDFLink ascii_engine Examples.uploaded
              (Some (js "tema1.pdf (Pág. 2)")))
       <> None.
Proof.
  apply (@open_link_is_test_link ascii_engine Examples.uploaded
           (Some (js "tema1.pdf (Pág. 2)")) (js "blob:tema1.pdf#page=2")).
  vm_compute. reflexivity.
Defined.

(** X15: [stripExtension] removes a last extension, however many dots the
    rest of the name has, and leaves a name without dots as it is. *)
Theorem stripExtension_extension base ext :
  ext <> [] -> Forall (fun c => isDot c = false) ext ->
  stripExtension (base ++ 46%N :: ext) = base
  /\ stripExtension ext = ext.
Proof.
  intros Hne Hext. split.
  - induction base as [|c base IH].
    + cbn [app stripExtension]. change (isDot 46%N) with true.
      rewrite bool_decide_eq_false_2 by done. cbn [negb andb].
      replace (forallb (fun x => negb (isDot x)) ext) with true; [done|].
      symmetry. apply forallb_forall. intros x Hx.
      rewrite Forall_forall in Hext. rewrite Hext; [done|].
      by apply list_elem_of_In.
    + rewrite <- app_comm_cons. cbn [stripExtension].
      replace (forallb (fun x => negb (isDot x)) (base ++ 46%N :: ext))
        with false; [by rewrite andb_false_r, IH|].
      symmetry. apply not_true_is_false. intros Hall.
      rewrite forallb_forall in Hall.
      specialize (Hall 46%N). rewrite in_app_iff in Hall.
      by discriminate Hall; right; left.
  - clear Hne. induction ext as [|c ext IH]; [done|].
    inversion Hext as [|? ? Hc Hext']; subst. cbn [stripExtension].
    by rewrite Hc, IH.
Qed.

Lemma stripExtension_extension_witness :
  stripExtension (js "tema.v2" ++ 46%N :: js "pdf") = js "tema.v2"
  /\ stripExtension (js "pdf") = js "pdf".
Proof.
  apply (stripExtension_extension (js "tema.v2") (js "pdf")).
  - vm_compute. discriminate.
  - apply (bool_decide_unpack _). vm_compute. exact I.
Defined.

End LinkFacts.

(** ** Uploads, the preview and the prompt *)

Section UploadFacts.

Import Distribution FileUpload.

Lemma dropWhile_snoc p s c : p c = false -> dropWhile p (s ++ [c]) <> [].
Proof.
  intros Hc. induction s as [|x s IH]; cbn [app dropWhile].
  - by rewrite Hc.
  - by destruct (p x).
Qed.

(** A text that begins with a character that is not white space is not
    blank. *)
Lemma trim_nonblank c s : isWhiteSpace c = false -> trim (c :: s) <> [].
Proof.
  intros Hc. unfold trim. cbn [dropWhile]. rewrite Hc.
  intros Hrev. apply (f_equal (@rev _)) in Hrev.
  rewrite rev_involutive in Hrev. cbn [rev] in Hrev.
  by apply (dropWhile_snoc isWhiteSpace (rev s) c Hc).
Qed.

Lemma extractTextFromPDFs_head f files :
  exists s, extractTextFromPDFs (f :: files) = 45%N :: s.
Proof.
  destruct f as [fileName pageTexts]. rewrite extractTextFromPDFs_unfold.
  assert (Hjs : js "--- Inicio del documento: "
                = 45%N :: js "-- Inicio del documento: ")
    by (vm_compute; reflexivity).
  rewrite Hjs. eexists. rewrite <- !app_comm_cons. reflexivity.
Qed.

Lemma readFiles_cons pageTexts f files read :
  readFiles pageTexts (f :: files) = Some read ->
  exists r read', read = r :: read'.
Proof.
  cbn [readFiles]. destruct (pageTexts f) as [texts|]; [|done].
  destruct (readFiles pageTexts files) as [others|]; [|done].
  intros [= <-]. by eexists _, _.
Qed.

(** X16: [processFiles] never gives the alert that no text could be
    extracted: the corpus of one or more files begins with a start marker,
    so it is not blank even when no page has any text. *)
Theorem processFiles_never_alerts_no_text pageTexts files :
  processFiles pageTexts files <> AlertNoText.
Proof.
  unfold processFiles. destruct files as [|f files]; [done|].
  destruct (readFiles pageTexts (f :: files)) as [read|] eqn:Hread; [|done].
  apply readFiles_cons in Hread as (r & read' & ->).
  destruct (extractTextFromPDFs_head r read') as [s ->].
  destruct (length (trim (45%N :: s)) =? 0)%nat eqn:Hlen; [|done].
  apply Nat.eqb_eq in Hlen. apply length_zero_iff_nil in Hlen.
  by apply trim_nonblank in Hlen.
Qed.

Lemma hasName_spec files file :
  hasName files file = false <-> file_name file ∉ map file_name files.
Proof.
  unfold hasName. induction files as [|f files IH]; cbn [existsb map].
  - split; [|done]. intros _ Hin. by apply elem_of_nil in Hin.
  - rewrite orb_false_iff, IH, not_elem_of_cons.
    unfold jsstring_eqb. rewrite bool_decide_eq_false. split.
    + intros [Hne Hnot]. split; [|done]. intros Heq. by apply Hne.
    + intros [Hne Hnot]. split; [|done]. intros Heq. by apply Hne.
Qed.

(** X17: [handleNewFiles] keeps the names of the selected files distinct
    when the names within the new batch are distinct. *)
Theorem handleNewFiles_distinct_names fileType files newFiles :
  NoDup (map file_name files) ->
  NoDup (map file_name newFiles) ->
  NoDup (map file_name (fst (handleNewFiles fileType files (Some newFiles)))).
Proof.
  intros Hfiles Hnew. cbn [handleNewFiles fst]. rewrite map_app.
  apply NoDup_app. split; [done|]. split.
  - intros name Hold Hadded. apply list_elem_of_fmap in Hadded as (f & -> & Hf).
    apply list_elem_of_filter in Hf as [Hf _].
    apply andb_prop_elim in Hf as [_ Hf]. apply negb_prop_elim in Hf.
    apply Hf. apply Is_true_true. apply not_false_iff_true.
    intros Hfalse. by apply hasName_spec in Hfalse.
  - induction newFiles as [|f newFiles IH]; [constructor|].
    cbn [map] in Hnew. apply NoDup_cons in Hnew as [Hf Hnew].
    rewrite filter_cons. destruct (decide _); [|by apply IH].
    cbn [map]. apply NoDup_cons. split; [|by apply IH].
    intros Hin. apply Hf. apply list_elem_of_fmap in Hin as (g & Hg & Hin).
    apply list_elem_of_filter in Hin as [_ Hin].
    rewrite Hg. apply list_elem_of_fmap. by exists g.
Qed.


Lemma handleNewFiles_distinct_names_witness :
  NoDup (map file_name
           (fst (handleNewFiles (fun _ => js "application/pdf")
                   [Examples.tema1]
                   (Some [Examples.tema1; Examples.tema2])))).
Proof.
  apply (handleNewFiles_distinct_names (fun _ => js "application/pdf")
           [Examples.tema1] [Examples.tema1; Examples.tema2]).
  - apply (bool_decide_unpack _). vm_compute. exact I.
  - apply (bool_decide_unpack _). vm_compute. exact I.
Defined.

(** Names are compared with the files already selected only: two files of
    one name in the same batch are both added. *)
Example handleNewFiles_same_batch :
  handleNewFiles (fun _ => js "application/pdf") []
    (Some [Examples.tema1; Examples.tema1])
  = ([Examples.tema1; Examples.tema1], []).
Proof. vm_compute. reflexivity. Qed.

End UploadFacts.

Section PreviewFacts.

Import PDFPreview.

(** X18: the page shown by the preview stays between 1 and the number of
    pages (1 while the document is not loaded), whatever buttons are
    pressed, and the number of pages does not change. *)
Theorem page_stays_in_range events : forall st,
  (1 <= currentPage st <= Z.max 1 (totalPages st))%Z ->
  totalPages (fold_left step events st) = totalPages st
  /\ (1 <= currentPage (fold_left step events st)
      <= Z.max 1 (totalPages st))%Z.
Proof.
  induction events as [|ev events IH]; intros st Hst; [done|].
  cbn [fold_left].
  assert (Hstep : totalPages (step st ev) = totalPages st
                  /\ (1 <= currentPage (step st ev)
                      <= Z.max 1 (totalPages st))%Z).
  { destruct ev; cbn [step]; unfold handlePrevPage, handleNextPage.
    - destruct (Z.ltb_spec 1 (currentPage st)); cbn; lia.
    - destruct (Z.ltb_spec (currentPage st) (totalPages st)); cbn; lia. }
  destruct Hstep as [Htotal Hpage].
  destruct (IH (step st ev)) as [IH1 IH2]; [by rewrite Htotal|].
  rewrite Htotal in IH1, IH2. done.
Qed.

Lemma page_stays_in_range_witness :
  totalPages (fold_left step [NextPage; NextPage; NextPage; Prev]
                {| currentPage := 1; totalPages := 2 |})
  = totalPages {| currentPage := 1; totalPages := 2 |}
  /\ (1 <= currentPage (fold_left step [NextPage; NextPage; NextPage; Prev]
                          {| currentPage := 1; totalPages := 2 |})
      <= Z.max 1 (totalPages {| currentPage := 1; totalPages := 2 |}))%Z.
Proof.
  apply (page_stays_in_range [NextPage; NextPage; NextPage; Prev]
           {| currentPage := 1; totalPages := 2 |}).
  cbn. lia.
Defined.

End PreviewFacts.

Section PromptFacts.

Import Distribution Prompt.

Lemma fold_left_app_cons {A} (g : A -> list N) items : forall c t,
  exists t', fold_left (fun acc item => acc ++ g item) items (c :: t)
             = c :: t'.
Proof.
  induction items as [|item items IH]; intros c t; cbn [fold_left].
  - by exists t.
  - rewrite <- app_comm_cons. apply IH.
Qed.

(** X19: the distribution instruction of the prompt is empty exactly when
    the parser finds fewer than two documents in the corpus. *)
Theorem calculateQuestionDistribution_empty numberToString text
    totalQuestions :
  calculateQuestionDistribution numberToString text totalQuestions = []
  <-> (length (documents text) <= 1)%nat.
Proof.
  unfold calculateQuestionDistribution. cbv zeta.
  destruct (Nat.leb_spec (length (documents text)) 1) as [Hle|Hgt].
  - split; [done|]. intros _.
    rewrite getQuestionCountsPerDocument_documents. cbv zeta.
    apply Nat.leb_le in Hle. by rewrite Hle.
  - rewrite distribution_length by lia.
    destruct (Nat.eqb_spec (length (documents text)) 0); [lia|].
    assert (Hjs : js "INSTRUCCIÓN DE DISTRIBUCIÓN OBLIGATORIA:"
                  = 73%N :: js "NSTRUCCIÓN DE DISTRIBUCIÓN OBLIGATORIA:")
      by (vm_compute; reflexivity).
    rewrite Hjs, <- app_comm_cons.
    destruct (fold_left_app_cons (instructionLine numberToString)
                (getQuestionCountsPerDocument text totalQuestions) 73%N
                (js "NSTRUCCIÓN DE DISTRIBUCIÓN OBLIGATORIA:" ++ [LF]))
      as [t' ->].
    split; [done | lia].
Qed.

End PromptFacts.

(** ** Occurrences of hidden terms *)

Section OccurrenceFacts.

Import ExamClozeMode Occurrence.
Context `{Engine}.




















End OccurrenceFacts.

Section OccurrenceExamples.

Import ExamClozeMode Occurrence Examples.



(** Outside ASCII the two comparisons can differ, and a match stays
    visible: the pattern of the term σ matches the final sigma ς, whose
    lower case is not σ. *)
Example final_sigma_stays_visible :
  @getParsedContent sigma_engine
    (Some {| ClozeCard.fullText := [959; 962]%N;
             ClozeCard.hiddenWords := [[963%N]];
             ClozeCard.imagePrompt := [];
             ClozeCard.sourceFile := None |})
  = [{| text := [959%N]; hidden := false; word := None |};
     {| text := [962%N]; hidden := false; word := None |}]
  /\ @matchAt sigma_engine [963%N] [962%N] = true.
Proof. split; vm_compute; reflexivity. Qed.

End OccurrenceExamples.

Section ClozeShape.

Import ExamClozeMode.
Context `{Engine}.

Lemma hideWord_shape parts word :
  Forall (fun p => ExamClozeMode.word p
                   = if hidden p then Some (text p) else None) parts ->
  Forall (fun p => ExamClozeMode.word p
                   = if hidden p then Some (text p) else None)
    (hideWord parts word).
Proof.
  intros Hparts. destruct word as [|c word]; [done|]. unfold hideWord.
  apply Forall_forall. intros q Hq. apply list_elem_of_In in Hq.
  apply in_flat_map in Hq as (part & Hpart & Hq).
  unfold splitPart in Hq. destruct (hidden part) eqn:Hh.
  - destruct Hq as [<-|[]]. rewrite Forall_forall in Hparts.
    apply Hparts. by apply list_elem_of_In.
  - apply in_flat_map in Hq as (x & _ & Hq). unfold pieceParts in Hq.
    destruct (jsstring_eqb _ _).
    + by destruct Hq as [<-|[]].
    + destruct x; [done|]. by destruct Hq as [<-|[]].
Qed.

(** X21: in the parsed content a hidden part carries its own text as the
    word to guess, and a visible part carries no word. *)
Theorem parts_carry_their_word (currentCard : ClozeCard.t) part :
  In part (getParsedContent (Some currentCard)) ->
  ExamClozeMode.word part = if hidden part then Some (text part) else None.
Proof.
  unfold getParsedContent.
  assert (Hall : forall words parts,
    Forall (fun p => ExamClozeMode.word p
                     = if hidden p then Some (text p) else None) parts ->
    Forall (fun p => ExamClozeMode.word p
                     = if hidden p then Some (text p) else None)
      (fold_left hideWord words parts)).
  { induction words as [|w words IH]; intros parts Hparts; [done|].
    cbn [fold_left]. apply IH. by apply hideWord_shape. }
  intros Hin. apply list_elem_of_In in Hin. revert part Hin.
  apply Forall_forall, Hall. by constructor.
Qed.

End ClozeShape.

Section ClozeShapeWitness.

Import ExamClozeMode Examples.

Lemma parts_carry_their_word_witness :
  ExamClozeMode.word (masked "Sol")
  = if hidden (masked "Sol") then Some (text (masked "Sol")) else None.
Proof.
  apply (@parts_carry_their_word ascii_engine
           {| ClozeCard.fullText := js "El Sol es una Estrella.";
              ClozeCard.hiddenWords := map js ["sol"; "estrella"]%string;
              ClozeCard.imagePrompt := [];
              ClozeCard.sourceFile := None |}
           (masked "Sol")).
  vm_compute. right. left. reflexivity.
Defined.

End ClozeShapeWitness.

Section EscapedTerms.

Import ExamClozeMode Pattern.

Lemma isSyntaxCharacter_backslash : isSyntaxCharacter backslash = true.
Proof. reflexivity. Qed.






End EscapedTerms.
